(** * Optical BlackBox: the .obb container codec

    A shallow embedding of the secure container codec of the
    [optical_blackbox] package: the surface model
    ([models/surface.py], [models/surface_group.py]), the payload codec
    ([formats/obb_payload.py]) and the file reader and writer
    ([formats/obb_file.py]).

    Python values are modelled as follows.
    - [float] is an IEEE binary64 number, here [spec_float] of the
      Standard Library; comparisons are [SFeqb], [SFltb], [SFleb].
    - [int] is [Z]; [str] is [string]; [bytes] is [list byte].
    - an exception is a constructor of [exn]; a call that may raise returns
      an [outcome].
    - code with effects (file access, key generation, the clock, calls into
      the encryption engine) runs in the monad [M], which threads a [world]
      and records the calls in a trace. *)

From Stdlib Require Import ZArith NArith List String Ascii Bool Lia.
From Stdlib Require Import Permutation Sorted Strings.Byte.
From Stdlib Require Import Floats.SpecFloat DecimalString.
Import ListNotations.

Local Open Scope string_scope.
Local Open Scope Z_scope.
Local Open Scope list_scope.

(** ** Python floats *)

Definition float := spec_float.

Module Float.

Definition inf : float := S754_infinity false.
Definition neg_inf : float := S754_infinity true.
Definition nan : float := S754_nan.
Definition zero : float := S754_zero false.

(** [x == y], [x > y] and [x >= y] on floats; all three are false as
    soon as one side is NaN. *)
Definition eqb (x y : float) : bool := SFeqb x y.
Definition gtb (x y : float) : bool := SFltb y x.
Definition geb (x y : float) : bool := SFleb y x.
Definition abs (x : float) : float := SFabs x.
Definition neg (x : float) : float := SFopp x.

Definition is_finite (x : float) : bool :=
  match x with
  | S754_zero _ | S754_finite _ _ _ => true
  | S754_infinity _ | S754_nan => false
  end.

(** The values a Python float can take: binary64. *)
Definition is_binary64 (x : float) : bool := valid_binary 53 1024 x.

End Float.

(** ** models/surface.py *)

(** [INFINITY_SENTINEL = 1e99]: the binary64 number nearest to 10^99,
    which is 8236092143148846 * 2^276. *)
Definition INFINITY_SENTINEL : float := S754_finite false 8236092143148846 276.

Inductive SurfaceType := STANDARD | EVENASPH | ODDASPH | TOROIDAL.

Inductive SurfaceVisibility := PUBLIC | ENCRYPTED | REDACTED.

Definition SurfaceType_value (t : SurfaceType) : string :=
  match t with
  | STANDARD => "standard"
  | EVENASPH => "evenasph"
  | ODDASPH => "oddasph"
  | TOROIDAL => "toroidal"
  end.

Definition SurfaceVisibility_value (v : SurfaceVisibility) : string :=
  match v with
  | PUBLIC => "public"
  | ENCRYPTED => "encrypted"
  | REDACTED => "redacted"
  end.

(** Lookup of an enum member by value, [SurfaceType("standard")]. *)
Definition SurfaceType_of_value (s : string) : option SurfaceType :=
  if String.eqb s "standard" then Some STANDARD
  else if String.eqb s "evenasph" then Some EVENASPH
  else if String.eqb s "oddasph" then Some ODDASPH
  else if String.eqb s "toroidal" then Some TOROIDAL
  else None.

Definition SurfaceVisibility_of_value (s : string) : option SurfaceVisibility :=
  if String.eqb s "public" then Some PUBLIC
  else if String.eqb s "encrypted" then Some ENCRYPTED
  else if String.eqb s "redacted" then Some REDACTED
  else None.

Definition SurfaceVisibility_eqb (a b : SurfaceVisibility) : bool :=
  match a, b with
  | PUBLIC, PUBLIC | ENCRYPTED, ENCRYPTED | REDACTED, REDACTED => true
  | _, _ => false
  end.

(** The fields of [class Surface(BaseModel)], in the order of the class
    body.  The model has no [comment] field. *)
Record Surface := mkSurface {
  surface_number : Z;
  surface_type : SurfaceType;
  radius : float;
  thickness : float;
  semi_diameter : float;
  conic : float;
  material : option string;
  aspheric_coeffs : option (list (string * float));
  decenter_x : float;
  decenter_y : float;
  tilt_x : float;
  tilt_y : float;
  visibility : SurfaceVisibility
}.

(** [Surface.parse_radius], the [mode="before"] validator of [radius].
    Its argument is the raw input: [None] for Python's [None] (JSON null),
    [Some v] for a float. *)
Definition parse_radius (v : option float) : float :=
  match v with
  | None => Float.inf
  | Some v =>
      if Float.geb (Float.abs v) INFINITY_SENTINEL then Float.inf
      else v
  end.

(** [Surface.serialize_radius], the field serializer of [radius]. *)
Definition serialize_radius (value : float) : float :=
  if Float.eqb value Float.inf
     || Float.eqb value Float.neg_inf
     || Float.geb (Float.abs value) INFINITY_SENTINEL
  then (if Float.gtb value Float.zero then INFINITY_SENTINEL
        else Float.neg INFINITY_SENTINEL)
  else value.

(** The keyword arguments of [Surface(...)], which are also the keys of the
    JSON object that [Surface.model_validate] receives.  [None] is a key
    that is not given.  A float that JSON carries is [Some x], JSON null is
    [None], so a float key is an [option (option float)].  [kw_extra] holds
    keyword arguments that are not fields of the model, such as [comment]. *)
Record surface_kwargs := mkSurfaceKwargs {
  kw_surface_number : option Z;
  kw_surface_type : option string;
  kw_radius : option (option float);
  kw_thickness : option (option float);
  kw_semi_diameter : option (option float);
  kw_conic : option (option float);
  kw_material : option string;
  kw_aspheric_coeffs : option (list (string * option float));
  kw_decenter_x : option (option float);
  kw_decenter_y : option (option float);
  kw_tilt_x : option (option float);
  kw_tilt_y : option (option float);
  kw_visibility : option string;
  kw_extra : list (string * string)
}.

(** ** Exceptions and results *)

Inductive exn :=
| ValidationError          (* pydantic.ValidationError *)
| InvalidMagicBytesError
| InvalidOBBFileError
| InvalidSignatureError
| DecryptionError
| SignatureDecodeError     (* a signature string that does not decode *)
| JSONDecodeError
| UnicodeDecodeError
| Base64Error              (* binascii.Error *)
| AttributeError
| StructError              (* struct.error *)
| OSError                  (* FileNotFoundError, PermissionError, ... *)
| RecursionError
| ValueError.              (* a ValueError that is of neither subclass above *)

Inductive outcome (A : Type) :=
| Ok (a : A)
| Raise (e : exn).

Arguments Ok {A} a.
Arguments Raise {A} e.

Definition obind {A B} (x : outcome A) (f : A -> outcome B) : outcome B :=
  match x with
  | Ok a => f a
  | Raise e => Raise e
  end.

Fixpoint omap {A B} (f : A -> outcome B) (l : list A) : outcome (list B) :=
  match l with
  | [] => Ok []
  | a :: l =>
      obind (f a) (fun b => obind (omap f l) (fun bs => Ok (b :: bs)))
  end.

(** ** Validation of a [Surface] *)

(** A field annotated [float] with a default: the default when the key is
    absent, an error on null. *)
Definition float_field (raw : option (option float)) (default : float)
  : outcome float :=
  match raw with
  | None => Ok default
  | Some None => Raise ValidationError
  | Some (Some x) => Ok x
  end.

(** The same with the constraint [ge=0]. *)
Definition float_field_ge0 (raw : option (option float)) (default : float)
  : outcome float :=
  match raw with
  | None => Ok default
  | Some None => Raise ValidationError
  | Some (Some x) =>
      if Float.geb x Float.zero then Ok x else Raise ValidationError
  end.

Definition coeff_field (kv : string * option float)
  : outcome (string * float) :=
  match snd kv with
  | Some x => Ok (fst kv, x)
  | None => Raise ValidationError
  end.

(** The constructor [Surface] and [Surface.model_validate]: defaults,
    the [radius] validator, the [ge=0] constraints and the enum lookups.
    The model configuration does not set [extra], so pydantic ignores
    [kw_extra]. *)
Definition Surface_init (kw : surface_kwargs) : outcome Surface :=
  obind (match kw_surface_number kw with
         | None => Raise ValidationError
         | Some n => if (n <? 0)%Z then Raise ValidationError else Ok n
         end) (fun surface_number =>
  obind (match kw_surface_type kw with
         | None => Ok STANDARD
         | Some s => match SurfaceType_of_value s with
                     | Some t => Ok t
                     | None => Raise ValidationError
                     end
         end) (fun surface_type =>
  let radius := match kw_radius kw with
                | None => Float.inf
                | Some v => parse_radius v
                end in
  obind (float_field (kw_thickness kw) Float.zero) (fun thickness =>
  obind (float_field_ge0 (kw_semi_diameter kw) Float.zero) (fun semi_diameter =>
  obind (float_field (kw_conic kw) Float.zero) (fun conic =>
  obind (match kw_aspheric_coeffs kw with
         | None => Ok None
         | Some l => obind (omap coeff_field l) (fun l => Ok (Some l))
         end) (fun aspheric_coeffs =>
  obind (float_field (kw_decenter_x kw) Float.zero) (fun decenter_x =>
  obind (float_field (kw_decenter_y kw) Float.zero) (fun decenter_y =>
  obind (float_field (kw_tilt_x kw) Float.zero) (fun tilt_x =>
  obind (float_field (kw_tilt_y kw) Float.zero) (fun tilt_y =>
  obind (match kw_visibility kw with
         | None => Ok PUBLIC
         | Some s => match SurfaceVisibility_of_value s with
                     | Some v => Ok v
                     | None => Raise ValidationError
                     end
         end) (fun visibility =>
  Ok (mkSurface surface_number surface_type radius thickness semi_diameter
        conic (kw_material kw) aspheric_coeffs decenter_x decenter_y
        tilt_x tilt_y visibility)))))))))))).

Definition Surface_model_validate := Surface_init.

(** ** models/surface_group.py *)

(** [field_type: Literal["angle", "height"]]. *)
Inductive FieldType := ANGLE | HEIGHT.

Definition FieldType_value (t : FieldType) : string :=
  match t with
  | ANGLE => "angle"
  | HEIGHT => "height"
  end.

Definition FieldType_of_value (s : string) : option FieldType :=
  if String.eqb s "angle" then Some ANGLE
  else if String.eqb s "height" then Some HEIGHT
  else None.

Record SurfaceGroup := mkSurfaceGroup {
  surfaces : list Surface;
  stop_surface : option Z;
  wavelengths_nm : list float;
  primary_wavelength_index : Z;
  field_type : FieldType;
  max_field : float
}.

Definition get_encrypted_surfaces (self : SurfaceGroup) : list Surface :=
  filter (fun s => SurfaceVisibility_eqb (visibility s) ENCRYPTED)
         (surfaces self).

Definition get_public_surfaces (self : SurfaceGroup) : list Surface :=
  filter (fun s => SurfaceVisibility_eqb (visibility s) PUBLIC)
         (surfaces self).

Definition get_redacted_surfaces (self : SurfaceGroup) : list Surface :=
  filter (fun s => SurfaceVisibility_eqb (visibility s) REDACTED)
         (surfaces self).

Definition has_selective_encryption (self : SurfaceGroup) : bool :=
  existsb (fun s => negb (SurfaceVisibility_eqb (visibility s) PUBLIC))
          (surfaces self).

(** 587.56 and 550.0 as binary64 numbers: the default of [wavelengths_nm]
    and the default that [decrypt_payload_selective] passes. *)
Definition float_587_56 : float := S754_finite false 5168232416128532 (-43).
Definition float_550 : float := S754_finite false 4837851162214400 (-43).

(** The keyword arguments of [SurfaceGroup(...)] other than [surfaces].
    [None] is an argument that is not given; [Some None] is an argument
    given as Python's [None]. *)
Record group_kwargs := mkGroupKwargs {
  gk_stop_surface : option Z;
  gk_wavelengths_nm : option (list (option float));
  gk_primary_wavelength_index : option Z;
  gk_field_type : option (option string);
  gk_max_field : option (option float)
}.

Definition wavelength_item (x : option float) : outcome float :=
  match x with
  | Some x => Ok x
  | None => Raise ValidationError
  end.

(** The constructor [SurfaceGroup]: the constraints of the fields
    ([min_length=1], [ge=0], the literal values of [field_type]) and the
    defaults.  [surfaces] are [Surface] objects already. *)
Definition SurfaceGroup_init (surfaces : list Surface) (kw : group_kwargs)
  : outcome SurfaceGroup :=
  obind (match surfaces with
         | [] => Raise ValidationError
         | _ :: _ => Ok surfaces
         end) (fun surfaces =>
  obind (match gk_stop_surface kw with
         | None => Ok None
         | Some n => if (n <? 0)%Z then Raise ValidationError else Ok (Some n)
         end) (fun stop_surface =>
  obind (match gk_wavelengths_nm kw with
         | None => Ok [float_587_56]
         | Some [] => Raise ValidationError
         | Some l => omap wavelength_item l
         end) (fun wavelengths_nm =>
  obind (match gk_primary_wavelength_index kw with
         | None => Ok 0%Z
         | Some n => if (n <? 0)%Z then Raise ValidationError else Ok n
         end) (fun primary_wavelength_index =>
  obind (match gk_field_type kw with
         | None => Ok ANGLE
         | Some None => Raise ValidationError
         | Some (Some s) => match FieldType_of_value s with
                            | Some t => Ok t
                            | None => Raise ValidationError
                            end
         end) (fun field_type =>
  obind (float_field_ge0 (gk_max_field kw) Float.zero) (fun max_field =>
  Ok (mkSurfaceGroup surfaces stop_surface wavelengths_nm
        primary_wavelength_index field_type max_field))))))).

(** ** JSON values

    The JSON objects of the codec, by the keys that the code reads and
    writes, each with the type of value the writer puts there; [None] is a
    key that is absent (for [jd_stop_surface] also JSON null).  Any JSON
    value that is not an object is [JOther]. *)
Record json_dict := mkJsonDict {
  jd_encryption_mode : option string;
  jd_public_surfaces : option (list surface_kwargs);
  jd_redacted_surface_indices : option (list Z);
  jd_encrypted_surfaces_data : option string;
  jd_wavelengths_nm : option (list (option float));
  jd_primary_wavelength_index : option Z;
  jd_stop_surface : option Z;
  jd_field_type : option string;
  jd_max_field : option (option float);
  jd_surfaces : option (list surface_kwargs)
}.

Inductive json :=
| JObject (d : json_dict)
| JOther.

(** The result of [json.loads] on bytes: a value, or one of the
    exceptions that the call raises.  Text that nests too deeply raises
    [RecursionError], and an integer literal with more digits than the
    interpreter converts raises a plain [ValueError]; neither is a
    [json.JSONDecodeError]. *)
Inductive json_result :=
| JsonOk (v : json)
| JsonDecodeFailed        (* json.JSONDecodeError *)
| JsonNotUnicode          (* UnicodeDecodeError *)
| JsonTooDeep             (* RecursionError *)
| JsonBadNumber.          (* ValueError *)

Definition bytes := list byte.

(** ** models/metadata.py *)

Record OBBMetadata := mkOBBMetadata {
  version : string;
  vendor_id : string;
  name : string;
  efl_mm : float;
  na : float;
  diameter_mm : float;
  spectral_range_nm : float * float;
  num_surfaces : Z;
  created_at : option Z;
  signature : string;
  description : option string;
  part_number : option string
}.

(** The two assignments of the writers, [metadata.signature = signature]
    and [metadata.created_at = datetime.utcnow()]. *)
Definition stamp (metadata : OBBMetadata) (signature : string) (now : Z)
  : OBBMetadata :=
  mkOBBMetadata (version metadata) (vendor_id metadata) (name metadata)
    (efl_mm metadata) (na metadata) (diameter_mm metadata)
    (spectral_range_nm metadata) (num_surfaces metadata)
    (Some now) signature (description metadata) (part_number metadata).

(** ** What lies outside the package

    The codec calls into libraries (the [cryptography] primitives, [json],
    [base64], pydantic's JSON mode for floats), and it uses the constant
    [OBB_MAGIC] of [formats/obb_constants.py] and the text codec of the
    header of [formats/obb_header.py], two modules whose source is not at
    hand.  They are the fields of [Externals]; what the proofs need of them
    is stated as the laws below, one definition per law. *)

(** The header record: the metadata and the ephemeral public key. *)
Record OBBHeader (PublicKey : Type) := mkOBBHeader {
  h_metadata : OBBMetadata;
  h_ephemeral_public_key : PublicKey
}.

Arguments mkOBBHeader {PublicKey} _ _.
Arguments h_metadata {PublicKey} _.
Arguments h_ephemeral_public_key {PublicKey} _.

Class Externals := {
  PrivateKey : Type;
  PublicKey : Type;
  (** [private_key.public_key()] *)
  public_key : PrivateKey -> PublicKey;
  (** key generation on P-256 from the random number it draws *)
  keygen : Z -> PrivateKey;
  (** ECDH of an ephemeral private key with the recipient's public key,
      key derivation and AEAD encryption of a plaintext *)
  hybrid_seal : PrivateKey -> PublicKey -> bytes -> bytes;
  (** ECDH of the recipient's private key with the ephemeral public key,
      key derivation and AEAD decryption; [None] when authentication
      fails *)
  hybrid_open : PrivateKey -> PublicKey -> bytes -> option bytes;
  (** ECDSA signature of data, base64 text; the integer is the nonce *)
  ecdsa_sign : PrivateKey -> Z -> bytes -> string;
  (** ECDSA verification; [None] when the signature text does not decode *)
  ecdsa_verify : PublicKey -> bytes -> string -> option bool;
  (** [base64.b64encode(b).decode("ascii")] and [base64.b64decode] *)
  b64encode : bytes -> string;
  b64decode : string -> option bytes;
  (** [json.dumps(v).encode("utf-8")] and [json.loads] on bytes *)
  json_dumps : json -> bytes;
  json_loads : bytes -> json_result;
  (** what pydantic's JSON mode writes for a float: the float, or null *)
  ser_json_float : float -> option float;
  (** [OBB_MAGIC] of [formats/obb_constants.py] *)
  OBB_MAGIC : bytes;
  (** [serialize_header] and [deserialize_header] of
      [formats/obb_header.py]; [None] when the bytes are not a header *)
  serialize_header : OBBHeader PublicKey -> bytes;
  deserialize_header : bytes -> option (OBBHeader PublicKey)
}.

(** Decryption with the matching private key returns the plaintext. *)
Definition open_seal_law (E : Externals) : Prop :=
  forall eph recipient plaintext,
    hybrid_open recipient (public_key eph)
      (hybrid_seal eph (public_key recipient) plaintext) = Some plaintext.

(** A ciphertext carries at least the authentication tag. *)
Definition seal_nonempty_law (E : Externals) : Prop :=
  forall eph pk plaintext, hybrid_seal eph pk plaintext <> [].

(** Base64 decodes what it encoded, and encodes only the empty bytes as
    the empty string. *)
Definition b64_law (E : Externals) : Prop :=
  forall b, b64decode (b64encode b) = Some b /\
            (b64encode b = EmptyString -> b = []).

(** [json.loads] reads back what [json.dumps] wrote. *)
Definition json_law (E : Externals) : Prop :=
  forall v, json_loads (json_dumps v) = JsonOk v.

(** A signature verifies on the data it signed. *)
Definition sign_verify_law (E : Externals) : Prop :=
  forall k nonce data,
    ecdsa_verify (public_key k) data (ecdsa_sign k nonce data) = Some true.

(** A signature is well formed and verifies on no other data: the
    symbolic model of an unforgeable signature. *)
Definition sign_binding_law (E : Externals) : Prop :=
  forall k nonce data data',
    data' <> data ->
    ecdsa_verify (public_key k) data' (ecdsa_sign k nonce data) = Some false.

(** Finite floats are written as themselves. *)
Definition ser_float_law (E : Externals) : Prop :=
  forall x, Float.is_finite x = true -> ser_json_float x = Some x.

(** The magic constant has four bytes. *)
Definition magic_law (E : Externals) : Prop :=
  List.length OBB_MAGIC = 4%nat.

(** The header codec reads back what it wrote. *)
Definition header_law (E : Externals) : Prop :=
  forall h, deserialize_header (serialize_header h) = Some h.

(** ** The world and the monad of effects *)

Inductive file :=
| Missing                       (* open raises FileNotFoundError *)
| Forbidden                     (* open raises PermissionError *)
| Broken                        (* open succeeds, every access raises OSError *)
| Regular (content : bytes).

(** The calls that the trace records.  The trace is kept newest first. *)
Inductive event :=
| EvOpen (path : string)
| EvFileRead (path : string) (size : option nat)
| EvFileWrite (path : string) (data : bytes)
| EvGenerateKeypair
| EvEncrypt (plaintext : bytes)
| EvDecrypt (ciphertext : bytes)
| EvSign (data : bytes)
| EvVerify (data : bytes) (result : option bool).

Record world := mkWorld {
  w_fs : string -> file;
  w_random : nat -> Z;       (* the stream of the random source *)
  w_drawn : nat;             (* how many numbers were drawn from it *)
  w_now : Z;                 (* datetime.utcnow() *)
  w_trace : list event
}.

Definition M (A : Type) : Type := world -> outcome A * world.

Definition ret {A} (a : A) : M A := fun w => (Ok a, w).

Definition raise {A} (e : exn) : M A := fun w => (Raise e, w).

Definition bind {A B} (m : M A) (k : A -> M B) : M B :=
  fun w =>
    match m w with
    | (Ok a, w') => k a w'
    | (Raise e, w') => (Raise e, w')
    end.

Notation "x <- m ;; k" := (bind m (fun x => k))
  (at level 61, m at next level, right associativity).
Notation "' pat <- m ;; k" := (bind m (fun x => match x with pat => k end))
  (at level 61, pat pattern, m at next level, right associativity).
Notation "m ;;; k" := (bind m (fun _ => k))
  (at level 61, right associativity).

(** [try: m except e: handler e]; the handler re-raises what it does not
    catch. *)
Definition try_except {A} (m : M A) (handler : exn -> M A) : M A :=
  fun w =>
    match m w with
    | (Ok a, w') => (Ok a, w')
    | (Raise e, w') => handler e w'
    end.

Definition lift {A} (x : outcome A) : M A := fun w => (x, w).

Definition log (ev : event) : M unit :=
  fun w => (Ok tt, mkWorld (w_fs w) (w_random w) (w_drawn w) (w_now w)
                           (ev :: w_trace w)).

Definition draw : M Z :=
  fun w => (Ok (w_random w (w_drawn w)),
            mkWorld (w_fs w) (w_random w) (S (w_drawn w)) (w_now w)
                    (w_trace w)).

Definition utcnow : M Z := fun w => (Ok (w_now w), w).

Definition update_file (path : string) (f : file) (fs : string -> file)
  : string -> file :=
  fun p => if String.eqb p path then f else fs p.

Definition set_file (path : string) (f : file) : M unit :=
  fun w => (Ok tt,
            mkWorld (update_file path f (w_fs w))
                    (w_random w) (w_drawn w) (w_now w) (w_trace w)).

Definition get_file (path : string) : M file := fun w => (Ok (w_fs w path), w).

(** A file object open for reading: its path and the bytes not yet read,
    [None] for a file whose reads fail. *)
Record handle := mkHandle {
  h_path : string;
  h_rest : option bytes
}.

(** [open(path, "rb")] *)
Definition open_rb (path : string) : M handle :=
  log (EvOpen path) ;;;
  f <- get_file path ;;
  match f with
  | Missing | Forbidden => raise OSError
  | Broken => ret (mkHandle path None)
  | Regular content => ret (mkHandle path (Some content))
  end.

(** [f.read(size)], and [f.read()] for [size = None] *)
Definition file_read (f : handle) (size : option nat) : M (bytes * handle) :=
  log (EvFileRead (h_path f) size) ;;;
  match h_rest f with
  | None => raise OSError
  | Some rest =>
      match size with
      | Some n => ret (firstn n rest, mkHandle (h_path f) (Some (skipn n rest)))
      | None => ret (rest, mkHandle (h_path f) (Some []))
      end
  end.

(** [open(path, "wb")]: the file is created or truncated; a broken file
    opens and stays broken, so that the first write to it fails. *)
Definition open_wb (path : string) : M unit :=
  log (EvOpen path) ;;;
  f <- get_file path ;;
  match f with
  | Forbidden => raise OSError
  | Broken => ret tt
  | Missing | Regular _ => set_file path (Regular [])
  end.

(** [f.write(data)] on a file open for writing *)
Definition file_write (path : string) (data : bytes) : M unit :=
  log (EvFileWrite path data) ;;;
  f <- get_file path ;;
  match f with
  | Regular content => set_file path (Regular (content ++ data))
  | _ => raise OSError
  end.

(** ** Python builtins on lists and bytes *)

Fixpoint bytes_eqb (a b : bytes) : bool :=
  match a, b with
  | [], [] => true
  | x :: a, y :: b => Byte.eqb x y && bytes_eqb a b
  | _, _ => false
  end.

(** [str(n)] for an [int]. *)
Definition str_of_int (n : Z) : string := NilZero.string_of_int (Z.to_int n).

(** [l.sort(key=key)]: Python's sort is stable, so it returns the list
    that stable insertion computes. *)
Fixpoint insert_by {A} (key : A -> Z) (x : A) (l : list A) : list A :=
  match l with
  | [] => [x]
  | y :: l' => if key x <=? key y then x :: l else y :: insert_by key x l'
  end.

Definition sort_by {A} (key : A -> Z) (l : list A) : list A :=
  fold_right (insert_by key) [] l.

(** [struct.pack("<I", n)] and [struct.unpack("<I", b)[0]]. *)
Definition byte_of_N (n : N) : byte :=
  match Byte.of_N (n mod 256) with
  | Some b => b
  | None => x00
  end.

Definition u32_le (n : N) : bytes :=
  [byte_of_N n; byte_of_N (n / 256); byte_of_N (n / 65536);
   byte_of_N (n / 16777216)].

Definition u32_of_le (b : bytes) : N :=
  match b with
  | [b0; b1; b2; b3] =>
      (Byte.to_N b0 + 256 * Byte.to_N b1 + 65536 * Byte.to_N b2
       + 16777216 * Byte.to_N b3)%N
  | _ => 0%N
  end.

Definition get {A} (x : option A) (default : A) : A :=
  match x with
  | Some a => a
  | None => default
  end.

Section Codec.

Context {E : Externals}.

(** ** Serialization of the models *)

(** [Surface.model_dump(mode="json")]: every field is written; [radius]
    goes through its serializer; the enums are written by value. *)
Definition Surface_model_dump (s : Surface) : surface_kwargs :=
  mkSurfaceKwargs
    (Some (surface_number s))
    (Some (SurfaceType_value (surface_type s)))
    (Some (ser_json_float (serialize_radius (radius s))))
    (Some (ser_json_float (thickness s)))
    (Some (ser_json_float (semi_diameter s)))
    (Some (ser_json_float (conic s)))
    (material s)
    (option_map (map (fun kv => (fst kv, ser_json_float (snd kv))))
                (aspheric_coeffs s))
    (Some (ser_json_float (decenter_x s)))
    (Some (ser_json_float (decenter_y s)))
    (Some (ser_json_float (tilt_x s)))
    (Some (ser_json_float (tilt_y s)))
    (Some (SurfaceVisibility_value (visibility s)))
    [].

(** [SurfaceGroup.model_dump_json().encode("utf-8")], without the two
    computed fields, which validation ignores. *)
Definition SurfaceGroup_model_dump_json (g : SurfaceGroup) : bytes :=
  json_dumps (JObject
    (mkJsonDict None None None None
       (Some (map ser_json_float (wavelengths_nm g)))
       (Some (primary_wavelength_index g))
       (stop_surface g)
       (Some (FieldType_value (field_type g)))
       (Some (ser_json_float (max_field g)))
       (Some (map Surface_model_dump (surfaces g))))).

(** [SurfaceGroup.model_validate_json]: pydantic reports JSON that does
    not parse as a [ValidationError] too. *)
Definition SurfaceGroup_model_validate_json (data : bytes)
  : outcome SurfaceGroup :=
  match json_loads data with
  | JsonOk (JObject d) =>
      match jd_surfaces d with
      | None => Raise ValidationError
      | Some l =>
          obind (omap Surface_model_validate l) (fun surfaces =>
          SurfaceGroup_init surfaces
            (mkGroupKwargs (jd_stop_surface d) (jd_wavelengths_nm d)
               (jd_primary_wavelength_index d)
               (option_map Some (jd_field_type d))
               (jd_max_field d)))
      end
  | _ => Raise ValidationError
  end.

(** ** crypto/ecdh.py and crypto/hybrid.py *)

(** Modelled from the spec: [generate_ephemeral_keypair] of
    [crypto/ecdh.py], a fresh P-256 key pair from the random source. *)
Definition generate_ephemeral_keypair : M (PrivateKey * PublicKey) :=
  r <- draw ;;
  log EvGenerateKeypair ;;;
  ret (keygen r, public_key (keygen r)).

(** Modelled from the spec: [OBBEncryptor.encrypt] of [crypto/hybrid.py].
    A fresh ephemeral key pair, the ciphertext for the recipient, and the
    public half of the ephemeral pair; the private half is dropped. *)
Definition OBBEncryptor_encrypt (plaintext : bytes)
    (recipient_public_key : PublicKey) : M (bytes * PublicKey) :=
  '(ephemeral_private, ephemeral_public) <- generate_ephemeral_keypair ;;
  log (EvEncrypt plaintext) ;;;
  ret (hybrid_seal ephemeral_private recipient_public_key plaintext,
       ephemeral_public).

(** Modelled from the spec: [OBBEncryptor.decrypt] of [crypto/hybrid.py],
    with the single error [DecryptionError]. *)
Definition OBBEncryptor_decrypt (ciphertext : bytes)
    (ephemeral_public_key : PublicKey) (own_private_key : PrivateKey)
  : M bytes :=
  log (EvDecrypt ciphertext) ;;;
  match hybrid_open own_private_key ephemeral_public_key ciphertext with
  | Some plaintext => ret plaintext
  | None => raise DecryptionError
  end.

(** Modelled from the spec: [OBBSigner.sign] of [crypto/hybrid.py]. *)
Definition OBBSigner_sign (data : bytes) (signer_private_key : PrivateKey)
  : M string :=
  nonce <- draw ;;
  log (EvSign data) ;;;
  ret (ecdsa_sign signer_private_key nonce data).

(** Modelled from the spec: [OBBSigner.verify] of [crypto/hybrid.py]:
    false on a signature that does not match, an error on a signature
    that does not decode. *)
Definition OBBSigner_verify (data : bytes) (signature : string)
    (signer_public_key : PublicKey) : M bool :=
  log (EvVerify data (ecdsa_verify signer_public_key data signature)) ;;;
  match ecdsa_verify signer_public_key data signature with
  | Some ok => ret ok
  | None => raise SignatureDecodeError
  end.

(** ** formats/obb_payload.py *)

Definition encrypt_payload (surface_group : SurfaceGroup)
    (platform_public_key : PublicKey) : M (bytes * PublicKey) :=
  let payload_json := SurfaceGroup_model_dump_json surface_group in
  OBBEncryptor_encrypt payload_json platform_public_key.

(** The dictionary [encrypted_data], which goes into the encrypted blob. *)
Definition encrypted_data_dict (encrypted_surfaces : list Surface) : json_dict :=
  mkJsonDict None None None None None None None None None
    (Some (map Surface_model_dump encrypted_surfaces)).

(** The dictionary [payload] with [encrypted_surfaces_data] set. *)
Definition selective_payload (surface_group : SurfaceGroup)
    (encrypted_surfaces_data : option string) : json_dict :=
  mkJsonDict
    (Some "selective")
    (Some (map Surface_model_dump (get_public_surfaces surface_group)))
    (Some (map surface_number (get_redacted_surfaces surface_group)))
    encrypted_surfaces_data
    (Some (map Some (wavelengths_nm surface_group)))
    (Some (primary_wavelength_index surface_group))
    (stop_surface surface_group)
    (Some (FieldType_value (field_type surface_group)))
    (Some (Some (max_field surface_group)))
    None.

Definition encrypt_payload_selective (surface_group : SurfaceGroup)
    (platform_public_key : PublicKey) : M (json_dict * PublicKey) :=
  let encrypted_surfaces := get_encrypted_surfaces surface_group in
  match encrypted_surfaces with
  | _ :: _ =>
      let encrypted_data := encrypted_data_dict encrypted_surfaces in
      let encrypted_json := json_dumps (JObject encrypted_data) in
      '(encrypted_bytes, ephemeral_public) <-
        OBBEncryptor_encrypt encrypted_json platform_public_key ;;
      ret (selective_payload surface_group
             (Some (b64encode encrypted_bytes)),
           ephemeral_public)
  | [] =>
      '(_, ephemeral_public) <- generate_ephemeral_keypair ;;
      ret (selective_payload surface_group (Some EmptyString),
           ephemeral_public)
  end.

Definition decrypt_payload (encrypted_payload : bytes)
    (ephemeral_public_key : PublicKey) (platform_private_key : PrivateKey)
  : M SurfaceGroup :=
  payload_json <- OBBEncryptor_decrypt encrypted_payload
                    ephemeral_public_key platform_private_key ;;
  lift (SurfaceGroup_model_validate_json payload_json).

(** The keyword arguments of the placeholder of a redacted surface. *)
Definition redacted_kwargs (idx : Z) : surface_kwargs :=
  mkSurfaceKwargs (Some idx) (Some "standard") None None None None None
    None None None None None (Some "redacted")
    [("comment", "Surface " ++ str_of_int idx ++ " (redacted)")%string].

Definition decrypt_payload_selective (payload_dict : json_dict)
    (ephemeral_public_key : PublicKey) (platform_private_key : PrivateKey)
  : M SurfaceGroup :=
  public_surfaces <-
    lift (omap Surface_model_validate
            (get (jd_public_surfaces payload_dict) [])) ;;
  let redacted_indices := get (jd_redacted_surface_indices payload_dict) [] in
  let encrypted_data_b64 :=
    get (jd_encrypted_surfaces_data payload_dict) EmptyString in
  encrypted_surfaces <-
    match encrypted_data_b64 with
    | EmptyString => ret []
    | String _ _ =>
        encrypted_data_bytes <-
          match b64decode encrypted_data_b64 with
          | Some b => ret b
          | None => raise Base64Error
          end ;;
        decrypted_json <- OBBEncryptor_decrypt encrypted_data_bytes
                            ephemeral_public_key platform_private_key ;;
        encrypted_data <-
          match json_loads decrypted_json with
          | JsonOk (JObject d) => ret d
          | JsonOk JOther => raise AttributeError
          | JsonDecodeFailed => raise JSONDecodeError
          | JsonNotUnicode => raise UnicodeDecodeError
          | JsonTooDeep => raise RecursionError
          | JsonBadNumber => raise ValueError
          end ;;
        lift (omap Surface_model_validate
                (get (jd_surfaces encrypted_data) []))
    end ;;
  redacted_surfaces <-
    lift (omap (fun idx => Surface_init (redacted_kwargs idx))
            redacted_indices) ;;
  let all_surfaces :=
    sort_by surface_number
      (public_surfaces ++ encrypted_surfaces ++ redacted_surfaces) in
  lift (SurfaceGroup_init all_surfaces
          (mkGroupKwargs
             (jd_stop_surface payload_dict)
             (Some (get (jd_wavelengths_nm payload_dict) [Some float_550]))
             (Some (get (jd_primary_wavelength_index payload_dict) 0))
             (Some (jd_field_type payload_dict))
             (Some (match jd_max_field payload_dict with
                    | Some x => x
                    | None => None
                    end)))).

Definition sign_payload (encrypted_payload : bytes)
    (vendor_private_key : PrivateKey) : M string :=
  OBBSigner_sign encrypted_payload vendor_private_key.

Definition verify_payload_signature (encrypted_payload : bytes)
    (signature_b64 : string) (vendor_public_key : PublicKey) : M bool :=
  OBBSigner_verify encrypted_payload signature_b64 vendor_public_key.

(** ** serialization/binary.py *)

(** Modelled from the spec: [BinaryWriter.write_magic] of
    [serialization/binary.py].  The writer emits the magic, then the
    header behind its length as an unsigned 32-bit little-endian integer,
    then the payload. *)
Definition write_magic (stream : string) (magic : bytes) : M unit :=
  file_write stream magic.

(** Modelled from the spec: [BinaryWriter.write_length_prefixed] of
    [serialization/binary.py]; a length that does not fit 32 bits is the
    error of [struct.pack]. *)
Definition write_length_prefixed (stream : string) (data : bytes) : M unit :=
  if (4294967296 <=? N.of_nat (List.length data))%N then raise StructError
  else
    file_write stream (u32_le (N.of_nat (List.length data))) ;;;
    file_write stream data.

(** Modelled from the spec: [BinaryWriter.write_bytes] of
    [serialization/binary.py]. *)
Definition write_bytes (stream : string) (data : bytes) : M unit :=
  file_write stream data.

(** Modelled from the spec: [BinaryReader.read_and_verify_magic] of
    [serialization/binary.py], which compares the first bytes with the
    expected magic. *)
Definition read_and_verify_magic (f : handle) (expected : bytes)
  : M (bool * handle) :=
  '(magic, f) <- file_read f (Some (List.length expected)) ;;
  ret (bytes_eqb magic expected, f).

(** Modelled from the spec: [BinaryReader.read_length_prefixed] of
    [serialization/binary.py]; the container is malformed when fewer bytes
    remain than the length prefix needs or declares. *)
Definition read_length_prefixed (f : handle) : M (bytes * handle) :=
  '(length_bytes, f) <- file_read f (Some 4%nat) ;;
  if (List.length length_bytes <? 4)%nat then raise InvalidOBBFileError
  else
    let n := N.to_nat (u32_of_le length_bytes) in
    '(data, f) <- file_read f (Some n) ;;
    if (List.length data <? n)%nat then raise InvalidOBBFileError
    else ret (data, f).

(** Modelled from the spec: [BinaryReader.read_rest] of
    [serialization/binary.py]; the payload is everything behind the
    header. *)
Definition read_rest (f : handle) : M (bytes * handle) :=
  file_read f None.

(** ** formats/obb_header.py *)

(** Modelled from the spec: [build_header] of [formats/obb_header.py];
    the header carries the metadata and the ephemeral public key. *)
Definition build_header (metadata : OBBMetadata)
    (ephemeral_public_key : PublicKey) : OBBHeader PublicKey :=
  mkOBBHeader metadata ephemeral_public_key.

(** Modelled from the spec: [deserialize_header] of
    [formats/obb_header.py] as the readers call it; bytes that are not a
    header are a malformed file. *)
Definition deserialize_header_or_raise (header_bytes : bytes)
  : M (OBBHeader PublicKey) :=
  match deserialize_header header_bytes with
  | Some header => ret header
  | None => raise InvalidOBBFileError
  end.

(** Modelled from the spec: [extract_metadata] of
    [formats/obb_header.py]. *)
Definition extract_metadata (header : OBBHeader PublicKey) : OBBMetadata :=
  h_metadata header.

(** Modelled from the spec: [extract_ephemeral_key] of
    [formats/obb_header.py]. *)
Definition extract_ephemeral_key (header : OBBHeader PublicKey) : PublicKey :=
  h_ephemeral_public_key header.

(** ** formats/obb_file.py: [OBBWriter] *)

(** The writers assign [signature] and [created_at] of the caller's
    metadata object; they return that object here.  The stream is the
    file at [stream], open for writing. *)
Definition _write_to_stream (stream : string)
    (surface_group : SurfaceGroup) (metadata : OBBMetadata)
    (vendor_private_key : PrivateKey) (platform_public_key : PublicKey)
  : M OBBMetadata :=
  '(encrypted_payload, ephemeral_public) <-
    encrypt_payload surface_group platform_public_key ;;
  signature <- sign_payload encrypted_payload vendor_private_key ;;
  now <- utcnow ;;
  let metadata := stamp metadata signature now in
  let header := build_header metadata ephemeral_public in
  let header_bytes := serialize_header header in
  write_magic stream OBB_MAGIC ;;;
  write_length_prefixed stream header_bytes ;;;
  write_bytes stream encrypted_payload ;;;
  ret metadata.

(** [OBBWriter.write]; directories are not modelled, so the [mkdir] of
    the parent has no counterpart. *)
Definition write (output_path : string)
    (surface_group : SurfaceGroup) (metadata : OBBMetadata)
    (vendor_private_key : PrivateKey) (platform_public_key : PublicKey)
  : M OBBMetadata :=
  open_wb output_path ;;;
  _write_to_stream output_path surface_group metadata
    vendor_private_key platform_public_key.

Definition _write_selective_to_stream (stream : string)
    (surface_group : SurfaceGroup) (metadata : OBBMetadata)
    (vendor_private_key : PrivateKey) (platform_public_key : PublicKey)
  : M OBBMetadata :=
  '(payload_dict, ephemeral_public) <-
    encrypt_payload_selective surface_group platform_public_key ;;
  let payload_bytes := json_dumps (JObject payload_dict) in
  signature <- sign_payload payload_bytes vendor_private_key ;;
  now <- utcnow ;;
  let metadata := stamp metadata signature now in
  let header := build_header metadata ephemeral_public in
  let header_bytes := serialize_header header in
  write_magic stream OBB_MAGIC ;;;
  write_length_prefixed stream header_bytes ;;;
  write_bytes stream payload_bytes ;;;
  ret metadata.

Definition write_selective (output_path : string)
    (surface_group : SurfaceGroup) (metadata : OBBMetadata)
    (vendor_private_key : PrivateKey) (platform_public_key : PublicKey)
  : M OBBMetadata :=
  open_wb output_path ;;;
  _write_selective_to_stream output_path surface_group metadata
    vendor_private_key platform_public_key.

(** ** formats/obb_file.py: [OBBReader] *)

Definition read_metadata (path : string) : M OBBMetadata :=
  f <- open_rb path ;;
  '(ok, f) <- read_and_verify_magic f OBB_MAGIC ;;
  if negb ok then raise InvalidMagicBytesError
  else
    '(header_bytes, f) <- read_length_prefixed f ;;
    header <- deserialize_header_or_raise header_bytes ;;
    ret (extract_metadata header).

(** The [with open(path, "rb") as f:] block of [read_and_decrypt],
    [read_and_decrypt_selective] and [read], which is the same text in the
    three: it returns the header and the payload bytes. *)
Definition read_container (path : string)
  : M (OBBHeader PublicKey * bytes) :=
  f <- open_rb path ;;
  '(ok, f) <- read_and_verify_magic f OBB_MAGIC ;;
  if negb ok then raise InvalidMagicBytesError
  else
    '(header_bytes, f) <- read_length_prefixed f ;;
    header <- deserialize_header_or_raise header_bytes ;;
    '(payload, f) <- read_rest f ;;
    ret (header, payload).

(** The signature check of the three readers, which is the same text in
    the three: [if verify_signature:], [if not
    verify_payload_signature(payload, metadata.signature,
    vendor_public_key): raise InvalidSignatureError()]. *)
Definition check_signature (verify_signature : bool) (payload : bytes)
    (metadata : OBBMetadata) (vendor_public_key : PublicKey) : M unit :=
  if verify_signature then
    ok <- verify_payload_signature payload (signature metadata)
            vendor_public_key ;;
    if negb ok then raise InvalidSignatureError else ret tt
  else ret tt.

Definition read_and_decrypt (path : string)
    (platform_private_key : PrivateKey) (vendor_public_key : PublicKey)
    (verify_signature : bool) : M (OBBMetadata * SurfaceGroup) :=
  '(header, encrypted_payload) <- read_container path ;;
  let metadata := extract_metadata header in
  let ephemeral_public := extract_ephemeral_key header in
  check_signature verify_signature encrypted_payload metadata
    vendor_public_key ;;;
  surface_group <- decrypt_payload encrypted_payload ephemeral_public
                     platform_private_key ;;
  ret (metadata, surface_group).

(** [json.loads(payload_bytes.decode("utf-8"))] *)
Definition json_loads_or_raise (data : bytes) : M json :=
  match json_loads data with
  | JsonOk v => ret v
  | JsonDecodeFailed => raise JSONDecodeError
  | JsonNotUnicode => raise UnicodeDecodeError
  | JsonTooDeep => raise RecursionError
  | JsonBadNumber => raise ValueError
  end.

Definition read_and_decrypt_selective (path : string)
    (platform_private_key : PrivateKey) (vendor_public_key : PublicKey)
    (verify_signature : bool) : M (OBBMetadata * SurfaceGroup) :=
  '(header, payload_bytes) <- read_container path ;;
  let metadata := extract_metadata header in
  let ephemeral_public := extract_ephemeral_key header in
  check_signature verify_signature payload_bytes metadata
    vendor_public_key ;;;
  payload <- json_loads_or_raise payload_bytes ;;
  surface_group <-
    match payload with
    | JObject payload_dict =>
        decrypt_payload_selective payload_dict ephemeral_public
          platform_private_key
    | JOther => raise AttributeError
    end ;;
  ret (metadata, surface_group).

(** [isinstance(payload_dict, dict) and
    payload_dict.get("encryption_mode") == "selective"] *)
Definition is_selective (payload : json) : bool :=
  match payload with
  | JObject d =>
      match jd_encryption_mode d with
      | Some mode => String.eqb mode "selective"
      | None => false
      end
  | JOther => false
  end.

Definition read (path : string)
    (platform_private_key : PrivateKey) (vendor_public_key : PublicKey)
    (verify_signature : bool) : M (OBBMetadata * SurfaceGroup) :=
  '(header, payload_bytes) <- read_container path ;;
  let metadata := extract_metadata header in
  let ephemeral_public := extract_ephemeral_key header in
  check_signature verify_signature payload_bytes metadata
    vendor_public_key ;;;
  surface_group <-
    try_except
      (payload <- json_loads_or_raise payload_bytes ;;
       match payload with
       | JObject payload_dict =>
           if is_selective payload then
             decrypt_payload_selective payload_dict ephemeral_public
               platform_private_key
           else
             decrypt_payload payload_bytes ephemeral_public
               platform_private_key
       | JOther =>
           decrypt_payload payload_bytes ephemeral_public
             platform_private_key
       end)
      (fun e =>
         match e with
         | JSONDecodeError | UnicodeDecodeError =>
             decrypt_payload payload_bytes ephemeral_public
               platform_private_key
         | _ => raise e
         end) ;;
  ret (metadata, surface_group).

Definition is_valid_obb_file (path : string) : M bool :=
  try_except
    (f <- open_rb path ;;
     '(magic, _) <- file_read f (Some (List.length OBB_MAGIC)) ;;
     ret (bytes_eqb magic OBB_MAGIC))
    (fun _ => ret false).

End Codec.

(** * The vocabulary of the statements *)

Section Vocabulary.

Context {E : Externals}.

(** The surface with every field but [surface_number] and [visibility] at
    its default. *)
Definition redacted_placeholder (idx : Z) : Surface :=
  mkSurface idx STANDARD Float.inf Float.zero Float.zero Float.zero None None
    Float.zero Float.zero Float.zero Float.zero REDACTED.

(** A selective payload that lists surface 4 as redacted and holds nothing
    else. *)
Definition payload_redacted_4 : json_dict :=
  mkJsonDict (Some "selective") (Some []) (Some [4]) (Some EmptyString)
    (Some [Some float_550]) (Some 0) None (Some "angle")
    (Some (Some Float.zero)) None.

(** The world after some more calls were recorded. *)
Definition with_trace (new : list event) (w : world) : world :=
  mkWorld (w_fs w) (w_random w) (w_drawn w) (w_now w) (new ++ w_trace w).

(** The bytes of a container with a given header and payload. *)
Definition container_bytes (header_bytes payload : bytes) : bytes :=
  OBB_MAGIC ++ u32_le (N.of_nat (List.length header_bytes))
    ++ header_bytes ++ payload.

(** The calls of the [with] block of a reader on a container. *)
Definition read_trace (path : string) (header_bytes : bytes) : list event :=
  [EvFileRead path (Some (List.length header_bytes));
   EvFileRead path (Some 4%nat);
   EvFileRead path (Some (List.length OBB_MAGIC));
   EvOpen path].

(** The value of [encrypted_surfaces_data] that the selective writer
    computes when the ephemeral private key is [eph]. *)
Definition encrypted_blob_b64 (surface_group : SurfaceGroup)
    (eph : PrivateKey) (platform_public_key : PublicKey) : string :=
  match get_encrypted_surfaces surface_group with
  | [] => EmptyString
  | _ :: _ =>
      b64encode
        (hybrid_seal eph platform_public_key
           (json_dumps (JObject (encrypted_data_dict
                                   (get_encrypted_surfaces surface_group)))))
  end.

(** Two worlds with the same random source and clock, the second having
    drawn [n] numbers more. *)
Definition advanced (n : nat) (w w' : world) : Prop :=
  w_random w' = w_random w /\ w_drawn w' = (n + w_drawn w)%nat /\
  w_now w' = w_now w.

(** The payload sections that the two writers produce when the ephemeral
    private key is [eph]. *)
Definition selective_payload_bytes (surface_group : SurfaceGroup)
    (eph : PrivateKey) (platform_public_key : PublicKey) : bytes :=
  json_dumps (JObject (selective_payload surface_group
    (Some (encrypted_blob_b64 surface_group eph platform_public_key)))).

Definition full_payload_bytes (surface_group : SurfaceGroup)
    (eph : PrivateKey) (platform_public_key : PublicKey) : bytes :=
  hybrid_seal eph platform_public_key
    (SurfaceGroup_model_dump_json surface_group).

(** The state of a file that a writer produced: the metadata it stamped,
    a header that fits its length prefix, and the container in the file. *)
Definition written_container (w w' : world) (path : string)
    (metadata written : OBBMetadata) (vendor_private_key : PrivateKey)
    (payload : bytes) : Prop :=
  let eph := keygen (w_random w (w_drawn w)) in
  let nonce := w_random w (S (w_drawn w)) in
  let header_bytes :=
    serialize_header (build_header written (public_key eph)) in
  written = stamp metadata (ecdsa_sign vendor_private_key nonce payload)
              (w_now w) /\
  (N.of_nat (List.length header_bytes) < 4294967296)%N /\
  w_fs w' path = Regular (container_bytes header_bytes payload).

(** A file that can be opened for writing. *)
Definition writable (f : file) : Prop :=
  f = Missing \/ exists content, f = Regular content.

(** The metadata that the selective writer stamps in the world [w]: the
    caller's metadata with the signature of the payload and the time. *)
Definition selective_written (metadata : OBBMetadata)
    (vendor_private_key : PrivateKey) (surface_group : SurfaceGroup)
    (platform_public_key : PublicKey) (w : world) : OBBMetadata :=
  stamp metadata
    (ecdsa_sign vendor_private_key (w_random w (S (w_drawn w)))
       (selective_payload_bytes surface_group
          (keygen (w_random w (w_drawn w))) platform_public_key))
    (w_now w).

(** The header of a container written in the world [w] with the metadata
    [written] has fewer than 2^32 bytes. *)
Definition header_fits (written : OBBMetadata) (w : world) : Prop :=
  (N.of_nat (List.length
     (serialize_header
        (build_header written
           (public_key (keygen (w_random w (w_drawn w)))))))
   < 4294967296)%N.

(** The constraints that validation puts on a [Surface]: every surface
    that the constructor returned satisfies them. *)
Definition Surface_valid (s : Surface) : Prop :=
  0 <= surface_number s /\
  Float.geb (semi_diameter s) Float.zero = true /\
  parse_radius (Some (radius s)) = radius s.

(** The floats of a surface that pydantic's JSON mode writes as
    themselves rather than as null. *)
Definition Surface_json_safe (s : Surface) : Prop :=
  ser_json_float (serialize_radius (radius s))
    = Some (serialize_radius (radius s)) /\
  ser_json_float (thickness s) = Some (thickness s) /\
  ser_json_float (semi_diameter s) = Some (semi_diameter s) /\
  ser_json_float (conic s) = Some (conic s) /\
  ser_json_float (decenter_x s) = Some (decenter_x s) /\
  ser_json_float (decenter_y s) = Some (decenter_y s) /\
  ser_json_float (tilt_x s) = Some (tilt_x s) /\
  ser_json_float (tilt_y s) = Some (tilt_y s) /\
  Forall (fun kv : string * float => ser_json_float (snd kv) = Some (snd kv))
         (get (aspheric_coeffs s) []).

(** A surface whose floats are finite, but for the radius, which may be
    infinite. *)
Definition Surface_finite (s : Surface) : Prop :=
  radius s <> Float.nan /\
  Float.is_finite (thickness s) = true /\
  Float.is_finite (semi_diameter s) = true /\
  Float.is_finite (conic s) = true /\
  Float.is_finite (decenter_x s) = true /\
  Float.is_finite (decenter_y s) = true /\
  Float.is_finite (tilt_x s) = true /\
  Float.is_finite (tilt_y s) = true /\
  Forall (fun kv : string * float => Float.is_finite (snd kv) = true)
         (get (aspheric_coeffs s) []).

(** The order of two elements by their keys. *)
Definition key_le {A : Type} (key : A -> Z) (a b : A) : Prop :=
  key a <= key b.

(** What reading makes of a surface of the group that was written: itself
    when it is public or encrypted, the placeholder with its number when
    it is redacted. *)
Definition restore (s : Surface) : Surface :=
  match visibility s with
  | REDACTED => redacted_placeholder (surface_number s)
  | _ => s
  end.

(** The three lists of the payload, in the order in which the reader
    concatenates them. *)
Definition partitioned (g : SurfaceGroup) : list Surface :=
  get_public_surfaces g ++ get_encrypted_surfaces g ++ get_redacted_surfaces g.

(** The group that the selective reader returns for the group [g]. *)
Definition restored (g : SurfaceGroup) : SurfaceGroup :=
  mkSurfaceGroup (sort_by surface_number (map restore (partitioned g)))
    (stop_surface g) (wavelengths_nm g) (primary_wavelength_index g)
    (field_type g) (max_field g).

(** The constraints that validation puts on a [SurfaceGroup]. *)
Definition SurfaceGroup_valid (g : SurfaceGroup) : Prop :=
  surfaces g <> [] /\
  Forall Surface_valid (surfaces g) /\
  match stop_surface g with Some n => 0 <= n | None => True end /\
  wavelengths_nm g <> [] /\
  0 <= primary_wavelength_index g /\
  Float.geb (max_field g) Float.zero = true.

(** The surfaces that the selective writer dumps are written without loss
    by pydantic's JSON mode. *)
Definition SurfaceGroup_json_safe (g : SurfaceGroup) : Prop :=
  Forall (fun s => visibility s = REDACTED \/ Surface_json_safe s)
         (surfaces g).

(** A computation that changes the world by recording calls only. *)
Definition logs_only {A} (m : M A) : Prop :=
  forall w, exists new, snd (m w) = with_trace new w.

(** The file events. *)
Definition is_file_event (ev : event) : bool :=
  match ev with
  | EvOpen _ | EvFileRead _ _ | EvFileWrite _ _ => true
  | _ => false
  end.

(** The property of a reader: it reads the container; the first call into
    the cryptographic engine is the verification of the signature over the
    payload bytes of the container; a decryption is among the calls that
    follow only when the signature verified; and when it did not, the
    reader raises and nothing follows the verification. *)
Definition verifies_first {A} (reader : M A) (path : string)
    (vendor_public_key : PublicKey) (w : world) : Prop :=
  match fst (read_container path w) with
  | Raise e => reader w = (Raise e, snd (read_container path w))
  | Ok (header, payload) =>
      let r := ecdsa_verify vendor_public_key payload
                 (signature (extract_metadata header)) in
      exists rest,
        snd (reader w) =
          with_trace (rest ++ [EvVerify payload r])
                     (snd (read_container path w)) /\
        (forall ciphertext, In (EvDecrypt ciphertext) rest -> r = Some true) /\
        match r with
        | Some true => True
        | Some false =>
            rest = [] /\ fst (reader w) = Raise InvalidSignatureError
        | None => rest = [] /\ fst (reader w) = Raise SignatureDecodeError
        end
  end.

(** A result that raises nothing but exceptions in [P]. *)
Definition only_raises {A} (P : exn -> Prop) (x : outcome A) : Prop :=
  forall e, x = Raise e -> P e.

Definition is_validation_error (e : exn) : Prop := e = ValidationError.

Inductive payload_mode := Full | Selective | Unreadable.

(** The format of a payload, by what [json.loads] makes of its bytes:
    selective when they are the JSON text of an object whose
    [encryption_mode] is the string ["selective"]; full when they are the
    JSON text of anything else, or no JSON text ([JSONDecodeError]) or no
    UTF-8 text ([UnicodeDecodeError]); unreadable when [json.loads] raises
    another exception on them. *)
Definition payload_format (payload : bytes) : payload_mode :=
  match json_loads payload with
  | JsonOk (JObject d) =>
      match jd_encryption_mode d with
      | Some mode => if String.eqb mode "selective" then Selective else Full
      | None => Full
      end
  | JsonOk JOther => Full
  | JsonDecodeFailed | JsonNotUnicode => Full
  | JsonTooDeep | JsonBadNumber => Unreadable
  end.

(** The bytes [l] with the byte at index [i] replaced by [b]. *)
Definition replace_byte (i : nat) (b : byte) (l : bytes) : bytes :=
  firstn i l ++ b :: skipn (S i) l.

(** The offset of the payload section in the bytes of a container: behind
    the magic, the length prefix and the header. *)
Definition payload_offset (content : bytes) : nat :=
  (8 + N.to_nat (u32_of_le (firstn 4 (skipn 4 content))))%nat.

(** The two writers under one name. *)
Definition write_with (selective : bool) :=
  if selective then write_selective else write.

End Vocabulary.

Section FurtherVocabulary.

Context {E : Externals}.



(** The [try] statement of [read]: what it does with the payload behind
    the signature check. *)
Definition sniff_and_decrypt (payload_bytes : bytes)
    (ephemeral_public : PublicKey) (platform_private_key : PrivateKey)
  : M SurfaceGroup :=
  try_except
    (payload <- json_loads_or_raise payload_bytes ;;
     match payload with
     | JObject payload_dict =>
         if is_selective payload then
           decrypt_payload_selective payload_dict ephemeral_public
             platform_private_key
         else
           decrypt_payload payload_bytes ephemeral_public
             platform_private_key
     | JOther =>
         decrypt_payload payload_bytes ephemeral_public
           platform_private_key
     end)
    (fun e =>
       match e with
       | JSONDecodeError | UnicodeDecodeError =>
           decrypt_payload payload_bytes ephemeral_public
             platform_private_key
       | _ => raise e
       end).

End FurtherVocabulary.

(** A computation that changes the world by recording calls only, each of
    them among the [allowed] ones. *)
Definition records {A} (allowed : event -> bool) (m : M A) : Prop :=
  forall w, exists new,
    snd (m w) = with_trace new w /\ forallb allowed new = true.

(** The calls of a reader: file events, a verification, decryptions. *)
Definition is_reader_event (ev : event) : bool :=
  match ev with
  | EvOpen _ | EvFileRead _ _ | EvVerify _ _ | EvDecrypt _ => true
  | _ => false
  end.

(** The calls of a reader that does not verify. *)
Definition is_unverified_reader_event (ev : event) : bool :=
  match ev with
  | EvOpen _ | EvFileRead _ _ | EvDecrypt _ => true
  | _ => false
  end.

(** The group with every redacted surface replaced by its placeholder. *)
Definition blanked (g : SurfaceGroup) : SurfaceGroup :=
  mkSurfaceGroup (map restore (surfaces g)) (stop_surface g)
    (wavelengths_nm g) (primary_wavelength_index g) (field_type g)
    (max_field g).

(** * A concrete model of the externals

    A small instance of [Externals] on which the codec runs by
    computation: a private key is an integer and its public key is that
    integer plus 1000, the cipher prepends a tag byte, a signature is the
    text of the data it signs, and JSON values and
    headers are written in a binary format of tagged and length-prefixed
    fields; on two kinds of bytes that are no such text, [json_loads]
    raises what the interpreter raises on them.  It shows that the laws can hold together, and the examples
    below run the codec on it. *)

Module Toy.

(** A byte format of a type: a writer, and a reader that returns the value
    and the bytes behind it. *)
Record format (A : Type) := mkFormat {
  put : A -> bytes;
  take : bytes -> option (A * bytes)
}.

Arguments mkFormat {A} _ _.
Arguments put {A} _ _.
Arguments take {A} _ _.

Definition format_ok {A} (c : format A) : Prop :=
  forall a rest, take c (put c a ++ rest) = Some (a, rest).

Fixpoint put_positive (p : positive) : bytes :=
  match p with
  | xH => [x00]
  | xO p => x01 :: put_positive p
  | xI p => x02 :: put_positive p
  end.

Fixpoint take_positive (bs : bytes) : option (positive * bytes) :=
  match bs with
  | x00 :: rest => Some (xH, rest)
  | x01 :: rest =>
      match take_positive rest with
      | Some (p, rest) => Some (xO p, rest)
      | None => None
      end
  | x02 :: rest =>
      match take_positive rest with
      | Some (p, rest) => Some (xI p, rest)
      | None => None
      end
  | _ => None
  end.

Definition positive_format : format positive :=
  mkFormat put_positive take_positive.

Definition Z_format : format Z :=
  mkFormat
    (fun z => match z with
              | Z0 => [x00]
              | Zpos p => x01 :: put_positive p
              | Zneg p => x02 :: put_positive p
              end)
    (fun bs => match bs with
               | x00 :: rest => Some (Z0, rest)
               | x01 :: rest =>
                   match take_positive rest with
                   | Some (p, rest) => Some (Zpos p, rest)
                   | None => None
                   end
               | x02 :: rest =>
                   match take_positive rest with
                   | Some (p, rest) => Some (Zneg p, rest)
                   | None => None
                   end
               | _ => None
               end).

Definition bool_format : format bool :=
  mkFormat
    (fun b : bool => [if b then x01 else x00])
    (fun bs => match bs with
               | x00 :: rest => Some (false, rest)
               | x01 :: rest => Some (true, rest)
               | _ => None
               end).

(** A format from a format of another type and a pair of conversions. *)
Definition map_format {A B} (to : B -> A) (from : A -> B) (c : format A)
  : format B :=
  mkFormat
    (fun b => put c (to b))
    (fun bs => match take c bs with
               | Some (a, rest) => Some (from a, rest)
               | None => None
               end).

Definition nat_format : format nat := map_format Z.of_nat Z.to_nat Z_format.

Definition pair_format {A B} (ca : format A) (cb : format B)
  : format (A * B) :=
  mkFormat
    (fun ab => put ca (fst ab) ++ put cb (snd ab))
    (fun bs => match take ca bs with
               | Some (a, rest) =>
                   match take cb rest with
                   | Some (b, rest) => Some ((a, b), rest)
                   | None => None
                   end
               | None => None
               end).

Definition option_format {A} (c : format A) : format (option A) :=
  mkFormat
    (fun o => match o with
              | None => [x00]
              | Some a => x01 :: put c a
              end)
    (fun bs => match bs with
               | x00 :: rest => Some (None, rest)
               | x01 :: rest =>
                   match take c rest with
                   | Some (a, rest) => Some (Some a, rest)
                   | None => None
                   end
               | _ => None
               end).

Fixpoint take_n {A} (c : format A) (n : nat) (bs : bytes)
  : option (list A * bytes) :=
  match n with
  | O => Some ([], bs)
  | S n =>
      match take c bs with
      | Some (a, rest) =>
          match take_n c n rest with
          | Some (l, rest) => Some (a :: l, rest)
          | None => None
          end
      | None => None
      end
  end.

(** A list: its length, then its items. *)
Definition list_format {A} (c : format A) : format (list A) :=
  mkFormat
    (fun l => put nat_format (List.length l) ++ flat_map (put c) l)
    (fun bs => match take nat_format bs with
               | Some (n, rest) => take_n c n rest
               | None => None
               end).

Definition byte_format : format byte :=
  mkFormat (fun b => [b])
           (fun bs => match bs with
                      | b :: rest => Some (b, rest)
                      | [] => None
                      end).

Definition string_format : format string :=
  map_format list_byte_of_string string_of_list_byte (list_format byte_format).

(** A float: the tag of its class, then its sign, mantissa and exponent. *)
Definition float_format : format float :=
  map_format
    (fun x : float =>
       match x with
       | S754_zero s => (0, (s, (xH, 0)))
       | S754_infinity s => (1, (s, (xH, 0)))
       | S754_nan => (2, (false, (xH, 0)))
       | S754_finite s m e => (3, (s, (m, e)))
       end)
    (fun t : Z * (bool * (positive * Z)) =>
       let '(tag, (s, (m, e))) := t in
       if tag =? 0 then S754_zero s
       else if tag =? 1 then S754_infinity s
       else if tag =? 2 then S754_nan
       else S754_finite s m e)
    (pair_format Z_format
       (pair_format bool_format (pair_format positive_format Z_format))).

Definition jfloat_format : format (option float) := option_format float_format.

Definition field_format : format (option (option float)) :=
  option_format jfloat_format.

Definition surface_kwargs_format : format surface_kwargs :=
  map_format
    (fun kw =>
       (kw_surface_number kw, (kw_surface_type kw, (kw_radius kw,
       (kw_thickness kw, (kw_semi_diameter kw, (kw_conic kw,
       (kw_material kw, (kw_aspheric_coeffs kw, (kw_decenter_x kw,
       (kw_decenter_y kw, (kw_tilt_x kw, (kw_tilt_y kw,
       (kw_visibility kw, kw_extra kw))))))))))))))
    (fun t =>
       let '(a, (b, (c, (d, (e, (f, (g, (h, (i, (j, (k, (l, (m, n)))))))))))))
         := t in
       mkSurfaceKwargs a b c d e f g h i j k l m n)
    (pair_format (option_format Z_format)
    (pair_format (option_format string_format)
    (pair_format field_format
    (pair_format field_format
    (pair_format field_format
    (pair_format field_format
    (pair_format (option_format string_format)
    (pair_format
       (option_format (list_format (pair_format string_format jfloat_format)))
    (pair_format field_format
    (pair_format field_format
    (pair_format field_format
    (pair_format field_format
    (pair_format (option_format string_format)
       (list_format (pair_format string_format string_format))))))))))))))).

Definition json_dict_format : format json_dict :=
  map_format
    (fun d =>
       (jd_encryption_mode d, (jd_public_surfaces d,
       (jd_redacted_surface_indices d, (jd_encrypted_surfaces_data d,
       (jd_wavelengths_nm d, (jd_primary_wavelength_index d,
       (jd_stop_surface d, (jd_field_type d, (jd_max_field d,
        jd_surfaces d))))))))))
    (fun t =>
       let '(a, (b, (c, (d, (e, (f, (g, (h, (i, j))))))))) := t in
       mkJsonDict a b c d e f g h i j)
    (pair_format (option_format string_format)
    (pair_format (option_format (list_format surface_kwargs_format))
    (pair_format (option_format (list_format Z_format))
    (pair_format (option_format string_format)
    (pair_format (option_format (list_format jfloat_format))
    (pair_format (option_format Z_format)
    (pair_format (option_format Z_format)
    (pair_format (option_format string_format)
    (pair_format field_format
       (option_format (list_format surface_kwargs_format))))))))))).

Definition json_format : format json :=
  map_format
    (fun v => match v with
              | JObject d => Some d
              | JOther => None
              end)
    (fun o => match o with
              | Some d => JObject d
              | None => JOther
              end)
    (option_format json_dict_format).

Definition metadata_format : format OBBMetadata :=
  map_format
    (fun m =>
       (version m, (vendor_id m, (name m, (efl_mm m, (na m, (diameter_mm m,
       (spectral_range_nm m, (num_surfaces m, (created_at m, (signature m,
       (description m, part_number m))))))))))))
    (fun t =>
       let '(a, (b, (c, (d, (e, (f, (g, (h, (i, (j, (k, l))))))))))) := t in
       mkOBBMetadata a b c d e f g h i j k l)
    (pair_format string_format
    (pair_format string_format
    (pair_format string_format
    (pair_format float_format
    (pair_format float_format
    (pair_format float_format
    (pair_format (pair_format float_format float_format)
    (pair_format Z_format
    (pair_format (option_format Z_format)
    (pair_format string_format
    (pair_format (option_format string_format)
       (option_format string_format)))))))))))).

Definition header_format : format (OBBHeader Z) :=
  map_format
    (fun h => (h_metadata h, h_ephemeral_public_key h))
    (fun t => mkOBBHeader (fst t) (snd t))
    (pair_format metadata_format Z_format).

(** A reader of a whole byte string: the format must leave nothing. *)
Definition take_all {A} (c : format A) (bs : bytes) : option A :=
  match take c bs with
  | Some (a, []) => Some a
  | _ => None
  end.

(** Bytes that are [n] or more copies of the byte [b] and nothing
    else. *)
Definition is_run (b : byte) (n : N) (bs : bytes) : bool :=
  forallb (Byte.eqb b) bs && (n <=? N.of_nat (List.length bs))%N.

(** What [json.loads] does with bytes that are no JSON text of the
    codec: on 100000 or more opening brackets it raises [RecursionError]
    and on 5000 or more digits 1 a plain [ValueError], as the interpreter
    does; on other bytes it raises [JSONDecodeError]. *)
Definition json_loads_rejects (bs : bytes) : json_result :=
  if is_run x5b 100000 bs then JsonTooDeep
  else if is_run x31 5000 bs then JsonBadNumber
  else JsonDecodeFailed.

Definition externals : Externals := {|
  PrivateKey := Z;
  PublicKey := Z;
  public_key := fun k => k + 1000;
  keygen := fun r => r;
  hybrid_seal := fun _ _ plaintext => x2a :: plaintext;
  hybrid_open := fun _ _ ciphertext =>
    match ciphertext with
    | x2a :: plaintext => Some plaintext
    | _ => None
    end;
  ecdsa_sign := fun _ _ data => string_of_list_byte data;
  ecdsa_verify := fun _ data sig =>
    Some (String.eqb (string_of_list_byte data) sig);
  b64encode := string_of_list_byte;
  b64decode := fun s => Some (list_byte_of_string s);
  json_dumps := put json_format;
  json_loads := fun bs =>
    match take_all json_format bs with
    | Some v => JsonOk v
    | None => json_loads_rejects bs
    end;
  ser_json_float := Some;
  OBB_MAGIC := [x4f; x42; x42; x01];
  serialize_header := put header_format;
  deserialize_header := take_all header_format
|}.

End Toy.

(** ** A scenario on the concrete model *)

Module Scenario.

Definition float_25 : float := S754_finite false 7036874417766400 (-48).
Definition float_5 : float := S754_finite false 5629499534213120 (-50).
Definition float_minus_30 : float := S754_finite true 8444249301319680 (-48).

(** An object plane in clear, an encrypted lens surface, a redacted one
    and an image plane in clear. *)
Definition surface_0 : Surface :=
  mkSurface 0 STANDARD Float.inf Float.zero Float.zero Float.zero None None
    Float.zero Float.zero Float.zero Float.zero PUBLIC.

Definition surface_1 : Surface :=
  mkSurface 1 EVENASPH float_25 float_5 float_5 Float.zero (Some "N-BK7")
    (Some [("A4", float_5)]) Float.zero Float.zero Float.zero Float.zero
    ENCRYPTED.

Definition surface_2 : Surface :=
  mkSurface 2 STANDARD float_minus_30 float_5 float_5 Float.zero None None
    Float.zero Float.zero Float.zero Float.zero REDACTED.

Definition surface_3 : Surface :=
  mkSurface 3 STANDARD Float.inf Float.zero Float.zero Float.zero None None
    Float.zero Float.zero Float.zero Float.zero PUBLIC.

Definition mixed_group : SurfaceGroup :=
  mkSurfaceGroup [surface_0; surface_1; surface_2; surface_3] (Some 1)
    [float_587_56] 0 ANGLE Float.zero.

(** A group with public surfaces only. *)
Definition public_group : SurfaceGroup :=
  mkSurfaceGroup [surface_0; surface_3] None [float_587_56] 0 ANGLE
    Float.zero.

Definition lens_metadata : OBBMetadata :=
  mkOBBMetadata "1.0" "test-vendor" "lens" float_25 Float.zero float_5
    (float_5, float_25) 4 None EmptyString None None.

Definition vendor_private_key : Z := 11.
Definition vendor_public_key : Z := 1011.
Definition platform_private_key : Z := 22.
Definition platform_public_key : Z := 1022.
Definition lens_path : string := "lens.obb".

(** An empty file system, a random source and a clock. *)
Definition world_0 : world :=
  mkWorld (fun _ => Missing) (fun n => 100 + Z.of_nat n) 0 1767225600 [].

(** The world after the selective writer wrote the mixed group, and the
    metadata that it stamped. *)
Definition world_selective : world :=
  snd (write_selective (E := Toy.externals) lens_path mixed_group
         lens_metadata vendor_private_key platform_public_key world_0).

Definition written_selective : OBBMetadata :=
  match fst (write_selective (E := Toy.externals) lens_path mixed_group
               lens_metadata vendor_private_key platform_public_key world_0)
  with
  | Ok m => m
  | Raise _ => lens_metadata
  end.

(** The bytes of the file that the selective writer wrote. *)
Definition content_selective : bytes :=
  match w_fs world_selective lens_path with
  | Regular content => content
  | _ => []
  end.

(** The file with its last byte replaced. *)
Definition last_index : nat := Nat.pred (List.length content_selective).

Definition replacement : byte :=
  if Byte.eqb (nth last_index content_selective x00) xff then x00 else xff.

Definition world_tampered : world :=
  mkWorld (fun _ => Regular (replace_byte last_index replacement
                               content_selective))
          (fun _ => 0) 0 0 [].

(** The header and the payload of the file. *)
Definition container_selective : OBBHeader Z * bytes :=
  match fst (read_container (E := Toy.externals) lens_path world_selective)
  with
  | Ok c => c
  | Raise _ => (mkOBBHeader lens_metadata 0, [])
  end.

(** A file that is not a container. *)
Definition world_not_obb : world :=
  mkWorld (fun _ => Regular [x4e; x4f; x54; x5f; x4f; x42; x42])
          (fun _ => 0) 0 0 [].

(** Keyword arguments without [visibility]. *)
Definition plain_kwargs : surface_kwargs :=
  mkSurfaceKwargs (Some 0) None None None None None None None None None None
    None None [].

End Scenario.

(** ** More of the scenario *)

Module Examples.

Import Scenario.


End Examples.

Module Locked.

Import Scenario.

(** A selective payload with one public surface and an encrypted blob
    that no key opens, and a container that holds it. *)
Definition payload_locked : json_dict :=
  mkJsonDict (Some "selective")
    (Some [Surface_model_dump (E := Toy.externals) surface_0]) (Some [])
    (Some "x") (Some [Some float_550]) (Some 0) None (Some "angle")
    (Some (Some Float.zero)) None.

Definition header_locked : OBBHeader Z := mkOBBHeader lens_metadata 0.

Definition world_locked : world :=
  mkWorld (fun _ => Regular
             (container_bytes (E := Toy.externals)
                (serialize_header (Externals := Toy.externals) header_locked)
                (json_dumps (Externals := Toy.externals)
                   (JObject payload_locked))))
          (fun _ => 0) 0 0 [].

End Locked.

Module Digits.

Import Scenario.

(** A container whose payload is 5000 digits 1: the JSON text of a number,
    on which [json.loads] raises a plain [ValueError], since the
    interpreter converts no integer literal of more than 4300 digits. *)
Definition payload_digits : bytes := repeat x31 (N.to_nat 5000).

Definition world_digits : world :=
  mkWorld (fun _ => Regular
             (container_bytes (E := Toy.externals)
                (serialize_header (Externals := Toy.externals)
                   Locked.header_locked)
                payload_digits))
          (fun _ => 0) 0 0 [].

End Digits.

(** * Properties *)

(** ** The radius sentinel *)

Lemma serialize_radius_cases (v : float) :
  (Float.geb (Float.abs v) INFINITY_SENTINEL = true /\
   (serialize_radius v = INFINITY_SENTINEL \/
    serialize_radius v = Float.neg INFINITY_SENTINEL)) \/
  (Float.geb (Float.abs v) INFINITY_SENTINEL = false /\
   serialize_radius v = v).
Proof.
  unfold serialize_radius.
  destruct (Float.geb (Float.abs v) INFINITY_SENTINEL) eqn:Hge.
  - left. split; [reflexivity|].
    rewrite !orb_true_r.
    destruct (Float.gtb v Float.zero); [left | right]; reflexivity.
  - right. split; [reflexivity|].
    destruct v as [s | [|] | | s m e]; try reflexivity; discriminate Hge.
Qed.

(** Writing a radius and reading it back validates it: the result is what
    the validator makes of the radius itself. *)
Lemma parse_serialize_radius (v : float) :
  parse_radius (Some (serialize_radius v)) = parse_radius (Some v).
Proof.
  destruct (serialize_radius_cases v) as [[Hge [H | H]] | [Hge H]];
    rewrite H; simpl; rewrite ?Hge; reflexivity.
Qed.

(** C4, as the code has it.  The serializer writes an infinite radius as
    the sentinel [1e99] with the sign of the radius; the validator reads
    the sentinel of either sign as plus infinity; so the round trip of a
    radius of plus infinity and of a radius of minus infinity are both plus
    infinity. *)
Theorem infinite_radius_round_trip :
  serialize_radius Float.inf = INFINITY_SENTINEL /\
  serialize_radius Float.neg_inf = Float.neg INFINITY_SENTINEL /\
  parse_radius (Some INFINITY_SENTINEL) = Float.inf /\
  parse_radius (Some (Float.neg INFINITY_SENTINEL)) = Float.inf /\
  parse_radius (Some (serialize_radius Float.inf)) = Float.inf /\
  parse_radius (Some (serialize_radius Float.neg_inf)) = Float.inf.
Proof.
  repeat split; vm_compute; reflexivity.
Qed.

(** C4 as stated fails: a radius of minus infinity does not come back as
    minus infinity. *)
Lemma negative_infinite_radius_not_preserved :
  parse_radius (Some (serialize_radius Float.neg_inf)) <> Float.neg_inf.
Proof.
  vm_compute. discriminate.
Qed.

(** ** Bytes *)

Lemma bytes_eqb_eq (a b : bytes) : bytes_eqb a b = true <-> a = b.
Proof.
  revert b. induction a as [|x a IH]; intros [|y b]; simpl;
    try (split; [discriminate | discriminate]); [tauto|].
  rewrite andb_true_iff, IH. split.
  - intros [Hxy ->]. apply Byte.byte_dec_bl in Hxy. congruence.
  - intros [= -> ->]. split; [apply Byte.byte_dec_lb|]; reflexivity.
Qed.

Lemma bytes_eqb_refl (a : bytes) : bytes_eqb a a = true.
Proof. apply bytes_eqb_eq. reflexivity. Qed.

Lemma bytes_eqb_neq (a b : bytes) : a <> b -> bytes_eqb a b = false.
Proof.
  intros Hne. destruct (bytes_eqb a b) eqn:Heq; [|reflexivity].
  apply bytes_eqb_eq in Heq. contradiction.
Qed.

(** ** The validity probe and the magic check *)

(** Unfolds the monad of effects down to functions on the world. *)
Ltac unfold_M :=
  unfold try_except, bind, ret, raise, lift, log, draw, utcnow,
         get_file, set_file in *.

Section Probe.

Context {E : Externals}.

(** C9.  [is_valid_obb_file] returns a boolean on every path and every
    state of the file system, it never raises; the boolean says whether
    the file exists, is readable and starts with the magic bytes; and the
    call does nothing but open the file and ask it once for as many bytes
    as the magic has. *)
Theorem is_valid_obb_file_total (path : string) (w : world) :
  exists new,
    is_valid_obb_file path w =
      (Ok (match w_fs w path with
           | Regular content =>
               bytes_eqb (firstn (List.length OBB_MAGIC) content) OBB_MAGIC
           | _ => false
           end),
       mkWorld (w_fs w) (w_random w) (w_drawn w) (w_now w)
               (new ++ w_trace w)) /\
    (new = [EvOpen path] \/
     new = [EvFileRead path (Some (List.length OBB_MAGIC)); EvOpen path]).
Proof.
  unfold is_valid_obb_file, open_rb, file_read. unfold_M. simpl.
  destruct (w_fs w path) as [| | |content]; simpl.
  - exists [EvOpen path]. split; [reflexivity | left; reflexivity].
  - exists [EvOpen path]. split; [reflexivity | left; reflexivity].
  - exists [EvFileRead path (Some (List.length OBB_MAGIC)); EvOpen path].
    split; [reflexivity | right; reflexivity].
  - exists [EvFileRead path (Some (List.length OBB_MAGIC)); EvOpen path].
    split; [reflexivity | right; reflexivity].
Qed.

(** C8.  On a file whose first four bytes are not the magic constant,
    [read_metadata] raises [InvalidMagicBytesError]. *)
Theorem read_metadata_rejects_wrong_magic
    (path : string) (w : world) (content : bytes) :
  magic_law E ->
  w_fs w path = Regular content ->
  firstn 4 content <> OBB_MAGIC ->
  fst (read_metadata path w) = Raise InvalidMagicBytesError.
Proof.
  intros Hmagic Hfile Hdiff.
  unfold read_metadata, read_and_verify_magic, open_rb, file_read.
  unfold_M. simpl. rewrite Hfile. simpl.
  rewrite Hmagic, (bytes_eqb_neq _ _ Hdiff). reflexivity.
Qed.

(** C7.  For a group without a surface of visibility ENCRYPTED,
    [encrypt_payload_selective] draws one number from the random source,
    generates the ephemeral key pair from it and returns its public half
    with a payload whose [encrypted_surfaces_data] is the empty string;
    the only call it records is the key generation, so the encryption
    engine is not called. *)
Theorem zero_encrypted_surfaces_path
    (surface_group : SurfaceGroup) (platform_public_key : PublicKey)
    (w : world) :
  Forall (fun s => visibility s <> ENCRYPTED) (surfaces surface_group) ->
  exists payload,
    encrypt_payload_selective surface_group platform_public_key w =
      (Ok (payload, public_key (keygen (w_random w (w_drawn w)))),
       mkWorld (w_fs w) (w_random w) (S (w_drawn w)) (w_now w)
               (EvGenerateKeypair :: w_trace w)) /\
    jd_encrypted_surfaces_data payload = Some EmptyString.
Proof.
  intros Hnone.
  assert (Hempty : get_encrypted_surfaces surface_group = []).
  { unfold get_encrypted_surfaces.
    induction Hnone as [|s l Hs _ IH]; simpl; [reflexivity|].
    destruct (visibility s); simpl; try assumption. congruence. }
  unfold encrypt_payload_selective. rewrite Hempty.
  unfold generate_ephemeral_keypair. unfold_M. simpl.
  eexists. split; reflexivity.
Qed.

End Probe.

(** ** Visibility and the partition of a group *)

Lemma SurfaceVisibility_eqb_eq (a b : SurfaceVisibility) :
  SurfaceVisibility_eqb a b = true <-> a = b.
Proof. destruct a, b; simpl; split; congruence. Qed.

Lemma Surface_init_visibility (kw : surface_kwargs) (s : Surface) :
  Surface_init kw = Ok s ->
  match kw_visibility kw with
  | None => visibility s = PUBLIC
  | Some v => SurfaceVisibility_of_value v = Some (visibility s)
  end.
Proof.
  unfold Surface_init, obind. intros H.
  repeat match type of H with
         | match ?x with _ => _ end = Ok _ =>
             let Hx := fresh "Hx" in destruct x eqn:Hx; try discriminate H
         end;
    injection H as <-; simpl;
    repeat match goal with
           | Hx : match ?x with _ => _ end = Ok _ |- _ =>
               destruct x; try discriminate Hx
           end;
    congruence.
Qed.

Section Partition.

Context {E : Externals}.

Lemma Surface_model_dump_visibility (s : Surface) :
  kw_visibility (Surface_model_dump s) =
    Some (SurfaceVisibility_value (visibility s)).
Proof. reflexivity. Qed.

(** What [encrypt_payload_selective] returns in every case: a payload with
    the public surfaces in clear and the numbers of the redacted ones. *)
Lemma encrypt_payload_selective_returns
    (surface_group : SurfaceGroup) (platform_public_key : PublicKey)
    (w : world) :
  exists data w',
    encrypt_payload_selective surface_group platform_public_key w =
      (Ok (selective_payload surface_group (Some data),
           public_key (keygen (w_random w (w_drawn w)))), w') /\
    w_fs w' = w_fs w /\ w_random w' = w_random w /\
    w_drawn w' = S (w_drawn w) /\ w_now w' = w_now w.
Proof.
  unfold encrypt_payload_selective, OBBEncryptor_encrypt,
    generate_ephemeral_keypair.
  unfold_M.
  destruct (get_encrypted_surfaces surface_group); simpl;
    eexists; eexists; (split; [reflexivity|]); simpl; auto.
Qed.

(** C10.  A surface constructed without the [visibility] argument has
    visibility PUBLIC.  For every group that holds it,
    [encrypt_payload_selective] returns a payload that has its dump in
    [public_surfaces]; the list [redacted_surface_indices] of that payload
    is the list of the numbers of surfaces of the group that are REDACTED,
    the surface not among them; whatever the call hands to the encryption
    engine is the JSON text of the dumps of surfaces of the group that are
    ENCRYPTED, the surface and its dump not among them; and
    [encrypted_surfaces_data] of the payload is empty when there are none,
    and the base64 text of the ciphertext of that JSON text when there are
    some. *)
Theorem default_visibility_is_public
    (kw : surface_kwargs) (s : Surface) (surface_group : SurfaceGroup)
    (platform_public_key : PublicKey) (w : world) :
  kw_visibility kw = None ->
  Surface_init kw = Ok s ->
  In s (surfaces surface_group) ->
  visibility s = PUBLIC /\
  (exists payload ephemeral_public w' public_surfaces,
     encrypt_payload_selective surface_group platform_public_key w =
       (Ok (payload, ephemeral_public), w') /\
     jd_public_surfaces payload = Some public_surfaces /\
     In (Surface_model_dump s) public_surfaces) /\
  ~ In s (get_encrypted_surfaces surface_group) /\
  ~ In (Surface_model_dump s)
       (map Surface_model_dump (get_encrypted_surfaces surface_group)) /\
  ~ In s (get_redacted_surfaces surface_group) /\
  (exists payload ephemeral_public w' new redacted encrypted,
     encrypt_payload_selective surface_group platform_public_key w =
       (Ok (payload, ephemeral_public), w') /\
     w_trace w' = new ++ w_trace w /\
     jd_redacted_surface_indices payload
       = Some (map surface_number redacted) /\
     incl redacted (surfaces surface_group) /\
     Forall (fun s' => visibility s' = REDACTED) redacted /\
     ~ In s redacted /\
     incl encrypted (surfaces surface_group) /\
     Forall (fun s' => visibility s' = ENCRYPTED) encrypted /\
     ~ In s encrypted /\
     ~ In (Surface_model_dump s) (map Surface_model_dump encrypted) /\
     (forall plaintext, In (EvEncrypt plaintext) new ->
        plaintext =
          json_dumps
            (JObject
               (mkJsonDict None None None None None None None None None
                  (Some (map Surface_model_dump encrypted))))) /\
     jd_encrypted_surfaces_data payload =
       Some (match encrypted with
             | [] => EmptyString
             | _ :: _ =>
                 b64encode
                   (hybrid_seal (keygen (w_random w (w_drawn w)))
                      platform_public_key
                      (json_dumps
                         (JObject
                            (mkJsonDict None None None None None None None
                               None None
                               (Some (map Surface_model_dump encrypted))))))
             end)).
Proof.
  intros Hkw Hinit Hin.
  pose proof (Surface_init_visibility kw s Hinit) as Hvis.
  rewrite Hkw in Hvis.
  assert (Hnot_enc : ~ In s (get_encrypted_surfaces surface_group)).
  { unfold get_encrypted_surfaces. rewrite filter_In, Hvis.
    intros [_ H]. discriminate H. }
  assert (Hnot_dump :
    ~ In (Surface_model_dump s)
         (map Surface_model_dump (get_encrypted_surfaces surface_group))).
  { unfold get_encrypted_surfaces. rewrite in_map_iff.
    intros (s' & Hdump & Hs'). apply filter_In in Hs' as [_ Hs'].
    apply SurfaceVisibility_eqb_eq in Hs'.
    apply (f_equal kw_visibility) in Hdump.
    rewrite !Surface_model_dump_visibility, Hvis, Hs' in Hdump.
    discriminate Hdump. }
  assert (Hnot_red : ~ In s (get_redacted_surfaces surface_group)).
  { unfold get_redacted_surfaces. rewrite filter_In, Hvis.
    intros [_ H]. discriminate H. }
  split; [exact Hvis|]. split; [|split; [|split; [|split]]];
    try assumption.
  - destruct (encrypt_payload_selective_returns surface_group
                platform_public_key w) as (data & w' & Hrun & _).
    do 4 eexists. split; [exact Hrun|]. split; [reflexivity|].
    apply in_map. unfold get_public_surfaces. apply filter_In.
    split; [exact Hin|]. rewrite Hvis. reflexivity.
  - assert (Hincl : forall v,
      incl (filter (fun s' => SurfaceVisibility_eqb (visibility s') v)
              (surfaces surface_group)) (surfaces surface_group)).
    { intros v s' Hs'. apply filter_In in Hs'. tauto. }
    assert (Hall : forall v,
      Forall (fun s' => visibility s' = v)
        (filter (fun s' => SurfaceVisibility_eqb (visibility s') v)
           (surfaces surface_group))).
    { intros v. apply Forall_forall. intros s' Hs'.
      apply filter_In in Hs' as [_ Hs'].
      apply SurfaceVisibility_eqb_eq, Hs'. }
    pose proof (Hincl ENCRYPTED) as Hie. pose proof (Hall ENCRYPTED) as Hae.
    fold (get_encrypted_surfaces surface_group) in Hie, Hae.
    unfold encrypt_payload_selective, OBBEncryptor_encrypt,
      generate_ephemeral_keypair, encrypted_data_dict.
    unfold_M.
    destruct (get_encrypted_surfaces surface_group) as [|s0 l0] eqn:Henc;
      cbn [fst snd].
    + eexists _, _, _, [EvGenerateKeypair],
        (get_redacted_surfaces surface_group), [].
      split; [reflexivity|]. split; [reflexivity|].
      split; [reflexivity|]. split; [apply Hincl|]. split; [apply Hall|].
      split; [exact Hnot_red|]. split; [intros x []|].
      split; [constructor|]. split; [intros []|]. split; [intros []|].
      split; [|reflexivity].
      intros p [Hp | []]. discriminate Hp.
    + eexists _, _, _, [EvEncrypt _; EvGenerateKeypair],
        (get_redacted_surfaces surface_group), (s0 :: l0).
      split; [reflexivity|]. split; [reflexivity|].
      split; [reflexivity|]. split; [apply Hincl|]. split; [apply Hall|].
      split; [exact Hnot_red|].
      split; [exact Hie|]. split; [exact Hae|].
      split; [exact Hnot_enc|]. split; [exact Hnot_dump|].
      split; [|reflexivity].
      intros p [Hp | [Hp | []]]; [|discriminate Hp].
      injection Hp as <-. reflexivity.
Qed.

End Partition.

(** ** The placeholder of a redacted surface *)

Lemma Surface_init_redacted_kwargs (idx : Z) :
  Surface_init (redacted_kwargs idx) =
    if idx <? 0 then Raise ValidationError else Ok (redacted_placeholder idx).
Proof.
  unfold Surface_init, redacted_kwargs. simpl.
  destruct (idx <? 0); reflexivity.
Qed.

(** The constructor does not look at keyword arguments that are not fields
    of the model. *)
Lemma Surface_init_ignores_extra (kw : surface_kwargs)
    (extra : list (string * string)) :
  Surface_init
    (mkSurfaceKwargs (kw_surface_number kw) (kw_surface_type kw)
       (kw_radius kw) (kw_thickness kw) (kw_semi_diameter kw) (kw_conic kw)
       (kw_material kw) (kw_aspheric_coeffs kw) (kw_decenter_x kw)
       (kw_decenter_y kw) (kw_tilt_x kw) (kw_tilt_y kw) (kw_visibility kw)
       extra) = Surface_init kw.
Proof. reflexivity. Qed.

(** C5 on the code.  From the payload [payload_redacted_4],
    [decrypt_payload_selective] builds one surface: number 4, type
    STANDARD, visibility REDACTED, every other field at its default.  The
    text that the code passes as [comment] is in no field of it. *)
Theorem redacted_placeholder_has_no_marker
    (E : Externals) (ephemeral_public_key : PublicKey)
    (platform_private_key : PrivateKey) (w : world) :
  decrypt_payload_selective payload_redacted_4 ephemeral_public_key
      platform_private_key w =
    (Ok (mkSurfaceGroup
           [mkSurface 4 STANDARD Float.inf Float.zero Float.zero Float.zero
              None None Float.zero Float.zero Float.zero Float.zero REDACTED]
           None [float_550] 0 ANGLE Float.zero),
     w).
Proof. reflexivity. Qed.

(** ** The framing of a container *)

Lemma firstn_length_app {A} (a b : list A) :
  firstn (List.length a) (a ++ b) = a.
Proof. induction a as [|x a IH]; simpl; [destruct b|]; congruence. Qed.

Lemma skipn_length_app {A} (a b : list A) :
  skipn (List.length a) (a ++ b) = b.
Proof. induction a as [|x a IH]; simpl; congruence. Qed.

Lemma to_N_byte_of_N (k : N) : Byte.to_N (byte_of_N k) = (k mod 256)%N.
Proof.
  unfold byte_of_N.
  destruct (Byte.of_N (k mod 256)) as [b|] eqn:Hb.
  - apply Byte.to_of_N. exact Hb.
  - apply Byte.of_N_None_iff in Hb.
    pose proof (N.mod_upper_bound k 256). lia.
Qed.

(** An unsigned 32-bit length is read back as it was written. *)
Lemma u32_of_le_u32_le (n : N) :
  (n < 4294967296)%N -> u32_of_le (u32_le n) = n.
Proof.
  intros Hn. unfold u32_le, u32_of_le. rewrite !to_N_byte_of_N.
  zify. Z.to_euclidean_division_equations. lia.
Qed.

Lemma u32_le_length (n : N) : List.length (u32_le n) = 4%nat.
Proof. reflexivity. Qed.

Arguments u32_le : simpl never.
Arguments u32_of_le : simpl never.

Section Framing.

Context {E : Externals}.

Lemma read_container_framed (path : string) (w : world)
    (header_bytes payload : bytes) :
  w_fs w path = Regular (container_bytes header_bytes payload) ->
  (N.of_nat (List.length header_bytes) < 4294967296)%N ->
  read_container path w =
    match deserialize_header header_bytes with
    | Some header =>
        (Ok (header, payload),
         with_trace (EvFileRead path None :: read_trace path header_bytes) w)
    | None =>
        (Raise InvalidOBBFileError,
         with_trace (read_trace path header_bytes) w)
    end.
Proof.
  intros Hfile Hfits.
  unfold read_container, read_and_verify_magic, read_length_prefixed,
    read_rest, deserialize_header_or_raise, open_rb, file_read.
  unfold_M. simpl. rewrite Hfile. unfold container_bytes. simpl.
  rewrite firstn_length_app, skipn_length_app, bytes_eqb_refl. simpl.
  set (n := N.of_nat (List.length header_bytes)) in *.
  fold (u32_le n). rewrite (u32_of_le_u32_le _ Hfits).
  subst n. rewrite Nat2N.id.
  rewrite firstn_length_app, skipn_length_app, Nat.ltb_irrefl.
  destruct (deserialize_header header_bytes); reflexivity.
Qed.

End Framing.

(** ** What the writers leave in the file *)

Lemma update_file_same (path : string) (f : file) (fs : string -> file) :
  update_file path f fs path = f.
Proof. unfold update_file. rewrite String.eqb_refl. reflexivity. Qed.

Lemma bind_run {A B} (m : M A) (k : A -> M B) (w w' : world) (a : A) :
  m w = (Ok a, w') -> bind m k w = k a w'.
Proof. intros H. unfold bind. rewrite H. reflexivity. Qed.

Lemma bind_raise {A B} (m : M A) (k : A -> M B) (w w' : world) (e : exn) :
  m w = (Raise e, w') -> bind m k w = (Raise e, w').
Proof. intros H. unfold bind. rewrite H. reflexivity. Qed.

Section Writers.

Context {E : Externals}.

Lemma open_wb_inv (path : string) (w w' : world) :
  open_wb path w = (Ok tt, w') ->
  (w_fs w' path = Regular [] \/ w_fs w' path = Broken) /\ advanced 0 w w'.
Proof.
  unfold open_wb. unfold_M. simpl.
  destruct (w_fs w path) eqn:Hfile; intros [= <-]; simpl;
    rewrite ?update_file_same; repeat split; auto.
Qed.

Lemma open_wb_run (path : string) (w : world) :
  writable (w_fs w path) ->
  exists w',
    open_wb path w = (Ok tt, w') /\
    w_fs w' path = Regular [] /\ advanced 0 w w'.
Proof.
  unfold open_wb, writable. unfold_M. simpl.
  intros [-> | [content ->]]; eexists; (split; [reflexivity|]); simpl;
    rewrite update_file_same; repeat split.
Qed.

(** The first write to a broken file fails. *)
Lemma write_frame_broken {A} (path : string) (header_bytes payload : bytes)
    (result : A) (w : world) :
  w_fs w path = Broken ->
  exists w',
    (write_magic path OBB_MAGIC ;;;
     write_length_prefixed path header_bytes ;;;
     write_bytes path payload ;;;
     ret result) w = (Raise OSError, w').
Proof.
  intros Hfile. unfold write_magic, write_length_prefixed, write_bytes.
  eexists. apply bind_raise.
  unfold file_write. unfold_M. simpl. rewrite Hfile. reflexivity.
Qed.

Lemma file_write_run (path : string) (data content : bytes) (w : world) :
  w_fs w path = Regular content ->
  exists w',
    file_write path data w = (Ok tt, w') /\
    w_fs w' path = Regular (content ++ data) /\ advanced 0 w w'.
Proof.
  intros Hfile. unfold file_write. unfold_M. simpl. rewrite Hfile.
  eexists. split; [reflexivity|]. simpl. rewrite update_file_same.
  repeat split.
Qed.

(** The three writes of a writer, on a file that was just opened. *)
Lemma write_frame_run {A} (path : string) (header_bytes payload : bytes)
    (result : A) (w : world) :
  w_fs w path = Regular [] ->
  let m := write_magic path OBB_MAGIC ;;;
           write_length_prefixed path header_bytes ;;;
           write_bytes path payload ;;;
           ret result in
  if (4294967296 <=? N.of_nat (List.length header_bytes))%N
  then exists w', m w = (Raise StructError, w')
  else exists w', m w = (Ok result, w') /\
                  w_fs w' path = Regular (container_bytes header_bytes payload).
Proof.
  intros Hfile m. subst m.
  unfold write_magic, write_length_prefixed, write_bytes.
  destruct (file_write_run path OBB_MAGIC [] w Hfile)
    as (w1 & Hrun1 & Hfile1 & _).
  rewrite (bind_run _ _ _ _ _ Hrun1).
  destruct (4294967296 <=? N.of_nat (List.length header_bytes))%N.
  - eexists. apply bind_raise. reflexivity.
  - destruct (file_write_run path
                (u32_le (N.of_nat (List.length header_bytes))) _ w1 Hfile1)
      as (w2 & Hrun2 & Hfile2 & _).
    destruct (file_write_run path header_bytes _ w2 Hfile2)
      as (w3 & Hrun3 & Hfile3 & _).
    destruct (file_write_run path payload _ w3 Hfile3)
      as (w4 & Hrun4 & Hfile4 & _).
    exists w4. split.
    + erewrite bind_run; [|erewrite bind_run; [exact Hrun3 | exact Hrun2]].
      erewrite bind_run; [|exact Hrun4]. reflexivity.
    + rewrite Hfile4. unfold container_bytes. simpl.
      rewrite <- !app_assoc. reflexivity.
Qed.

Lemma encrypt_payload_selective_run (surface_group : SurfaceGroup)
    (platform_public_key : PublicKey) (w : world) :
  let eph := keygen (w_random w (w_drawn w)) in
  exists w',
    encrypt_payload_selective surface_group platform_public_key w =
      (Ok (selective_payload surface_group
             (Some (encrypted_blob_b64 surface_group eph platform_public_key)),
           public_key eph), w') /\
    w_fs w' = w_fs w /\ advanced 1 w w'.
Proof.
  unfold encrypt_payload_selective, encrypted_blob_b64, OBBEncryptor_encrypt,
    generate_ephemeral_keypair.
  unfold_M.
  destruct (get_encrypted_surfaces surface_group); simpl;
    eexists; (split; [reflexivity|]); simpl; repeat split.
Qed.

Lemma encrypt_payload_run (surface_group : SurfaceGroup)
    (platform_public_key : PublicKey) (w : world) :
  let eph := keygen (w_random w (w_drawn w)) in
  exists w',
    encrypt_payload surface_group platform_public_key w =
      (Ok (hybrid_seal eph platform_public_key
             (SurfaceGroup_model_dump_json surface_group),
           public_key eph), w') /\
    w_fs w' = w_fs w /\ advanced 1 w w'.
Proof.
  unfold encrypt_payload, OBBEncryptor_encrypt, generate_ephemeral_keypair.
  unfold_M. simpl. eexists. split; [reflexivity|]. simpl. repeat split.
Qed.

Lemma sign_payload_run (data : bytes) (k : PrivateKey) (w : world) :
  exists w',
    sign_payload data k w =
      (Ok (ecdsa_sign k (w_random w (w_drawn w)) data), w') /\
    w_fs w' = w_fs w /\ advanced 1 w w'.
Proof.
  unfold sign_payload, OBBSigner_sign. unfold_M. simpl.
  eexists. split; [reflexivity|]. simpl. repeat split.
Qed.

End Writers.

Section WriterResults.

Context {E : Externals}.

Lemma write_selective_inv (path : string) (surface_group : SurfaceGroup)
    (metadata : OBBMetadata) (vendor_private_key : PrivateKey)
    (platform_public_key : PublicKey) (w : world) (written : OBBMetadata) :
  fst (write_selective path surface_group metadata vendor_private_key
         platform_public_key w) = Ok written ->
  written_container w
    (snd (write_selective path surface_group metadata vendor_private_key
            platform_public_key w))
    path metadata written vendor_private_key
    (selective_payload_bytes surface_group (keygen (w_random w (w_drawn w)))
       platform_public_key).
Proof.
  unfold write_selective. intros H.
  destruct (open_wb path w) as [[[]|e] w0] eqn:Hopen;
    [| rewrite (bind_raise _ _ _ _ _ Hopen) in H; discriminate H].
  rewrite (bind_run _ _ _ _ _ Hopen) in *.
  apply open_wb_inv in Hopen as (Hf0 & Hr0 & Hd0 & Hn0).
  unfold _write_selective_to_stream in *.
  destruct (encrypt_payload_selective_run surface_group platform_public_key w0)
    as (w1 & Hrun1 & Hf1 & Hr1 & Hd1 & Hn1).
  rewrite (bind_run _ _ _ _ _ Hrun1) in *.
  match type of H with
  | context [sign_payload ?d ?k] =>
      destruct (sign_payload_run d k w1) as (w2 & Hrun2 & Hf2 & Hr2 & Hd2 & Hn2)
  end.
  rewrite (bind_run _ _ _ _ _ Hrun2) in *.
  unfold bind at 1 in H. unfold bind at 1. unfold utcnow in *.
  assert (Hfile2 : w_fs w2 path = Regular []).
  { destruct Hf0 as [Hf0 | Hf0]; [congruence|].
    assert (Hbroken : w_fs w2 path = Broken) by congruence.
    match type of H with
    | context [write_length_prefixed _ ?hb ;;; write_bytes _ ?p ;;; ret ?r] =>
        destruct (write_frame_broken path hb p r w2 Hbroken) as (w3 & Hrun3)
    end.
    rewrite Hrun3 in H. discriminate H. }
  match type of H with
  | context [write_length_prefixed _ ?hb ;;; write_bytes _ ?p ;;; ret ?r] =>
      pose proof (write_frame_run path hb p r w2 Hfile2) as Hframe
  end.
  cbv zeta in Hframe.
  match type of Hframe with
  | if ?c then _ else _ => destruct c eqn:Hlen
  end.
  - destruct Hframe as (w3 & Hrun3). rewrite Hrun3 in H. discriminate H.
  - destruct Hframe as (w3 & Hrun3 & Hfile3). rewrite Hrun3 in *.
    simpl in H. injection H as H. simpl.
    assert (He : w_random w0 (w_drawn w0) = w_random w (w_drawn w))
      by (rewrite Hr0, Hd0; reflexivity).
    assert (Hs : w_random w1 (w_drawn w1) = w_random w (S (w_drawn w)))
      by (rewrite Hr1, Hd1, Hr0, Hd0; reflexivity).
    assert (Ht : w_now w2 = w_now w) by congruence.
    rewrite He, Hs, Ht in *. rewrite H in *.
    unfold written_container, selective_payload_bytes.
    split; [symmetry; exact H|]. split; [|exact Hfile3].
    apply N.leb_gt. exact Hlen.
Qed.

Lemma write_inv (path : string) (surface_group : SurfaceGroup)
    (metadata : OBBMetadata) (vendor_private_key : PrivateKey)
    (platform_public_key : PublicKey) (w : world) (written : OBBMetadata) :
  fst (write path surface_group metadata vendor_private_key
         platform_public_key w) = Ok written ->
  written_container w
    (snd (write path surface_group metadata vendor_private_key
            platform_public_key w))
    path metadata written vendor_private_key
    (full_payload_bytes surface_group (keygen (w_random w (w_drawn w)))
       platform_public_key).
Proof.
  unfold write. intros H.
  destruct (open_wb path w) as [[[]|e] w0] eqn:Hopen;
    [| rewrite (bind_raise _ _ _ _ _ Hopen) in H; discriminate H].
  rewrite (bind_run _ _ _ _ _ Hopen) in *.
  apply open_wb_inv in Hopen as (Hf0 & Hr0 & Hd0 & Hn0).
  unfold _write_to_stream in *.
  destruct (encrypt_payload_run surface_group platform_public_key w0)
    as (w1 & Hrun1 & Hf1 & Hr1 & Hd1 & Hn1).
  rewrite (bind_run _ _ _ _ _ Hrun1) in *.
  match type of H with
  | context [sign_payload ?d ?k] =>
      destruct (sign_payload_run d k w1) as (w2 & Hrun2 & Hf2 & Hr2 & Hd2 & Hn2)
  end.
  rewrite (bind_run _ _ _ _ _ Hrun2) in *.
  unfold bind at 1 in H. unfold bind at 1. unfold utcnow in *.
  assert (Hfile2 : w_fs w2 path = Regular []).
  { destruct Hf0 as [Hf0 | Hf0]; [congruence|].
    assert (Hbroken : w_fs w2 path = Broken) by congruence.
    match type of H with
    | context [write_length_prefixed _ ?hb ;;; write_bytes _ ?p ;;; ret ?r] =>
        destruct (write_frame_broken path hb p r w2 Hbroken) as (w3 & Hrun3)
    end.
    rewrite Hrun3 in H. discriminate H. }
  match type of H with
  | context [write_length_prefixed _ ?hb ;;; write_bytes _ ?p ;;; ret ?r] =>
      pose proof (write_frame_run path hb p r w2 Hfile2) as Hframe
  end.
  cbv zeta in Hframe.
  match type of Hframe with
  | if ?c then _ else _ => destruct c eqn:Hlen
  end.
  - destruct Hframe as (w3 & Hrun3). rewrite Hrun3 in H. discriminate H.
  - destruct Hframe as (w3 & Hrun3 & Hfile3). rewrite Hrun3 in *.
    simpl in H. injection H as H. simpl.
    assert (He : w_random w0 (w_drawn w0) = w_random w (w_drawn w))
      by (rewrite Hr0, Hd0; reflexivity).
    assert (Hs : w_random w1 (w_drawn w1) = w_random w (S (w_drawn w)))
      by (rewrite Hr1, Hd1, Hr0, Hd0; reflexivity).
    assert (Ht : w_now w2 = w_now w) by congruence.
    rewrite He, Hs, Ht in *. rewrite H in *.
    unfold written_container, full_payload_bytes.
    split; [symmetry; exact H|]. split; [|exact Hfile3].
    apply N.leb_gt. exact Hlen.
Qed.

(** The selective writer returns when the file can be written and the
    header fits the 32-bit length prefix. *)
Lemma write_selective_returns (path : string) (surface_group : SurfaceGroup)
    (metadata : OBBMetadata) (vendor_private_key : PrivateKey)
    (platform_public_key : PublicKey) (w : world) :
  writable (w_fs w path) ->
  header_fits
    (selective_written metadata vendor_private_key surface_group
       platform_public_key w) w ->
  fst (write_selective path surface_group metadata vendor_private_key
         platform_public_key w)
  = Ok (selective_written metadata vendor_private_key surface_group
          platform_public_key w).
Proof.
  unfold writable, header_fits, selective_written.
  set (eph := keygen (w_random w (w_drawn w))).
  set (written :=
         stamp metadata
           (ecdsa_sign vendor_private_key (w_random w (S (w_drawn w)))
              (selective_payload_bytes surface_group eph platform_public_key))
           (w_now w)).
  intros Hfile Hfits. unfold write_selective.
  destruct (open_wb_run path w Hfile) as (w0 & Hopen & Hf0 & Hr0 & Hd0 & Hn0).
  rewrite (bind_run _ _ _ _ _ Hopen).
  unfold _write_selective_to_stream.
  destruct (encrypt_payload_selective_run surface_group platform_public_key w0)
    as (w1 & Hrun1 & Hf1 & Hr1 & Hd1 & Hn1).
  rewrite (bind_run _ _ _ _ _ Hrun1).
  match goal with
  | |- context [sign_payload ?d ?k] =>
      destruct (sign_payload_run d k w1) as (w2 & Hrun2 & Hf2 & Hr2 & Hd2 & Hn2)
  end.
  rewrite (bind_run _ _ _ _ _ Hrun2).
  unfold bind at 1. unfold utcnow.
  assert (Hfile2 : w_fs w2 path = Regular []) by congruence.
  assert (He : w_random w0 (w_drawn w0) = w_random w (w_drawn w))
    by (rewrite Hr0, Hd0; reflexivity).
  assert (Hs : w_random w1 (w_drawn w1) = w_random w (S (w_drawn w)))
    by (rewrite Hr1, Hd1, Hr0, Hd0; reflexivity).
  assert (Ht : w_now w2 = w_now w) by congruence.
  rewrite He, Hs, Ht.
  fold eph. fold (selective_payload_bytes surface_group eph platform_public_key).
  fold written.
  pose proof (write_frame_run path
                (serialize_header (build_header written (public_key eph)))
                (selective_payload_bytes surface_group eph platform_public_key)
                written w2 Hfile2) as Hframe.
  cbv zeta in Hframe. apply N.leb_gt in Hfits. rewrite Hfits in Hframe.
  destruct Hframe as (w3 & Hrun3 & _). rewrite Hrun3. reflexivity.
Qed.

End WriterResults.

(** ** Validation reads back what [model_dump] wrote *)

Lemma parse_radius_idempotent (v : option float) :
  parse_radius (Some (parse_radius v)) = parse_radius v.
Proof.
  destruct v as [v|]; [|reflexivity]. simpl.
  destruct (Float.geb (Float.abs v) INFINITY_SENTINEL) eqn:Hge;
    [reflexivity | rewrite Hge; reflexivity].
Qed.

Lemma Surface_init_valid (kw : surface_kwargs) (s : Surface) :
  Surface_init kw = Ok s -> Surface_valid s.
Proof.
  unfold Surface_init, obind, float_field_ge0. intros H.
  repeat match type of H with
         | match ?x with _ => _ end = Ok _ =>
             let Hx := fresh "Hx" in destruct x eqn:Hx; try discriminate H
         end.
  injection H as <-. unfold Surface_valid. simpl.
  split; [|split].
  - destruct (kw_surface_number kw) as [n|]; [|discriminate].
    destruct (n <? 0) eqn:Hn; [discriminate|].
    injection Hx as <-. apply Z.ltb_ge. exact Hn.
  - destruct (kw_semi_diameter kw) as [[x|]|]; try discriminate.
    + destruct (Float.geb x Float.zero) eqn:Hge; [|discriminate].
      congruence.
    + injection Hx2 as <-. reflexivity.
  - destruct (kw_radius kw) as [v|]; [apply parse_radius_idempotent|].
    reflexivity.
Qed.

Lemma SurfaceType_of_value_value (t : SurfaceType) :
  SurfaceType_of_value (SurfaceType_value t) = Some t.
Proof. destruct t; reflexivity. Qed.

Lemma SurfaceVisibility_of_value_value (v : SurfaceVisibility) :
  SurfaceVisibility_of_value (SurfaceVisibility_value v) = Some v.
Proof. destruct v; reflexivity. Qed.

Lemma FieldType_of_value_value (t : FieldType) :
  FieldType_of_value (FieldType_value t) = Some t.
Proof. destruct t; reflexivity. Qed.

Lemma omap_map {A B C} (f : B -> outcome C) (g : A -> B) (h : A -> C)
    (l : list A) :
  Forall (fun a => f (g a) = Ok (h a)) l ->
  omap f (map g l) = Ok (map h l).
Proof.
  induction 1 as [|a l Ha _ IH]; simpl; [reflexivity|].
  rewrite Ha, IH. reflexivity.
Qed.

Section Validation.

Context {E : Externals}.

Lemma Surface_validate_dump (s : Surface) :
  Surface_valid s -> Surface_json_safe s ->
  Surface_model_validate (Surface_model_dump s) = Ok s.
Proof.
  intros (Hnum & Hsd & Hrad) (Sr & St & Ssd & Sc & Sdx & Sdy & Stx & Sty & Sa).
  unfold Surface_model_validate, Surface_init, Surface_model_dump. simpl.
  rewrite Sr, St, Ssd, Sc, Sdx, Sdy, Stx, Sty.
  rewrite SurfaceType_of_value_value, SurfaceVisibility_of_value_value.
  rewrite parse_serialize_radius, Hrad.
  apply Z.ltb_ge in Hnum. rewrite Hnum. simpl. rewrite Hsd. simpl.
  assert (Hcoeffs :
    match option_map (map (fun kv : string * float =>
                             (fst kv, ser_json_float (snd kv))))
                     (aspheric_coeffs s) with
    | Some l => obind (omap coeff_field l) (fun l => Ok (Some l))
    | None => Ok None
    end = Ok (aspheric_coeffs s)).
  { destruct (aspheric_coeffs s) as [l|]; simpl in *; [|reflexivity].
    rewrite (omap_map coeff_field _ (fun kv => kv)).
    - simpl. rewrite map_id. reflexivity.
    - eapply Forall_impl; [|exact Sa]. intros [k x] Hx. simpl in *.
      unfold coeff_field. simpl. rewrite Hx. reflexivity. }
  rewrite Hcoeffs. simpl. destruct s; reflexivity.
Qed.

(** A radius that is not NaN is written as a finite number. *)
Lemma serialize_radius_finite (v : float) :
  v <> Float.nan -> Float.is_finite (serialize_radius v) = true.
Proof.
  intros Hnan.
  destruct (serialize_radius_cases v) as [[_ [H | H]] | [Hge H]];
    rewrite H; try reflexivity.
  destruct v as [s | [|] | | s m e]; try reflexivity;
    try discriminate Hge.
  exfalso. apply Hnan. reflexivity.
Qed.

(** With a JSON mode that writes finite floats as themselves, every
    surface with finite floats is written without loss. *)
Lemma finite_surface_json_safe (s : Surface) :
  ser_float_law E -> Surface_finite s -> Surface_json_safe s.
Proof.
  intros Hlaw (Hr & Ht & Hsd & Hc & Hdx & Hdy & Htx & Hty & Ha).
  unfold Surface_json_safe.
  repeat split; try (apply Hlaw; assumption).
  - apply Hlaw, serialize_radius_finite, Hr.
  - eapply Forall_impl; [|exact Ha]. intros kv Hkv. apply Hlaw, Hkv.
Qed.

End Validation.

Lemma omap_length {A B} (f : A -> outcome B) (l : list A) (l' : list B) :
  omap f l = Ok l' -> List.length l' = List.length l.
Proof.
  revert l'. induction l as [|a l IH]; intros l' H; simpl in H.
  - injection H as <-. reflexivity.
  - destruct (f a) as [b|]; simpl in H; [|discriminate H].
    destruct (omap f l) as [bs|]; simpl in H; [|discriminate H].
    injection H as <-. simpl. f_equal. apply IH. reflexivity.
Qed.

(** Every group that the constructor returned satisfies the constraints. *)
Lemma SurfaceGroup_init_valid (l : list Surface) (kw : group_kwargs)
    (g : SurfaceGroup) :
  Forall Surface_valid l -> SurfaceGroup_init l kw = Ok g ->
  SurfaceGroup_valid g.
Proof.
  intros Hl H. unfold SurfaceGroup_init in H.
  destruct l as [|s l]; [discriminate H|]. cbn [obind] in H.
  match type of H with
  | obind ?x _ = _ => destruct x as [stop|] eqn:Hstop; [|discriminate H]
  end. cbn [obind] in H.
  match type of H with
  | obind ?x _ = _ => destruct x as [wl|] eqn:Hwl; [|discriminate H]
  end. cbn [obind] in H.
  match type of H with
  | obind ?x _ = _ => destruct x as [pwi|] eqn:Hpwi; [|discriminate H]
  end. cbn [obind] in H.
  match type of H with
  | obind ?x _ = _ => destruct x as [ft|] eqn:Hft; [|discriminate H]
  end. cbn [obind] in H.
  match type of H with
  | obind ?x _ = _ => destruct x as [mf|] eqn:Hmf; [|discriminate H]
  end. cbn [obind] in H.
  injection H as <-. unfold SurfaceGroup_valid. simpl.
  split; [discriminate|]. split; [exact Hl|]. split; [|split; [|split]].
  - destruct (gk_stop_surface kw) as [n|]; [|injection Hstop as <-; exact I].
    destruct (n <? 0) eqn:Hn; [discriminate Hstop|].
    injection Hstop as <-. apply Z.ltb_ge. exact Hn.
  - destruct (gk_wavelengths_nm kw) as [[|o l0]|]; try discriminate Hwl.
    + apply omap_length in Hwl.
      destruct wl; [simpl in Hwl; lia | discriminate].
    + injection Hwl as <-. discriminate.
  - destruct (gk_primary_wavelength_index kw) as [n|];
      [|injection Hpwi as <-; lia].
    destruct (n <? 0) eqn:Hn; [discriminate Hpwi|].
    injection Hpwi as <-. apply Z.ltb_ge. exact Hn.
  - unfold float_field_ge0 in Hmf.
    destruct (gk_max_field kw) as [[x|]|]; try discriminate Hmf.
    + destruct (Float.geb x Float.zero) eqn:Hge; [|discriminate Hmf].
      injection Hmf as <-. exact Hge.
    + injection Hmf as <-. reflexivity.
Qed.

(** ** Sorting by a key *)

Section Sorting.

Context {A : Type} (key : A -> Z).

Lemma insert_by_perm (x : A) (l : list A) :
  Permutation (x :: l) (insert_by key x l).
Proof.
  induction l as [|y l IH]; simpl; [reflexivity|].
  destruct (key x <=? key y); [reflexivity|].
  rewrite perm_swap. apply perm_skip. exact IH.
Qed.

Lemma sort_by_perm (l : list A) : Permutation l (sort_by key l).
Proof.
  induction l as [|x l IH]; simpl; [reflexivity|].
  rewrite <- insert_by_perm. apply perm_skip. exact IH.
Qed.

Lemma insert_by_sorted (x : A) (l : list A) :
  StronglySorted (key_le key) l -> StronglySorted (key_le key) (insert_by key x l).
Proof.
  induction 1 as [|y l Hl IH Hy]; simpl.
  - constructor; constructor.
  - destruct (key x <=? key y) eqn:Hxy.
    + apply Z.leb_le in Hxy. constructor; [constructor; assumption|].
      constructor; [exact Hxy|].
      eapply Forall_impl; [|exact Hy]. unfold key_le. intros; lia.
    + apply Z.leb_gt in Hxy. constructor; [exact IH|].
      apply (Permutation_Forall (insert_by_perm x l)).
      constructor; [unfold key_le; lia | exact Hy].
Qed.

Lemma sort_by_sorted (l : list A) : StronglySorted (key_le key) (sort_by key l).
Proof.
  induction l as [|x l IH]; simpl; [constructor|].
  apply insert_by_sorted. exact IH.
Qed.

(** A stable sort leaves a sorted list as it is. *)
Lemma sort_by_of_sorted (l : list A) :
  StronglySorted (key_le key) l -> sort_by key l = l.
Proof.
  induction 1 as [|x l Hl IH Hx]; simpl; [reflexivity|].
  rewrite IH. destruct l as [|y l]; [reflexivity|]. simpl.
  inversion Hx as [|? ? Hxy _]; subst. unfold key_le in Hxy.
  apply Z.leb_le in Hxy. rewrite Hxy. reflexivity.
Qed.

(** Two sorted lists with the same elements are the same list, when no two
    elements have the same key. *)
Lemma sorted_perm_unique (l1 l2 : list A) :
  StronglySorted (key_le key) l1 -> StronglySorted (key_le key) l2 ->
  Permutation l1 l2 -> NoDup (map key l1) -> l1 = l2.
Proof.
  intros H1. revert l2.
  induction H1 as [|a l1 Hl1 IH Ha]; intros l2 H2 Hperm Hnodup.
  - apply Permutation_nil in Hperm. congruence.
  - destruct l2 as [|b l2].
    { symmetry in Hperm. apply Permutation_nil in Hperm. discriminate. }
    inversion H2 as [|? ? Hl2 Hb]; subst.
    inversion Hnodup as [|? ? Hnotin Hnodup']; subst.
    assert (Hab : a = b).
    { assert (Hin_b : In b (a :: l1))
        by (apply (Permutation_in b (Permutation_sym Hperm)); left;
            reflexivity).
      destruct Hin_b as [Hin_b | Hin_b]; [exact Hin_b|].
      assert (Hin_a : In a (b :: l2))
        by (apply (Permutation_in a Hperm); left; reflexivity).
      destruct Hin_a as [Hin_a | Hin_a]; [symmetry; exact Hin_a|].
      rewrite Forall_forall in Ha, Hb.
      pose proof (Ha b Hin_b) as Hle1. pose proof (Hb a Hin_a) as Hle2.
      unfold key_le in *. exfalso. apply Hnotin.
      replace (key a) with (key b) by lia. apply in_map. exact Hin_b. }
    subst b. f_equal. apply IH; [exact Hl2 | | exact Hnodup'].
    apply Permutation_cons_inv in Hperm. exact Hperm.
Qed.

Lemma sort_by_perm_eq (l l' : list A) :
  Permutation l l' -> NoDup (map key l) -> sort_by key l' = sort_by key l.
Proof.
  intros Hperm Hnodup. symmetry.
  apply sorted_perm_unique; try apply sort_by_sorted.
  - rewrite <- !sort_by_perm. exact Hperm.
  - apply (Permutation_NoDup (l := map key l)); [|exact Hnodup].
    apply Permutation_map. apply sort_by_perm.
Qed.

End Sorting.

Lemma insert_by_map {A B} (key : B -> Z) (g : A -> B) (x : A) (l : list A) :
  insert_by key (g x) (map g l) =
  map g (insert_by (fun a => key (g a)) x l).
Proof.
  induction l as [|y l IH]; simpl; [reflexivity|].
  destruct (key (g x) <=? key (g y)); simpl; [reflexivity|].
  rewrite IH. reflexivity.
Qed.

Lemma sort_by_map {A B} (key : B -> Z) (g : A -> B) (l : list A) :
  sort_by key (map g l) = map g (sort_by (fun a => key (g a)) l).
Proof.
  induction l as [|x l IH]; simpl; [reflexivity|].
  rewrite IH, insert_by_map. reflexivity.
Qed.

Lemma sort_by_ext {A} (key key' : A -> Z) (l : list A) :
  (forall a, key a = key' a) -> sort_by key l = sort_by key' l.
Proof.
  intros Hext. unfold sort_by. induction l as [|x l IH]; simpl;
    [reflexivity|]. rewrite IH. generalize (fold_right (insert_by key') [] l).
  intros m. induction m as [|y m IHm]; simpl; [reflexivity|].
  rewrite !Hext, IHm. reflexivity.
Qed.

(** ** Reconstruction of a selective payload *)

Lemma restore_surface_number (s : Surface) :
  surface_number (restore s) = surface_number s.
Proof. unfold restore. destruct (visibility s); reflexivity. Qed.

Lemma partitioned_perm (g : SurfaceGroup) :
  Permutation (partitioned g) (surfaces g).
Proof.
  unfold partitioned, get_public_surfaces, get_encrypted_surfaces,
    get_redacted_surfaces.
  induction (surfaces g) as [|s l IH]; simpl; [reflexivity|].
  destruct (visibility s); simpl.
  - apply perm_skip. exact IH.
  - rewrite <- Permutation_middle. apply perm_skip. exact IH.
  - rewrite app_assoc, <- Permutation_middle, <- app_assoc.
    apply perm_skip. exact IH.
Qed.

Lemma map_restore_partitioned (g : SurfaceGroup) :
  map restore (partitioned g) =
    get_public_surfaces g ++ get_encrypted_surfaces g
      ++ map (fun s => redacted_placeholder (surface_number s))
             (get_redacted_surfaces g).
Proof.
  unfold partitioned. rewrite !map_app. f_equal; [|f_equal].
  - rewrite <- (map_id (get_public_surfaces g)) at 2.
    apply map_ext_in. intros s Hs. apply filter_In in Hs as [_ Hs].
    apply SurfaceVisibility_eqb_eq in Hs. unfold restore. rewrite Hs.
    reflexivity.
  - rewrite <- (map_id (get_encrypted_surfaces g)) at 2.
    apply map_ext_in. intros s Hs. apply filter_In in Hs as [_ Hs].
    apply SurfaceVisibility_eqb_eq in Hs. unfold restore. rewrite Hs.
    reflexivity.
  - apply map_ext_in. intros s Hs. apply filter_In in Hs as [_ Hs].
    apply SurfaceVisibility_eqb_eq in Hs. unfold restore. rewrite Hs.
    reflexivity.
Qed.

(** The surfaces of the restored group are those of the group, each
    restored, in the order of their numbers. *)
Lemma restored_surfaces_perm (g : SurfaceGroup) :
  Permutation (map restore (surfaces g)) (surfaces (restored g)).
Proof.
  simpl. rewrite <- sort_by_perm. apply Permutation_map.
  symmetry. apply partitioned_perm.
Qed.

Lemma restored_surfaces_sorted (g : SurfaceGroup) :
  StronglySorted (key_le surface_number) (surfaces (restored g)).
Proof. apply sort_by_sorted. Qed.

Lemma restored_surfaces_unique (g : SurfaceGroup) :
  NoDup (map surface_number (surfaces g)) ->
  surfaces (restored g) =
    map restore (sort_by surface_number (surfaces g)).
Proof.
  intros Hnodup. simpl.
  rewrite sort_by_map.
  rewrite (sort_by_ext _ surface_number _ restore_surface_number).
  f_equal. apply sort_by_perm_eq; [|exact Hnodup].
  symmetry. apply partitioned_perm.
Qed.

(** For a group whose surfaces are in the order of their numbers, which
    are all different, the restored surfaces are in the order of the
    group. *)
Lemma restored_surfaces_of_sorted (g : SurfaceGroup) :
  StronglySorted (key_le surface_number) (surfaces g) ->
  NoDup (map surface_number (surfaces g)) ->
  surfaces (restored g) = map restore (surfaces g).
Proof.
  intros Hsorted Hnodup.
  rewrite (restored_surfaces_unique g Hnodup).
  rewrite (sort_by_of_sorted surface_number _ Hsorted). reflexivity.
Qed.

Section Reconstruction.

Context {E : Externals}.

Lemma omap_validate_dump (l : list Surface) :
  Forall Surface_valid l -> Forall Surface_json_safe l ->
  omap Surface_model_validate (map Surface_model_dump l) = Ok l.
Proof.
  intros Hvalid Hsafe.
  rewrite (omap_map _ _ (fun s => s)); [rewrite map_id; reflexivity|].
  rewrite Forall_forall in *. intros s Hs.
  apply Surface_validate_dump; auto.
Qed.

Lemma omap_placeholders (l : list Surface) :
  Forall Surface_valid l ->
  omap (fun idx => Surface_init (redacted_kwargs idx)) (map surface_number l)
    = Ok (map (fun s => redacted_placeholder (surface_number s)) l).
Proof.
  intros Hvalid. apply omap_map.
  eapply Forall_impl; [|exact Hvalid]. intros s (Hnum & _).
  rewrite Surface_init_redacted_kwargs.
  apply Z.ltb_ge in Hnum. rewrite Hnum. reflexivity.
Qed.

Lemma filter_valid (g : SurfaceGroup) (v : SurfaceVisibility) :
  SurfaceGroup_valid g ->
  Forall Surface_valid
    (filter (fun s => SurfaceVisibility_eqb (visibility s) v) (surfaces g)).
Proof.
  intros (_ & Hvalid & _). rewrite Forall_forall in *.
  intros s Hs. apply filter_In in Hs as [Hs _]. auto.
Qed.

Lemma filter_json_safe (g : SurfaceGroup) (v : SurfaceVisibility) :
  SurfaceGroup_json_safe g -> v <> REDACTED ->
  Forall Surface_json_safe
    (filter (fun s => SurfaceVisibility_eqb (visibility s) v) (surfaces g)).
Proof.
  unfold SurfaceGroup_json_safe. intros Hsafe Hv. rewrite Forall_forall in *.
  intros s Hs. apply filter_In in Hs as [Hs Hvis].
  apply SurfaceVisibility_eqb_eq in Hvis.
  destruct (Hsafe s Hs) as [Hred | H]; [congruence | exact H].
Qed.

(** The constructor accepts the restored surfaces with the system fields
    of a valid group. *)
Lemma SurfaceGroup_init_restored (g : SurfaceGroup) :
  SurfaceGroup_valid g ->
  SurfaceGroup_init (sort_by surface_number (map restore (partitioned g)))
    (mkGroupKwargs (stop_surface g) (Some (map Some (wavelengths_nm g)))
       (Some (primary_wavelength_index g))
       (Some (Some (FieldType_value (field_type g))))
       (Some (Some (max_field g))))
  = Ok (restored g).
Proof.
  intros (Hne & _ & Hstop & Hwl & Hpwi & Hmf).
  unfold SurfaceGroup_init, restored. simpl.
  destruct (sort_by surface_number (map restore (partitioned g)))
    as [|s0 l0] eqn:Hsorted.
  { exfalso. apply Hne.
    pose proof (restored_surfaces_perm g) as Hperm. simpl in Hperm.
    rewrite Hsorted in Hperm. apply Permutation_sym, Permutation_nil in Hperm.
    destruct (surfaces g); [reflexivity | discriminate Hperm]. }
  simpl.
  assert (Hs : match stop_surface g with
               | Some n => if n <? 0 then Raise ValidationError
                           else Ok (Some n)
               | None => Ok None
               end = Ok (stop_surface g)).
  { destruct (stop_surface g) as [n|]; [|reflexivity].
    apply Z.ltb_ge in Hstop. rewrite Hstop. reflexivity. }
  rewrite Hs. simpl.
  assert (Hw : match map Some (wavelengths_nm g) with
               | [] => Raise ValidationError
               | _ :: _ => omap wavelength_item (map Some (wavelengths_nm g))
               end = Ok (wavelengths_nm g)).
  { destruct (wavelengths_nm g) as [|x l] eqn:Hl; [congruence|].
    rewrite <- Hl. replace (map Some (wavelengths_nm g))
      with (map Some (x :: l)) at 1 by (rewrite Hl; reflexivity).
    simpl. rewrite (omap_map _ _ (fun a => a));
      [rewrite map_id; reflexivity|].
    apply Forall_forall. reflexivity. }
  rewrite Hw. simpl.
  apply Z.ltb_ge in Hpwi. rewrite Hpwi. simpl.
  rewrite FieldType_of_value_value. simpl. rewrite Hmf. reflexivity.
Qed.

(** The selective reader on the payload that the selective writer
    produced for a valid group: it returns the restored group. *)
Lemma decrypt_payload_selective_run (g : SurfaceGroup)
    (eph platform_private_key : PrivateKey) (w : world) :
  open_seal_law E -> seal_nonempty_law E -> b64_law E -> json_law E ->
  SurfaceGroup_valid g -> SurfaceGroup_json_safe g ->
  exists w',
    decrypt_payload_selective
      (selective_payload g
         (Some (encrypted_blob_b64 g eph (public_key platform_private_key))))
      (public_key eph) platform_private_key w = (Ok (restored g), w') /\
    w_fs w' = w_fs w.
Proof.
  intros Hopen Hnonempty Hb64 Hjson Hvalid Hsafe.
  unfold decrypt_payload_selective. simpl.
  unfold get_public_surfaces at 1.
  rewrite (omap_validate_dump _ (filter_valid g PUBLIC Hvalid)
             (filter_json_safe g PUBLIC Hsafe ltac:(discriminate))).
  unfold lift at 1. unfold bind at 1.
  rewrite (omap_placeholders (get_redacted_surfaces g)
             (filter_valid g REDACTED Hvalid)).
  fold (get_public_surfaces g).
  unfold encrypted_blob_b64.
  destruct (get_encrypted_surfaces g) as [|s0 l0] eqn:Henc.
  - unfold_M. simpl.
    pose proof (SurfaceGroup_init_restored g Hvalid) as Hinit.
    rewrite map_restore_partitioned, Henc in Hinit. simpl in Hinit.
    rewrite Hinit. eexists. split; reflexivity.
  - rewrite <- Henc.
    set (plaintext := json_dumps (JObject (encrypted_data_dict
                                             (get_encrypted_surfaces g)))).
    set (ciphertext := hybrid_seal eph (public_key platform_private_key)
                         plaintext).
    destruct (Hb64 ciphertext) as [Hdecode Hempty].
    destruct (b64encode ciphertext) as [|c rest] eqn:Hb.
    { exfalso. apply (Hnonempty eph (public_key platform_private_key)
                        plaintext). apply Hempty. reflexivity. }
    rewrite Hdecode. unfold OBBEncryptor_decrypt. unfold_M. simpl.
    subst ciphertext. rewrite Hopen. subst plaintext. rewrite Hjson. simpl.
    unfold get_encrypted_surfaces at 1.
    rewrite (omap_validate_dump _ (filter_valid g ENCRYPTED Hvalid)
               (filter_json_safe g ENCRYPTED Hsafe ltac:(discriminate))).
    fold (get_encrypted_surfaces g).
    pose proof (SurfaceGroup_init_restored g Hvalid) as Hinit.
    rewrite map_restore_partitioned in Hinit.
    rewrite Hinit. eexists. split; reflexivity.
Qed.

End Reconstruction.

(** ** Reading a container *)

Section Readers.

Context {E : Externals}.

Lemma check_signature_run (verify_signature : bool) (payload : bytes)
    (metadata : OBBMetadata) (vendor_public_key : PublicKey) (w : world) :
  check_signature verify_signature payload metadata vendor_public_key w =
    if verify_signature then
      (match ecdsa_verify vendor_public_key payload (signature metadata) with
       | Some true => Ok tt
       | Some false => Raise InvalidSignatureError
       | None => Raise SignatureDecodeError
       end,
       with_trace
         [EvVerify payload
            (ecdsa_verify vendor_public_key payload (signature metadata))] w)
    else (Ok tt, w).
Proof.
  unfold check_signature, verify_payload_signature, OBBSigner_verify.
  unfold_M. destruct verify_signature; [|reflexivity]. simpl.
  destruct (ecdsa_verify vendor_public_key payload (signature metadata))
    as [[|]|]; reflexivity.
Qed.

(** The two readers of selective containers on a container whose payload
    is the JSON text of a selective payload, whose signature verifies and
    whose payload the selective codec reads as the group [g]. *)
Lemma readers_on_selective_container (path : string) (w : world)
    (header : OBBHeader PublicKey) (payload_dict : json_dict)
    (platform_private_key : PrivateKey) (vendor_public_key : PublicKey)
    (g : SurfaceGroup) :
  let header_bytes := serialize_header header in
  let payload := json_dumps (JObject payload_dict) in
  header_law E -> json_law E ->
  w_fs w path = Regular (container_bytes header_bytes payload) ->
  (N.of_nat (List.length header_bytes) < 4294967296)%N ->
  ecdsa_verify vendor_public_key payload (signature (h_metadata header))
    = Some true ->
  jd_encryption_mode payload_dict = Some "selective" ->
  (forall w0, exists w',
     decrypt_payload_selective payload_dict (h_ephemeral_public_key header)
       platform_private_key w0 = (Ok g, w')) ->
  fst (read path platform_private_key vendor_public_key true w)
    = Ok (h_metadata header, g) /\
  fst (read_and_decrypt_selective path platform_private_key
         vendor_public_key true w)
    = Ok (h_metadata header, g).
Proof.
  intros header_bytes payload Hheader Hjson Hfile Hfits Hverify Hmode Hdecrypt.
  pose proof (read_container_framed path w header_bytes payload Hfile Hfits)
    as Hread.
  unfold header_bytes in Hread at 1. rewrite Hheader in Hread.
  split.
  - unfold read. rewrite (bind_run _ _ _ _ _ Hread).
    unfold extract_metadata, extract_ephemeral_key.
    unfold bind at 1. rewrite check_signature_run, Hverify.
    match goal with
    | |- context [with_trace ?t ?w0] =>
        destruct (Hdecrypt (with_trace t w0)) as (w2 & Hrun)
    end.
    unfold try_except, json_loads_or_raise, bind, ret, is_selective.
    subst payload. rewrite Hjson, Hmode. simpl. rewrite Hrun. reflexivity.
  - unfold read_and_decrypt_selective. rewrite (bind_run _ _ _ _ _ Hread).
    unfold extract_metadata, extract_ephemeral_key.
    unfold bind at 1. rewrite check_signature_run, Hverify.
    match goal with
    | |- context [with_trace ?t ?w0] =>
        destruct (Hdecrypt (with_trace t w0)) as (w2 & Hrun)
    end.
    unfold json_loads_or_raise, bind, ret.
    subst payload. rewrite Hjson. simpl. rewrite Hrun. reflexivity.
Qed.

End Readers.

(** ** The round trip in selective mode *)

Lemma stamp_signature (metadata : OBBMetadata) (sig : string) (now : Z) :
  signature (stamp metadata sig now) = sig.
Proof. reflexivity. Qed.

(** C1.  Let the group be valid, let JSON carry the floats that are
    dumped, let the file be writable and the header fit its length prefix.
    Then [write_selective] returns the stamped metadata, and [read] and
    [read_and_decrypt_selective], with the matching keys and with signature
    verification, return the stamped metadata and the restored group: its
    system fields are those of the group; its surfaces are the surfaces of
    the group, where a public or an encrypted surface is the original
    surface and a redacted surface is the placeholder with the original
    number and every other field at its default; and they are sorted by
    [surface_number], which is the order of the original numbers when no
    two surfaces have the same number. *)
Theorem selective_round_trip (E : Externals)
    (path : string) (surface_group : SurfaceGroup) (metadata : OBBMetadata)
    (vendor_private_key platform_private_key : PrivateKey) (w : world) :
  open_seal_law E -> seal_nonempty_law E -> b64_law E -> json_law E ->
  sign_verify_law E -> header_law E ->
  SurfaceGroup_valid surface_group ->
  SurfaceGroup_json_safe surface_group ->
  writable (w_fs w path) ->
  header_fits
    (selective_written metadata vendor_private_key surface_group
       (public_key platform_private_key) w) w ->
  let written :=
    selective_written metadata vendor_private_key surface_group
      (public_key platform_private_key) w in
  let w' := snd (write_selective path surface_group metadata
                   vendor_private_key (public_key platform_private_key) w) in
  fst (write_selective path surface_group metadata vendor_private_key
         (public_key platform_private_key) w) = Ok written /\
  fst (read path platform_private_key (public_key vendor_private_key) true w')
    = Ok (written, restored surface_group) /\
  fst (read_and_decrypt_selective path platform_private_key
         (public_key vendor_private_key) true w')
    = Ok (written, restored surface_group) /\
  written = stamp metadata (signature written) (w_now w) /\
  Permutation (map restore (surfaces surface_group))
    (surfaces (restored surface_group)) /\
  StronglySorted (key_le surface_number) (surfaces (restored surface_group)) /\
  (NoDup (map surface_number (surfaces surface_group)) ->
   surfaces (restored surface_group) =
     map restore (sort_by surface_number (surfaces surface_group))).
Proof.
  intros Hopen Hnonempty Hb64 Hjson Hsign Hheader Hvalid Hsafe Hwritable
    Hfits written w'.
  pose proof (write_selective_returns path surface_group metadata
                vendor_private_key (public_key platform_private_key) w
                Hwritable Hfits) as Hwrite.
  fold written in Hwrite.
  destruct (write_selective_inv _ _ _ _ _ _ _ Hwrite)
    as (Hwritten & Hfits' & Hfile).
  fold w' in Hfile.
  assert (Hreaders :
    fst (read path platform_private_key (public_key vendor_private_key)
           true w') = Ok (written, restored surface_group) /\
    fst (read_and_decrypt_selective path platform_private_key
           (public_key vendor_private_key) true w')
      = Ok (written, restored surface_group)).
  { apply (readers_on_selective_container path w'
             (build_header written
                (public_key (keygen (w_random w (w_drawn w)))))
             (selective_payload surface_group
                (Some (encrypted_blob_b64 surface_group
                         (keygen (w_random w (w_drawn w)))
                         (public_key platform_private_key))))); auto.
    - apply Hsign.
    - intros w0. simpl.
      destruct (decrypt_payload_selective_run surface_group
                  (keygen (w_random w (w_drawn w))) platform_private_key w0
                  Hopen Hnonempty Hb64 Hjson Hvalid Hsafe) as (w1 & Hrun & _).
      exists w1. exact Hrun. }
  destruct Hreaders as [Hread Hsel].
  split; [exact Hwrite|]. split; [exact Hread|]. split; [exact Hsel|].
  split; [reflexivity|].
  split; [apply restored_surfaces_perm|].
  split; [apply restored_surfaces_sorted|].
  apply restored_surfaces_unique.
Qed.

(** ** Verification comes before decryption *)

Lemma with_trace_nil (w : world) : with_trace [] w = w.
Proof. destruct w; reflexivity. Qed.

Lemma with_trace_app (new1 new2 : list event) (w : world) :
  with_trace new2 (with_trace new1 w) = with_trace (new2 ++ new1) w.
Proof. unfold with_trace. simpl. rewrite app_assoc. reflexivity. Qed.

Lemma logs_only_ret {A} (a : A) : logs_only (ret a).
Proof. intros w. exists []. symmetry. apply with_trace_nil. Qed.

Lemma logs_only_raise {A} (e : exn) : logs_only (@raise A e).
Proof. intros w. exists []. symmetry. apply with_trace_nil. Qed.

Lemma logs_only_lift {A} (x : outcome A) : logs_only (lift x).
Proof. intros w. exists []. symmetry. apply with_trace_nil. Qed.

Lemma logs_only_log (ev : event) : logs_only (log ev).
Proof. intros w. exists [ev]. reflexivity. Qed.

Lemma logs_only_bind {A B} (m : M A) (k : A -> M B) :
  logs_only m -> (forall a, logs_only (k a)) -> logs_only (bind m k).
Proof.
  intros Hm Hk w. unfold bind. destruct (Hm w) as (new1 & H1).
  destruct (m w) as [[a|e] w1]; simpl in H1; subst w1.
  - destruct (Hk a (with_trace new1 w)) as (new2 & H2).
    exists (new2 ++ new1). rewrite H2. apply with_trace_app.
  - exists new1. reflexivity.
Qed.

Lemma logs_only_try_except {A} (m : M A) (handler : exn -> M A) :
  logs_only m -> (forall e, logs_only (handler e)) ->
  logs_only (try_except m handler).
Proof.
  intros Hm Hh w. unfold try_except. destruct (Hm w) as (new1 & H1).
  destruct (m w) as [[a|e] w1]; simpl in H1; subst w1.
  - exists new1. reflexivity.
  - destruct (Hh e (with_trace new1 w)) as (new2 & H2).
    exists (new2 ++ new1). rewrite H2. apply with_trace_app.
Qed.

(** Proves [logs_only] of a computation built from the constructs above
    and from pattern matching. *)
Ltac logs_only_tac :=
  repeat first
    [ apply logs_only_ret | apply logs_only_raise | apply logs_only_lift
    | apply logs_only_log
    | apply logs_only_bind; [|intros ?]
    | apply logs_only_try_except; [|intros ?]
    | match goal with
      | |- logs_only (match ?x with _ => _ end) => destruct x
      | |- logs_only (if ?x then _ else _) => destruct x
      end ].

Section VerifyFirst.

Context {E : Externals}.

Lemma logs_only_decrypt (c : bytes) (pk : PublicKey) (k : PrivateKey) :
  logs_only (OBBEncryptor_decrypt c pk k).
Proof. unfold OBBEncryptor_decrypt. logs_only_tac. Qed.

Lemma logs_only_decrypt_payload (c : bytes) (pk : PublicKey) (k : PrivateKey) :
  logs_only (decrypt_payload c pk k).
Proof.
  unfold decrypt_payload.
  apply logs_only_bind; [apply logs_only_decrypt | intros ?].
  logs_only_tac.
Qed.

Lemma logs_only_decrypt_payload_selective (d : json_dict) (pk : PublicKey)
    (k : PrivateKey) :
  logs_only (decrypt_payload_selective d pk k).
Proof.
  unfold decrypt_payload_selective.
  apply logs_only_bind; [apply logs_only_lift | intros ?].
  apply logs_only_bind; [|intros ?].
  - destruct (get (jd_encrypted_surfaces_data d) EmptyString);
      [apply logs_only_ret|].
    apply logs_only_bind; [logs_only_tac | intros ?].
    apply logs_only_bind; [apply logs_only_decrypt | intros ?].
    logs_only_tac.
  - logs_only_tac.
Qed.

(** The [with] block of a reader only opens and reads the file. *)
Lemma read_container_trace (path : string) (w : world) :
  exists io,
    snd (read_container path w) = with_trace io w /\
    forallb is_file_event io = true.
Proof.
  unfold read_container, read_and_verify_magic, read_length_prefixed,
    read_rest, deserialize_header_or_raise, open_rb, file_read.
  unfold_M. simpl.
  destruct (w_fs w path) as [| | |content]; simpl;
    try (eexists [_]; split; reflexivity);
    try (eexists [_; _]; split; reflexivity).
  destruct (bytes_eqb _ OBB_MAGIC); simpl;
    [|eexists [_; _]; split; reflexivity].
  destruct (_ <? 4)%nat; simpl; [eexists [_; _; _]; split; reflexivity|].
  match goal with
  | |- context [(List.length (firstn ?n ?l) <? ?n)%nat] =>
      destruct (List.length (firstn n l) <? n)%nat
  end; simpl; [eexists [_; _; _; _]; split; reflexivity|].
  destruct (deserialize_header _); simpl.
  - eexists [_; _; _; _; _]; split; reflexivity.
  - eexists [_; _; _; _]; split; reflexivity.
Qed.

Lemma verifies_first_intro {A}
    (cont : OBBHeader PublicKey -> bytes -> M A) (path : string)
    (vendor_public_key : PublicKey) (w : world) :
  (forall header payload, logs_only (cont header payload)) ->
  verifies_first
    ('(header, payload) <- read_container path ;;
     check_signature true payload (extract_metadata header)
       vendor_public_key ;;;
     cont header payload)
    path vendor_public_key w.
Proof.
  intros Hcont. unfold verifies_first.
  destruct (read_container path w) as [[[header payload]|e] w1] eqn:Hread;
    cbn [fst snd]; [|apply (bind_raise _ _ _ _ _ Hread)].
  rewrite (bind_run _ _ _ _ _ Hread).
  unfold bind. rewrite check_signature_run.
  destruct (ecdsa_verify vendor_public_key payload
              (signature (extract_metadata header))) as [[|]|]; cbn [fst snd].
  - destruct (Hcont header payload
                (with_trace [EvVerify payload (Some true)] w1))
      as (rest & Hrest).
    exists rest. rewrite Hrest, with_trace_app. repeat split.
  - exists []. repeat split. intros c [].
  - exists []. repeat split. intros c [].
Qed.

End VerifyFirst.

(** C2.  Each of the three readers, called with [verify_signature=True],
    first reads the container, which records file events only; the next
    call it records is the verification of the signature over the payload
    bytes; whatever else it records, a decryption included, comes after
    that; and when the signature does not verify, the reader raises
    [InvalidSignatureError] and records nothing after the verification. *)
Theorem verify_before_decrypt (E : Externals) (path : string)
    (platform_private_key : PrivateKey) (vendor_public_key : PublicKey)
    (w : world) :
  (exists io,
     snd (read_container path w) = with_trace io w /\
     forallb is_file_event io = true) /\
  verifies_first (read path platform_private_key vendor_public_key true)
    path vendor_public_key w /\
  verifies_first
    (read_and_decrypt path platform_private_key vendor_public_key true)
    path vendor_public_key w /\
  verifies_first
    (read_and_decrypt_selective path platform_private_key vendor_public_key
       true)
    path vendor_public_key w.
Proof.
  split; [apply read_container_trace|]. split; [|split].
  - apply (verifies_first_intro
             (fun header payload_bytes =>
                surface_group <-
                  try_except
                    (payload <- json_loads_or_raise payload_bytes ;;
                     match payload with
                     | JObject payload_dict =>
                         if is_selective payload then
                           decrypt_payload_selective payload_dict
                             (extract_ephemeral_key header)
                             platform_private_key
                         else
                           decrypt_payload payload_bytes
                             (extract_ephemeral_key header)
                             platform_private_key
                     | JOther =>
                         decrypt_payload payload_bytes
                           (extract_ephemeral_key header)
                           platform_private_key
                     end)
                    (fun e =>
                       match e with
                       | JSONDecodeError | UnicodeDecodeError =>
                           decrypt_payload payload_bytes
                             (extract_ephemeral_key header)
                             platform_private_key
                       | _ => raise e
                       end) ;;
                ret (extract_metadata header, surface_group))).
    intros header payload.
    apply logs_only_bind; [|intros ?; apply logs_only_ret].
    apply logs_only_try_except.
    + apply logs_only_bind;
        [unfold json_loads_or_raise; logs_only_tac | intros [d|]].
      * destruct (is_selective (JObject d));
          [apply logs_only_decrypt_payload_selective
          | apply logs_only_decrypt_payload].
      * apply logs_only_decrypt_payload.
    + intros e. destruct e; try apply logs_only_raise;
        apply logs_only_decrypt_payload.
  - apply (verifies_first_intro
             (fun header encrypted_payload =>
                surface_group <-
                  decrypt_payload encrypted_payload
                    (extract_ephemeral_key header) platform_private_key ;;
                ret (extract_metadata header, surface_group))).
    intros header payload.
    apply logs_only_bind; [apply logs_only_decrypt_payload | intros ?].
    apply logs_only_ret.
  - apply (verifies_first_intro
             (fun header payload_bytes =>
                payload <- json_loads_or_raise payload_bytes ;;
                surface_group <-
                  match payload with
                  | JObject payload_dict =>
                      decrypt_payload_selective payload_dict
                        (extract_ephemeral_key header) platform_private_key
                  | JOther => raise AttributeError
                  end ;;
                ret (extract_metadata header, surface_group))).
    intros header payload.
    apply logs_only_bind;
      [unfold json_loads_or_raise; logs_only_tac | intros [d|]].
    + apply logs_only_bind;
        [apply logs_only_decrypt_payload_selective | intros ?].
      apply logs_only_ret.
    + apply logs_only_bind; [apply logs_only_raise | intros ?].
      apply logs_only_ret.
Qed.

(** ** Detection of the payload format *)

Lemma only_raises_ok {A} (P : exn -> Prop) (a : A) : only_raises P (Ok a).
Proof. intros e H. discriminate H. Qed.

Lemma only_raises_raise {A} (P : exn -> Prop) (e : exn) :
  P e -> only_raises P (@Raise A e).
Proof. intros He e' [= <-]. exact He. Qed.

Lemma only_raises_obind {A B} (P : exn -> Prop) (x : outcome A)
    (f : A -> outcome B) :
  only_raises P x -> (forall a, only_raises P (f a)) ->
  only_raises P (obind x f).
Proof.
  intros Hx Hf e. destruct x as [a|e']; simpl; [apply Hf|].
  intros [= <-]. apply Hx. reflexivity.
Qed.

Lemma only_raises_omap {A B} (P : exn -> Prop) (f : A -> outcome B)
    (l : list A) :
  (forall a, only_raises P (f a)) -> only_raises P (omap f l).
Proof.
  intros Hf. induction l as [|a l IH]; simpl; [apply only_raises_ok|].
  apply only_raises_obind; [apply Hf | intros b].
  apply only_raises_obind; [exact IH | intros bs]. apply only_raises_ok.
Qed.

(** Proves [only_raises] of a validation. *)
Ltac only_raises_tac :=
  repeat first
    [ apply only_raises_ok
    | apply only_raises_raise; reflexivity
    | apply only_raises_obind; [|intros ?]
    | apply only_raises_omap; intros ?
    | match goal with
      | |- only_raises _ (match ?x with _ => _ end) => destruct x
      | |- only_raises _ (if ?x then _ else _) => destruct x
      end ].

Lemma Surface_init_raises (kw : surface_kwargs) :
  only_raises is_validation_error (Surface_init kw).
Proof.
  unfold Surface_init, float_field, float_field_ge0, coeff_field.
  only_raises_tac.
Qed.

Lemma SurfaceGroup_init_raises (l : list Surface) (kw : group_kwargs) :
  only_raises is_validation_error (SurfaceGroup_init l kw).
Proof.
  unfold SurfaceGroup_init, float_field_ge0, wavelength_item.
  only_raises_tac.
Qed.

Section AutoDetect.

Context {E : Externals}.

Lemma SurfaceGroup_model_validate_json_raises (data : bytes) :
  only_raises is_validation_error (SurfaceGroup_model_validate_json data).
Proof.
  unfold SurfaceGroup_model_validate_json.
  destruct (json_loads data) as [[d|]| | | |];
    try (apply only_raises_raise; reflexivity).
  destruct (jd_surfaces d); [|apply only_raises_raise; reflexivity].
  apply only_raises_obind; [|intros ?; apply SurfaceGroup_init_raises].
  apply only_raises_omap. intros kw. apply Surface_init_raises.
Qed.

(** [decrypt_payload] raises [DecryptionError] or [ValidationError] and
    nothing else. *)
Lemma decrypt_payload_raises (c : bytes) (pk : PublicKey) (k : PrivateKey)
    (w : world) (e : exn) :
  fst (decrypt_payload c pk k w) = Raise e ->
  e = DecryptionError \/ e = ValidationError.
Proof.
  unfold decrypt_payload, OBBEncryptor_decrypt. unfold_M. simpl.
  destruct (hybrid_open k pk c) as [plaintext|]; simpl.
  - intros H. right.
    apply (SurfaceGroup_model_validate_json_raises plaintext).
    destruct (SurfaceGroup_model_validate_json plaintext);
      simpl in H; [discriminate H | exact H].
  - intros [= <-]. left. reflexivity.
Qed.

End AutoDetect.

Section AutoDetectTheorem.

Context {E : Externals}.

(** Handling [JSONDecodeError] and [UnicodeDecodeError] around
    [decrypt_payload] changes nothing, since it raises neither. *)
Lemma try_except_decrypt_payload (c c' : bytes) (pk : PublicKey)
    (k : PrivateKey) (w : world) :
  try_except (decrypt_payload c pk k)
    (fun e => match e with
              | JSONDecodeError | UnicodeDecodeError => decrypt_payload c' pk k
              | _ => raise e
              end) w
  = decrypt_payload c pk k w.
Proof.
  unfold try_except.
  pose proof (decrypt_payload_raises c pk k w) as Hraises.
  destruct (decrypt_payload c pk k w) as [[g|e] w']; [reflexivity|].
  destruct (Hraises e eq_refl) as [-> | ->]; reflexivity.
Qed.

Lemma read_unfold (path : string) (platform_private_key : PrivateKey)
    (vendor_public_key : PublicKey) (verify_signature : bool) :
  read path platform_private_key vendor_public_key verify_signature =
  ('(header, payload_bytes) <- read_container path ;;
   check_signature verify_signature payload_bytes (extract_metadata header)
     vendor_public_key ;;;
   surface_group <- sniff_and_decrypt payload_bytes
                      (extract_ephemeral_key header) platform_private_key ;;
   ret (extract_metadata header, surface_group)).
Proof. reflexivity. Qed.

(** [sniff_and_decrypt] on a payload that [json.loads] reads as a value
    that is not a selective payload, or rejects with one of the two
    exceptions that [read] handles. *)
Lemma sniff_full (payload : bytes) (pk : PublicKey) (k : PrivateKey)
    (w : world) :
  payload_format payload = Full ->
  sniff_and_decrypt payload pk k w = decrypt_payload payload pk k w.
Proof.
  unfold payload_format, sniff_and_decrypt. intros Hformat.
  unfold try_except, bind, json_loads_or_raise.
  destruct (json_loads payload) as [[d|]| | | |]; try reflexivity;
    try discriminate Hformat.
  - unfold ret, is_selective.
    destruct (jd_encryption_mode d) as [mode|].
    + destruct (String.eqb mode "selective"); [discriminate Hformat|].
      exact (try_except_decrypt_payload payload payload _ _ w).
    + exact (try_except_decrypt_payload payload payload _ _ w).
  - exact (try_except_decrypt_payload payload payload _ _ w).
Qed.

Lemma sniff_selective (payload : bytes) (pk : PublicKey) (k : PrivateKey)
    (w : world) :
  payload_format payload = Selective ->
  exists d,
    json_loads payload = JsonOk (JObject d) /\
    jd_encryption_mode d = Some "selective" /\
    (fst (decrypt_payload_selective d pk k w) <> Raise JSONDecodeError ->
     fst (decrypt_payload_selective d pk k w) <> Raise UnicodeDecodeError ->
     sniff_and_decrypt payload pk k w = decrypt_payload_selective d pk k w).
Proof.
  unfold payload_format, sniff_and_decrypt. intros Hformat.
  unfold try_except, bind, json_loads_or_raise.
  destruct (json_loads payload) as [[d|]| | | |]; try discriminate Hformat.
  exists d. unfold ret, is_selective.
  destruct (jd_encryption_mode d) as [mode|]; [|discriminate Hformat].
  destruct (String.eqb_spec mode "selective") as [Hmode|];
    [|discriminate Hformat].
  split; [reflexivity|]. split; [rewrite Hmode; reflexivity|].
  intros Hjson Hunicode.
  destruct (decrypt_payload_selective d pk k w) as [[g|e] w1]; [reflexivity|].
  simpl in Hjson, Hunicode. destruct e; try reflexivity; congruence.
Qed.

Lemma sniff_unreadable (payload : bytes) (pk : PublicKey) (k : PrivateKey)
    (w : world) (e : exn) :
  json_loads payload = JsonTooDeep /\ e = RecursionError \/
  json_loads payload = JsonBadNumber /\ e = ValueError ->
  sniff_and_decrypt payload pk k w = (Raise e, w) /\
  json_loads_or_raise payload w = (Raise e, w).
Proof.
  unfold sniff_and_decrypt, try_except, bind, json_loads_or_raise.
  intros [[-> ->] | [-> ->]]; split; reflexivity.
Qed.

(** C6.  On a container whose framing and header read, [read] returns what
    [read_and_decrypt] returns when the payload has the full format: it is
    the JSON text of something that is not an object with the
    [encryption_mode] ["selective"], or [json.loads] raises
    [JSONDecodeError] or [UnicodeDecodeError] on it.  It returns what
    [read_and_decrypt_selective] returns when the payload has the
    selective format and is well formed, that is, the selective reader
    does not find an encrypted blob that is not JSON text.  But when
    [json.loads] raises [RecursionError] or a plain [ValueError] on the
    payload, and the signature check lets the payload pass, [read] raises
    that exception without a decryption, as [read_and_decrypt_selective]
    does, where [read_and_decrypt] goes on to decrypt and raises no such
    exception: the payload is no JSON text for [read], and still it is
    not read in full mode. *)
Theorem read_auto_detects (path : string)
    (platform_private_key : PrivateKey) (vendor_public_key : PublicKey)
    (verify_signature : bool) (w : world)
    (header : OBBHeader PublicKey) (payload : bytes) :
  fst (read_container path w) = Ok (header, payload) ->
  (payload_format payload = Full ->
   read path platform_private_key vendor_public_key verify_signature w =
   read_and_decrypt path platform_private_key vendor_public_key
     verify_signature w) /\
  (payload_format payload = Selective ->
   fst (read_and_decrypt_selective path platform_private_key
          vendor_public_key verify_signature w) <> Raise JSONDecodeError ->
   fst (read_and_decrypt_selective path platform_private_key
          vendor_public_key verify_signature w) <> Raise UnicodeDecodeError ->
   read path platform_private_key vendor_public_key verify_signature w =
   read_and_decrypt_selective path platform_private_key vendor_public_key
     verify_signature w) /\
  (json_loads payload = JsonDecodeFailed \/ json_loads payload = JsonNotUnicode ->
   read path platform_private_key vendor_public_key verify_signature w =
   read_and_decrypt path platform_private_key vendor_public_key
     verify_signature w) /\
  (forall e,
     json_loads payload = JsonTooDeep /\ e = RecursionError \/
     json_loads payload = JsonBadNumber /\ e = ValueError ->
     (verify_signature = true ->
      ecdsa_verify vendor_public_key payload
        (signature (extract_metadata header)) = Some true) ->
     fst (read path platform_private_key vendor_public_key
            verify_signature w) = Raise e /\
     fst (read_and_decrypt_selective path platform_private_key
            vendor_public_key verify_signature w) = Raise e /\
     fst (read_and_decrypt path platform_private_key vendor_public_key
            verify_signature w) <> Raise e /\
     forall ciphertext,
       In (EvDecrypt ciphertext)
          (w_trace (snd (read path platform_private_key vendor_public_key
                           verify_signature w))) ->
       In (EvDecrypt ciphertext) (w_trace w)).
Proof.
  intros Hread.
  destruct (read_container path w) as [[[h p]|e] w1] eqn:Hrc;
    simpl in Hread; [|discriminate Hread].
  injection Hread as -> ->.
  rewrite read_unfold.
  unfold read_and_decrypt, read_and_decrypt_selective.
  rewrite !(bind_run _ _ _ _ _ Hrc).
  pose proof (check_signature_run verify_signature payload
                (extract_metadata header) vendor_public_key w1) as Hrun.
  destruct (check_signature verify_signature payload (extract_metadata header)
              vendor_public_key w1) as [[[]|e] w2] eqn:Hcheck.
  2: { rewrite !(bind_raise _ _ _ _ _ Hcheck).
       split; [reflexivity|]. split; [reflexivity|]. split; [reflexivity|].
       intros e0 _ Hverify. exfalso.
       destruct verify_signature; [|discriminate Hrun].
       rewrite (Hverify eq_refl) in Hrun. discriminate Hrun. }
  rewrite !(bind_run _ _ _ _ _ Hcheck).
  assert (Hfull : payload_format payload = Full ->
    (surface_group <- sniff_and_decrypt payload (extract_ephemeral_key header)
                        platform_private_key ;;
     ret (extract_metadata header, surface_group)) w2 =
    (surface_group <- decrypt_payload payload (extract_ephemeral_key header)
                        platform_private_key ;;
     ret (extract_metadata header, surface_group)) w2).
  { intros Hformat. unfold bind. rewrite (sniff_full _ _ _ _ Hformat).
    reflexivity. }
  split; [exact Hfull|]. split; [|split].
  - intros Hformat Hj Hu.
    destruct (sniff_selective payload (extract_ephemeral_key header)
                platform_private_key w2 Hformat) as (d & Hjson & _ & Hsniff).
    match goal with
    | |- _ = ?rhs =>
        assert (Hsel : rhs =
          (surface_group <- decrypt_payload_selective d
                              (extract_ephemeral_key header)
                              platform_private_key ;;
           ret (extract_metadata header, surface_group)) w2)
          by (unfold json_loads_or_raise, bind at 1; rewrite Hjson;
              reflexivity)
    end.
    rewrite Hsel in *. unfold bind in *.
    destruct (decrypt_payload_selective d (extract_ephemeral_key header)
                platform_private_key w2) as [[g|e] w3] eqn:Hd.
    + rewrite Hsniff; [reflexivity | discriminate | discriminate].
    + rewrite Hsniff; [reflexivity | |]; simpl in *; congruence.
  - intros Hnot. apply Hfull. unfold payload_format.
    destruct Hnot as [-> | ->]; reflexivity.
  - intros e Hraised Hverify.
    destruct (sniff_unreadable payload (extract_ephemeral_key header)
                platform_private_key w2 e Hraised) as (Hsniff & Hloads).
    rewrite (bind_raise _ _ _ _ _ Hsniff), (bind_raise _ _ _ _ _ Hloads).
    split; [reflexivity|]. split; [reflexivity|]. split.
    + unfold bind. intros Hx.
      pose proof (decrypt_payload_raises payload (extract_ephemeral_key header)
                    platform_private_key w2 e) as Hraises.
      destruct (decrypt_payload payload (extract_ephemeral_key header)
                  platform_private_key w2) as [[g|e'] w3];
        [discriminate Hx|].
      injection Hx as ->.
      destruct (Hraises eq_refl) as [-> | ->];
        destruct Hraised as [[_ He] | [_ He]]; discriminate He.
    + cbn [snd]. intros c Hin.
      destruct (read_container_trace path w) as (io & Hio & Hfile).
      rewrite Hrc in Hio. simpl in Hio. subst w1.
      assert (Hw2 : exists new, w2 = with_trace new (with_trace io w) /\
                                forallb (fun ev => match ev with
                                                   | EvDecrypt _ => false
                                                   | _ => true
                                                   end) new = true).
      { destruct verify_signature.
        - rewrite (Hverify eq_refl) in Hrun. injection Hrun as Hw2.
          rewrite Hw2. eexists. split; reflexivity.
        - injection Hrun as Hw2. rewrite Hw2. exists [].
          split; [symmetry; apply with_trace_nil | reflexivity]. }
      destruct Hw2 as (new & -> & Hnew).
      simpl in Hin. rewrite !in_app_iff in Hin.
      destruct Hin as [Hin | [Hin | Hin]]; [| |exact Hin]; exfalso.
      * rewrite forallb_forall in Hnew. specialize (Hnew _ Hin).
        discriminate Hnew.
      * rewrite forallb_forall in Hfile. specialize (Hfile _ Hin).
        discriminate Hfile.
Qed.

End AutoDetectTheorem.

(** ** Tampering with the payload *)

Lemma replace_byte_app (p l : bytes) (i : nat) (b : byte) :
  (List.length p <= i)%nat ->
  replace_byte i b (p ++ l) = p ++ replace_byte (i - List.length p) b l.
Proof.
  revert i. induction p as [|x p IH]; intros i Hi; simpl in *.
  - rewrite Nat.sub_0_r. reflexivity.
  - destruct i as [|i]; [lia|]. unfold replace_byte in *. simpl.
    f_equal. apply IH. lia.
Qed.

Lemma replace_byte_neq (l : bytes) (i : nat) (b : byte) :
  (i < List.length l)%nat -> nth i l x00 <> b -> replace_byte i b l <> l.
Proof.
  intros Hi Hneq Heq. apply Hneq.
  assert (Hnth : nth i (replace_byte i b l) x00 = b).
  { unfold replace_byte.
    rewrite app_nth2; rewrite firstn_length_le; try lia.
    rewrite Nat.sub_diag. reflexivity. }
  congruence.
Qed.

Section Tamper.

Context {E : Externals}.

Lemma payload_offset_container (header_bytes payload : bytes) :
  magic_law E ->
  (N.of_nat (List.length header_bytes) < 4294967296)%N ->
  payload_offset (container_bytes header_bytes payload)
    = (8 + List.length header_bytes)%nat.
Proof.
  intros Hmagic Hfits. unfold payload_offset, container_bytes.
  unfold magic_law in Hmagic.
  assert (Hskip : forall rest : bytes, skipn 4 (OBB_MAGIC ++ rest) = rest)
    by (intros rest; rewrite <- Hmagic; apply skipn_length_app).
  assert (Hfirst : forall (n : N) (rest : bytes),
            firstn 4 (u32_le n ++ rest) = u32_le n)
    by (intros n rest; rewrite <- (u32_le_length n);
        apply firstn_length_app).
  rewrite Hskip, Hfirst, (u32_of_le_u32_le _ Hfits), Nat2N.id.
  reflexivity.
Qed.

Lemma replace_byte_container (header_bytes payload : bytes) (i : nat)
    (b : byte) :
  magic_law E ->
  (8 + List.length header_bytes <= i)%nat ->
  replace_byte i b (container_bytes header_bytes payload) =
  container_bytes header_bytes
    (replace_byte (i - (8 + List.length header_bytes)) b payload).
Proof.
  intros Hmagic Hi. unfold container_bytes. unfold magic_law in Hmagic.
  rewrite !app_assoc. rewrite replace_byte_app.
  - rewrite !length_app, Hmagic, u32_le_length. reflexivity.
  - rewrite !length_app, Hmagic, u32_le_length. lia.
Qed.

Lemma container_bytes_length (header_bytes payload : bytes) :
  magic_law E ->
  List.length (container_bytes header_bytes payload)
    = (8 + List.length header_bytes + List.length payload)%nat.
Proof.
  intros Hmagic. unfold container_bytes. unfold magic_law in Hmagic.
  rewrite !length_app, Hmagic, u32_le_length. lia.
Qed.

(** The three readers on a container whose signature does not verify on
    the payload. *)
Lemma readers_reject (path : string) (w : world)
    (header : OBBHeader PublicKey) (payload : bytes)
    (platform_private_key : PrivateKey) (vendor_public_key : PublicKey) :
  let header_bytes := serialize_header header in
  header_law E ->
  w_fs w path = Regular (container_bytes header_bytes payload) ->
  (N.of_nat (List.length header_bytes) < 4294967296)%N ->
  ecdsa_verify vendor_public_key payload (signature (h_metadata header))
    = Some false ->
  fst (read path platform_private_key vendor_public_key true w)
    = Raise InvalidSignatureError /\
  fst (read_and_decrypt path platform_private_key vendor_public_key true w)
    = Raise InvalidSignatureError /\
  fst (read_and_decrypt_selective path platform_private_key
         vendor_public_key true w)
    = Raise InvalidSignatureError.
Proof.
  intros header_bytes Hheader Hfile Hfits Hverify.
  pose proof (read_container_framed path w header_bytes payload Hfile Hfits)
    as Hread.
  unfold header_bytes in Hread at 1. rewrite Hheader in Hread.
  unfold read, read_and_decrypt, read_and_decrypt_selective.
  rewrite !(bind_run _ _ _ _ _ Hread).
  unfold extract_metadata.
  repeat split; unfold bind at 1; rewrite check_signature_run, Hverify;
    reflexivity.
Qed.

(** C3.  Take the file that [write] or [write_selective] wrote, replace
    one byte of its payload section by another byte, and read it with
    signature verification and the vendor's public key: each of the three
    readers raises [InvalidSignatureError]. *)
Theorem tamper_detection (selective : bool)
    (path : string) (surface_group : SurfaceGroup)
    (metadata written : OBBMetadata)
    (vendor_private_key platform_private_key : PrivateKey)
    (platform_public_key : PublicKey) (w tampered : world)
    (content : bytes) (i : nat) (b : byte) :
  sign_binding_law E -> header_law E -> magic_law E ->
  fst (write_with selective path surface_group metadata vendor_private_key
         platform_public_key w) = Ok written ->
  w_fs (snd (write_with selective path surface_group metadata
               vendor_private_key platform_public_key w)) path
    = Regular content ->
  (payload_offset content <= i < List.length content)%nat ->
  nth i content x00 <> b ->
  w_fs tampered path = Regular (replace_byte i b content) ->
  fst (read path platform_private_key (public_key vendor_private_key) true
         tampered) = Raise InvalidSignatureError /\
  fst (read_and_decrypt path platform_private_key
         (public_key vendor_private_key) true tampered)
    = Raise InvalidSignatureError /\
  fst (read_and_decrypt_selective path platform_private_key
         (public_key vendor_private_key) true tampered)
    = Raise InvalidSignatureError.
Proof.
  intros Hbinding Hheader Hmagic Hwrite Hcontent Hi Hb Htampered.
  assert (Hwritten : exists payload,
    written_container w
      (snd (write_with selective path surface_group metadata
              vendor_private_key platform_public_key w))
      path metadata written vendor_private_key payload).
  { destruct selective; simpl in *.
    - eexists. apply write_selective_inv. exact Hwrite.
    - eexists. apply write_inv. exact Hwrite. }
  destruct Hwritten as (payload & Hstamp & Hfits & Hfile).
  rewrite Hfile in Hcontent. injection Hcontent as <-.
  rewrite (payload_offset_container _ _ Hmagic Hfits) in Hi.
  rewrite (container_bytes_length _ _ Hmagic) in Hi.
  rewrite (replace_byte_container _ _ _ _ Hmagic) in Htampered by lia.
  set (header_bytes := serialize_header _) in *.
  set (j := (i - (8 + List.length header_bytes))%nat) in *.
  assert (Hpayload : replace_byte j b payload <> payload).
  { apply replace_byte_neq; [subst j; lia|].
    intros Hnth. apply Hb. unfold container_bytes.
    pose proof Hmagic as Hlen. unfold magic_law in Hlen.
    rewrite !app_assoc, app_nth2;
      rewrite !length_app, Hlen, u32_le_length; [|lia].
    exact Hnth. }
  apply (readers_reject path tampered _ _ platform_private_key
           (public_key vendor_private_key) Hheader Htampered Hfits).
  simpl. rewrite Hstamp at 1. rewrite stamp_signature.
  apply Hbinding. exact Hpayload.
Qed.

End Tamper.

(** ** The concrete model satisfies the laws *)

Module ToyLaws.

Import Toy.

Create HintDb formats.

Lemma positive_format_ok : format_ok positive_format.
Proof.
  intros p rest. simpl. induction p as [p IH | p IH |]; simpl;
    rewrite ?IH; reflexivity.
Qed.

Lemma Z_format_ok : format_ok Z_format.
Proof.
  intros [|p|p] rest; simpl; try reflexivity;
    pose proof (positive_format_ok p rest) as Hp; simpl in Hp;
    rewrite Hp; reflexivity.
Qed.

Lemma bool_format_ok : format_ok bool_format.
Proof. intros [|] rest; reflexivity. Qed.

Lemma byte_format_ok : format_ok byte_format.
Proof. intros b rest. reflexivity. Qed.

Lemma map_format_ok {A B} (to : B -> A) (from : A -> B) (c : format A) :
  format_ok c -> (forall b, from (to b) = b) ->
  format_ok (map_format to from c).
Proof.
  intros Hc Hiso b rest. simpl. rewrite Hc, Hiso. reflexivity.
Qed.

Lemma pair_format_ok {A B} (ca : format A) (cb : format B) :
  format_ok ca -> format_ok cb -> format_ok (pair_format ca cb).
Proof.
  intros Ha Hb [a b] rest. simpl. rewrite <- app_assoc, Ha, Hb. reflexivity.
Qed.

Lemma option_format_ok {A} (c : format A) :
  format_ok c -> format_ok (option_format c).
Proof.
  intros Hc [a|] rest; simpl; [rewrite Hc|]; reflexivity.
Qed.

Lemma nat_format_ok : format_ok nat_format.
Proof. apply map_format_ok; [apply Z_format_ok | apply Nat2Z.id]. Qed.

Lemma take_n_ok {A} (c : format A) (l : list A) (rest : bytes) :
  format_ok c ->
  take_n c (List.length l) (flat_map (put c) l ++ rest) = Some (l, rest).
Proof.
  intros Hc. induction l as [|a l IH]; simpl; [reflexivity|].
  rewrite <- app_assoc, Hc, IH. reflexivity.
Qed.

Lemma list_format_ok {A} (c : format A) :
  format_ok c -> format_ok (list_format c).
Proof.
  intros Hc l rest. unfold list_format. cbn [put take].
  rewrite <- app_assoc, nat_format_ok. apply take_n_ok. exact Hc.
Qed.

Lemma string_format_ok : format_ok string_format.
Proof.
  apply map_format_ok;
    [apply list_format_ok, byte_format_ok
    | apply string_of_list_byte_of_string].
Qed.

#[local] Hint Resolve positive_format_ok Z_format_ok bool_format_ok
  byte_format_ok nat_format_ok string_format_ok pair_format_ok
  option_format_ok list_format_ok : formats.

Lemma float_format_ok : format_ok float_format.
Proof.
  apply map_format_ok; [auto 10 with formats|].
  intros [s | s | | s m e]; reflexivity.
Qed.

#[local] Hint Resolve float_format_ok : formats.

Lemma surface_kwargs_format_ok : format_ok surface_kwargs_format.
Proof.
  apply map_format_ok; [unfold field_format, jfloat_format; auto 30 with formats|].
  intros []; reflexivity.
Qed.

#[local] Hint Resolve surface_kwargs_format_ok : formats.

Lemma json_format_ok : format_ok json_format.
Proof.
  apply map_format_ok; [|intros []; reflexivity].
  apply option_format_ok.
  apply map_format_ok;
    [unfold field_format, jfloat_format; auto 30 with formats|].
  intros []; reflexivity.
Qed.

Lemma header_format_ok : format_ok header_format.
Proof.
  apply map_format_ok; [|intros []; reflexivity].
  apply pair_format_ok; [|apply Z_format_ok].
  apply map_format_ok; [auto 30 with formats|].
  intros []; simpl. destruct spectral_range_nm0. reflexivity.
Qed.

Lemma take_all_put {A} (c : format A) (a : A) :
  format_ok c -> take_all c (put c a) = Some a.
Proof.
  intros Hc. unfold take_all.
  rewrite <- (app_nil_r (put c a)), Hc. reflexivity.
Qed.

Lemma open_seal : open_seal_law externals.
Proof. intros eph recipient plaintext. reflexivity. Qed.

Lemma seal_nonempty : seal_nonempty_law externals.
Proof. intros eph pk plaintext. discriminate. Qed.

Lemma b64 : b64_law externals.
Proof.
  intros b. split.
  - simpl. rewrite list_byte_of_string_of_list_byte. reflexivity.
  - destruct b; [reflexivity | discriminate].
Qed.

Lemma json_roundtrip : json_law externals.
Proof.
  intros v. unfold json_loads, json_dumps, externals.
  rewrite (take_all_put _ _ json_format_ok). reflexivity.
Qed.

Lemma sign_verify : sign_verify_law externals.
Proof. intros k nonce data. simpl. rewrite String.eqb_refl. reflexivity. Qed.

Lemma sign_binding : sign_binding_law externals.
Proof.
  intros k nonce data data' Hne. simpl. f_equal.
  apply String.eqb_neq. intros Heq. apply Hne.
  rewrite <- (list_byte_of_string_of_list_byte data'),
          <- (list_byte_of_string_of_list_byte data), Heq.
  reflexivity.
Qed.

Lemma ser_float : ser_float_law externals.
Proof. intros x _. reflexivity. Qed.

Lemma magic : magic_law externals.
Proof. reflexivity. Qed.

Lemma header_roundtrip : header_law externals.
Proof. intros h. apply (take_all_put _ _ header_format_ok). Qed.

End ToyLaws.

(** ** The theorems on the scenario *)

Import Scenario.

Lemma mixed_group_valid : SurfaceGroup_valid mixed_group.
Proof.
  unfold SurfaceGroup_valid, Surface_valid. simpl.
  repeat split; try discriminate; try reflexivity; try lia.
  repeat constructor; simpl; try lia; discriminate.
Qed.

Lemma mixed_group_json_safe :
  SurfaceGroup_json_safe (E := Toy.externals) mixed_group.
Proof.
  unfold SurfaceGroup_json_safe, Surface_json_safe. simpl.
  repeat (apply Forall_cons;
          [first [left; reflexivity
                 | right; repeat split; repeat constructor]|]).
  apply Forall_nil.
Qed.

Lemma written_selective_ok :
  fst (write_selective (E := Toy.externals) lens_path mixed_group
         lens_metadata vendor_private_key platform_public_key world_0)
  = Ok written_selective.
Proof. vm_compute. reflexivity. Qed.

Lemma lens_header_fits :
  header_fits (E := Toy.externals)
    (selective_written (E := Toy.externals) lens_metadata vendor_private_key
       mixed_group platform_public_key world_0) world_0.
Proof. apply N.ltb_lt. vm_compute. reflexivity. Qed.

(** C1 on the scenario: the selective writer, then [read]. *)
Lemma selective_round_trip_witness :
  fst (read (E := Toy.externals) lens_path platform_private_key
         vendor_public_key true world_selective)
    = Ok (selective_written (E := Toy.externals) lens_metadata
            vendor_private_key mixed_group platform_public_key world_0,
          restored mixed_group) /\
  surfaces (restored mixed_group) =
    [surface_0; surface_1; redacted_placeholder 2; surface_3].
Proof.
  destruct (selective_round_trip Toy.externals lens_path mixed_group
              lens_metadata vendor_private_key platform_private_key world_0
              ToyLaws.open_seal ToyLaws.seal_nonempty ToyLaws.b64
              ToyLaws.json_roundtrip ToyLaws.sign_verify
              ToyLaws.header_roundtrip mixed_group_valid
              mixed_group_json_safe (or_introl eq_refl) lens_header_fits)
    as (_ & Hread & _).
  split; [exact Hread | reflexivity].
Defined.

Lemma content_selective_written :
  w_fs (snd (write_with (E := Toy.externals) true lens_path mixed_group
               lens_metadata vendor_private_key platform_public_key
               world_0)) lens_path
  = Regular content_selective.
Proof. vm_compute. reflexivity. Qed.

Lemma last_index_in_payload :
  (payload_offset content_selective <= last_index
   < List.length content_selective)%nat.
Proof.
  split; [apply Nat.leb_le | apply Nat.ltb_lt]; vm_compute; reflexivity.
Qed.

Lemma replacement_differs :
  nth last_index content_selective x00 <> replacement.
Proof. vm_compute. discriminate. Qed.

(** C3 on the scenario: the last byte of the written file is replaced,
    and [read] raises [InvalidSignatureError]. *)
Lemma tamper_detection_witness :
  fst (read (E := Toy.externals) lens_path platform_private_key
         vendor_public_key true world_tampered)
  = Raise InvalidSignatureError.
Proof.
  exact (proj1
    (tamper_detection (E := Toy.externals) true lens_path mixed_group
       lens_metadata written_selective vendor_private_key
       platform_private_key platform_public_key world_0 world_tampered
       content_selective last_index replacement
       ToyLaws.sign_binding ToyLaws.header_roundtrip ToyLaws.magic
       written_selective_ok content_selective_written last_index_in_payload
       replacement_differs eq_refl)).
Defined.

Lemma container_selective_read :
  fst (read_container (E := Toy.externals) lens_path world_selective)
  = Ok (fst container_selective, snd container_selective).
Proof. vm_compute. reflexivity. Qed.

Lemma container_selective_format :
  payload_format (E := Toy.externals) (snd container_selective) = Selective.
Proof. vm_compute. reflexivity. Qed.

Lemma container_selective_well_formed (e : exn) :
  fst (read_and_decrypt_selective (E := Toy.externals) lens_path
         platform_private_key vendor_public_key true world_selective)
  <> Raise e.
Proof. vm_compute. discriminate. Qed.

Lemma digits_container_read :
  fst (read_container (E := Toy.externals) lens_path Digits.world_digits)
  = Ok (Locked.header_locked, Digits.payload_digits).
Proof. vm_compute. reflexivity. Qed.

Lemma digits_payload_raises :
  json_loads (Externals := Toy.externals) Digits.payload_digits
  = JsonBadNumber.
Proof. vm_compute. reflexivity. Qed.

(** C6 on the scenario.  On the file that the selective writer wrote,
    [read] does what [read_and_decrypt_selective] does.  On the container
    whose payload is 5000 digits, [read] raises [ValueError], and
    [read_and_decrypt] does not. *)
Lemma read_auto_detects_witness :
  (read (E := Toy.externals) lens_path platform_private_key
     vendor_public_key true world_selective
   = read_and_decrypt_selective (E := Toy.externals) lens_path
       platform_private_key vendor_public_key true world_selective) /\
  fst (read (E := Toy.externals) lens_path platform_private_key
         vendor_public_key false Digits.world_digits) = Raise ValueError /\
  fst (read_and_decrypt (E := Toy.externals) lens_path platform_private_key
         vendor_public_key false Digits.world_digits) <> Raise ValueError.
Proof.
  split.
  - exact (proj1 (proj2
      (read_auto_detects (E := Toy.externals) lens_path platform_private_key
         vendor_public_key true world_selective (fst container_selective)
         (snd container_selective) container_selective_read))
      container_selective_format
      (container_selective_well_formed JSONDecodeError)
      (container_selective_well_formed UnicodeDecodeError)).
  - destruct (proj2 (proj2 (proj2
      (read_auto_detects (E := Toy.externals) lens_path platform_private_key
         vendor_public_key false Digits.world_digits Locked.header_locked
         Digits.payload_digits digits_container_read)))
      ValueError (or_intror (conj digits_payload_raises eq_refl))
      ltac:(discriminate)) as (Hread & _ & Hfull & _).
    split; [exact Hread | exact Hfull].
Defined.

Lemma public_group_has_no_encrypted_surface :
  Forall (fun s => visibility s <> ENCRYPTED) (surfaces public_group).
Proof. repeat constructor; discriminate. Qed.

(** C7 on the scenario: a group of public surfaces. *)
Lemma zero_encrypted_surfaces_path_witness :
  exists payload,
    encrypt_payload_selective (E := Toy.externals) public_group
      platform_public_key world_0 =
      (Ok (payload, 1100),
       mkWorld (w_fs world_0) (w_random world_0) 1 (w_now world_0)
               [EvGenerateKeypair]) /\
    jd_encrypted_surfaces_data payload = Some EmptyString.
Proof.
  exact (zero_encrypted_surfaces_path (E := Toy.externals) public_group
           platform_public_key world_0
           public_group_has_no_encrypted_surface).
Defined.

Lemma not_obb_magic_differs :
  firstn 4 [x4e; x4f; x54; x5f; x4f; x42; x42]
  <> OBB_MAGIC (Externals := Toy.externals).
Proof. vm_compute. discriminate. Qed.

(** C8 on the scenario: a file that starts with other bytes. *)
Lemma read_metadata_rejects_wrong_magic_witness :
  fst (read_metadata (E := Toy.externals) lens_path world_not_obb)
  = Raise InvalidMagicBytesError.
Proof.
  exact (read_metadata_rejects_wrong_magic (E := Toy.externals) lens_path
           world_not_obb [x4e; x4f; x54; x5f; x4f; x42; x42]
           ToyLaws.magic eq_refl not_obb_magic_differs).
Defined.

Lemma surface_0_in_mixed_group : In surface_0 (surfaces mixed_group).
Proof. left. reflexivity. Qed.

(** C10 on the scenario: the surface built from [plain_kwargs] in the
    mixed group. *)
Lemma default_visibility_is_public_witness :
  visibility surface_0 = PUBLIC /\
  exists payload ephemeral_public w' new redacted encrypted,
    encrypt_payload_selective (E := Toy.externals) mixed_group
      platform_public_key world_0 = (Ok (payload, ephemeral_public), w') /\
    w_trace w' = new ++ w_trace world_0 /\
    jd_redacted_surface_indices payload
      = Some (map surface_number redacted) /\
    incl redacted (surfaces mixed_group) /\
    Forall (fun s' => visibility s' = REDACTED) redacted /\
    ~ In surface_0 redacted /\
    incl encrypted (surfaces mixed_group) /\
    Forall (fun s' => visibility s' = ENCRYPTED) encrypted /\
    ~ In surface_0 encrypted /\
    ~ In (Surface_model_dump (E := Toy.externals) surface_0)
         (map (Surface_model_dump (E := Toy.externals)) encrypted) /\
    (forall plaintext, In (EvEncrypt plaintext) new ->
       plaintext =
         json_dumps (Externals := Toy.externals)
           (JObject
              (mkJsonDict None None None None None None None None None
                 (Some (map (Surface_model_dump (E := Toy.externals))
                          encrypted))))) /\
    jd_encrypted_surfaces_data payload =
      Some (match encrypted with
            | [] => EmptyString
            | _ :: _ =>
                b64encode (Externals := Toy.externals)
                  (hybrid_seal (Externals := Toy.externals)
                     (keygen (Externals := Toy.externals)
                        (w_random world_0 (w_drawn world_0)))
                     platform_public_key
                     (json_dumps (Externals := Toy.externals)
                        (JObject
                           (mkJsonDict None None None None None None None
                              None None
                              (Some (map (Surface_model_dump
                                            (E := Toy.externals))
                                       encrypted))))))
            end).
Proof.
  destruct (default_visibility_is_public (E := Toy.externals) plain_kwargs
              surface_0 mixed_group platform_public_key world_0
              eq_refl eq_refl surface_0_in_mixed_group)
    as (Hvis & _ & _ & _ & _ & H).
  split; [exact Hvis | exact H].
Defined.

(** * Further properties of the codec *)

(** ** The round trip in full mode *)

Section FullMode.

Context {E : Externals}.




End FullMode.





(** ** What a written file gives without a key *)

Section Inspection.

Context {E : Externals}.

(** [read_metadata] on a container: it stops behind the header. *)
Lemma read_metadata_framed (path : string) (w : world)
    (header_bytes payload : bytes) :
  w_fs w path = Regular (container_bytes header_bytes payload) ->
  (N.of_nat (List.length header_bytes) < 4294967296)%N ->
  read_metadata path w =
    (match deserialize_header header_bytes with
     | Some header => Ok (extract_metadata header)
     | None => Raise InvalidOBBFileError
     end,
     with_trace (read_trace path header_bytes) w).
Proof.
  intros Hfile Hfits.
  unfold read_metadata, read_and_verify_magic, read_length_prefixed,
    deserialize_header_or_raise, open_rb, file_read.
  unfold_M. simpl. rewrite Hfile. unfold container_bytes. simpl.
  rewrite firstn_length_app, skipn_length_app, bytes_eqb_refl. simpl.
  set (n := N.of_nat (List.length header_bytes)) in *.
  fold (u32_le n). rewrite (u32_of_le_u32_le _ Hfits).
  subst n. rewrite Nat2N.id.
  rewrite firstn_length_app, Nat.ltb_irrefl.
  destruct (deserialize_header header_bytes); reflexivity.
Qed.

(** What either writer leaves behind when it returns. *)
Lemma write_with_inv (selective : bool) (path : string)
    (surface_group : SurfaceGroup) (metadata written : OBBMetadata)
    (vendor_private_key : PrivateKey) (platform_public_key : PublicKey)
    (w : world) :
  fst (write_with selective path surface_group metadata vendor_private_key
         platform_public_key w) = Ok written ->
  written_container w
    (snd (write_with selective path surface_group metadata
            vendor_private_key platform_public_key w))
    path metadata written vendor_private_key
    (if selective
     then selective_payload_bytes surface_group
            (keygen (w_random w (w_drawn w))) platform_public_key
     else full_payload_bytes surface_group
            (keygen (w_random w (w_drawn w))) platform_public_key).
Proof.
  intros Hwrite. destruct selective; simpl in *.
  - apply write_selective_inv. exact Hwrite.
  - apply write_inv. exact Hwrite.
Qed.

End Inspection.

(** X2.  A file that [write] or [write_selective] wrote is recognised by
    [is_valid_obb_file], and [read_metadata] returns from it, without any
    key, the metadata that the writer stamped, signature and time
    included.  The file is the magic, the length of the header in four
    bytes, the header and the payload; [read_metadata] opens it and asks
    for as many bytes as the magic has, then for four bytes, then for as
    many bytes as the header has, and for nothing more: it stops where
    the payload begins and never reads the payload. *)
Theorem written_file_is_recognised (E : Externals) (selective : bool)
    (path : string) (surface_group : SurfaceGroup)
    (metadata written : OBBMetadata) (vendor_private_key : PrivateKey)
    (platform_public_key : PublicKey) (w later : world) :
  header_law E ->
  fst (write_with selective path surface_group metadata vendor_private_key
         platform_public_key w) = Ok written ->
  w_fs later path =
    w_fs (snd (write_with selective path surface_group metadata
                 vendor_private_key platform_public_key w)) path ->
  let ephemeral_private := keygen (w_random w (w_drawn w)) in
  let header_bytes :=
    serialize_header
      (build_header written (public_key ephemeral_private)) in
  let payload :=
    if selective
    then selective_payload_bytes surface_group ephemeral_private
           platform_public_key
    else full_payload_bytes surface_group ephemeral_private
           platform_public_key in
  w_fs later path =
    Regular (OBB_MAGIC ++ u32_le (N.of_nat (List.length header_bytes))
               ++ header_bytes ++ payload) /\
  fst (is_valid_obb_file path later) = Ok true /\
  read_metadata path later =
    (Ok written,
     with_trace [EvFileRead path (Some (List.length header_bytes));
                 EvFileRead path (Some 4%nat);
                 EvFileRead path (Some (List.length OBB_MAGIC));
                 EvOpen path] later).
Proof.
  intros Hheader Hwrite Hlater ephemeral_private header_bytes payload.
  destruct (write_with_inv _ _ _ _ _ _ _ _ Hwrite)
    as (Hstamp & Hfits & Hfile).
  rewrite Hfile in Hlater. fold ephemeral_private in Hlater, Hfits.
  fold header_bytes in Hlater, Hfits. fold payload in Hlater.
  split; [exact Hlater|]. split.
  - unfold is_valid_obb_file, open_rb, file_read. unfold_M. simpl.
    rewrite Hlater. unfold container_bytes. simpl.
    rewrite firstn_length_app, bytes_eqb_refl. reflexivity.
  - rewrite (read_metadata_framed _ _ _ _ Hlater Hfits).
    unfold header_bytes. rewrite Hheader. reflexivity.
Qed.

Lemma world_selective_file :
  w_fs world_selective lens_path =
    w_fs (snd (write_with (E := Toy.externals) true lens_path mixed_group
                 lens_metadata vendor_private_key platform_public_key
                 world_0)) lens_path.
Proof. vm_compute. reflexivity. Qed.

(** X2 on the scenario: the metadata of the file that the selective
    writer wrote. *)
Lemma written_file_is_recognised_witness :
  fst (read_metadata (E := Toy.externals) lens_path world_selective)
  = Ok written_selective.
Proof.
  destruct (written_file_is_recognised Toy.externals true lens_path
              mixed_group lens_metadata written_selective vendor_private_key
              platform_public_key world_0 world_selective
              ToyLaws.header_roundtrip written_selective_ok
              world_selective_file)
    as (_ & _ & Hread).
  rewrite Hread. reflexivity.
Defined.

(** ** Files that are not containers *)

(** X3.  On a file that does not start with the magic bytes, each of the
    three decrypting readers, with or without signature verification,
    raises [InvalidMagicBytesError] after it opened the file and asked
    once for as many bytes as the magic has: nothing is verified and
    nothing is decrypted. *)
Theorem readers_reject_wrong_magic (E : Externals) (path : string)
    (platform_private_key : PrivateKey) (vendor_public_key : PublicKey)
    (verify_signature : bool) (w : world) (content : bytes) :
  w_fs w path = Regular content ->
  firstn (List.length OBB_MAGIC) content <> OBB_MAGIC ->
  let w' := with_trace [EvFileRead path (Some (List.length OBB_MAGIC));
                        EvOpen path] w in
  read path platform_private_key vendor_public_key verify_signature w
    = (Raise InvalidMagicBytesError, w') /\
  read_and_decrypt path platform_private_key vendor_public_key
      verify_signature w
    = (Raise InvalidMagicBytesError, w') /\
  read_and_decrypt_selective path platform_private_key vendor_public_key
      verify_signature w
    = (Raise InvalidMagicBytesError, w').
Proof.
  intros Hfile Hmagic w'.
  assert (Hread : read_container path w = (Raise InvalidMagicBytesError, w')).
  { unfold read_container, read_and_verify_magic, open_rb, file_read.
    unfold_M. simpl. rewrite Hfile. simpl.
    rewrite (bytes_eqb_neq _ _ Hmagic). reflexivity. }
  unfold read, read_and_decrypt, read_and_decrypt_selective.
  rewrite !(bind_raise _ _ _ _ _ Hread). repeat split.
Qed.

(** X3 on the scenario: a file that starts with other bytes. *)
Lemma readers_reject_wrong_magic_witness :
  fst (read (E := Toy.externals) lens_path platform_private_key
         vendor_public_key true world_not_obb)
  = Raise InvalidMagicBytesError.
Proof.
  destruct (readers_reject_wrong_magic Toy.externals lens_path
              platform_private_key vendor_public_key true world_not_obb
              [x4e; x4f; x54; x5f; x4f; x42; x42] eq_refl
              not_obb_magic_differs) as (Hread & _).
  rewrite Hread. reflexivity.
Defined.

(** ** What the readers and the writers leave alone *)

Lemma records_ret {A} (allowed : event -> bool) (a : A) :
  records allowed (ret a).
Proof. intros w. exists []. split; [symmetry; apply with_trace_nil|reflexivity]. Qed.

Lemma records_raise {A} (allowed : event -> bool) (e : exn) :
  records allowed (@raise A e).
Proof. intros w. exists []. split; [symmetry; apply with_trace_nil|reflexivity]. Qed.

Lemma records_lift {A} (allowed : event -> bool) (x : outcome A) :
  records allowed (lift x).
Proof. intros w. exists []. split; [symmetry; apply with_trace_nil|reflexivity]. Qed.

Lemma records_get_file (allowed : event -> bool) (path : string) :
  records allowed (get_file path).
Proof. intros w. exists []. split; [symmetry; apply with_trace_nil|reflexivity]. Qed.

Lemma records_log (allowed : event -> bool) (ev : event) :
  allowed ev = true -> records allowed (log ev).
Proof.
  intros Hev w. exists [ev]. split; [reflexivity|]. simpl. rewrite Hev.
  reflexivity.
Qed.

Lemma records_bind {A B} (allowed : event -> bool) (m : M A) (k : A -> M B) :
  records allowed m -> (forall a, records allowed (k a)) ->
  records allowed (bind m k).
Proof.
  intros Hm Hk w. unfold bind.
  destruct (Hm w) as (new1 & H1 & Ha1).
  destruct (m w) as [[a|e] w1]; simpl in H1; subst w1.
  - destruct (Hk a (with_trace new1 w)) as (new2 & H2 & Ha2).
    exists (new2 ++ new1). rewrite H2, with_trace_app.
    split; [reflexivity|]. rewrite forallb_app, Ha1, Ha2. reflexivity.
  - exists new1. split; [reflexivity | exact Ha1].
Qed.

Lemma records_try_except {A} (allowed : event -> bool) (m : M A)
    (handler : exn -> M A) :
  records allowed m -> (forall e, records allowed (handler e)) ->
  records allowed (try_except m handler).
Proof.
  intros Hm Hh w. unfold try_except.
  destruct (Hm w) as (new1 & H1 & Ha1).
  destruct (m w) as [[a|e] w1]; simpl in H1; subst w1.
  - exists new1. split; [reflexivity | exact Ha1].
  - destruct (Hh e (with_trace new1 w)) as (new2 & H2 & Ha2).
    exists (new2 ++ new1). rewrite H2, with_trace_app.
    split; [reflexivity|]. rewrite forallb_app, Ha1, Ha2. reflexivity.
Qed.

(** Proves [records] of a computation built from the constructs above and
    from pattern matching. *)
Ltac records_tac :=
  repeat first
    [ apply records_ret | apply records_raise | apply records_lift
    | apply records_get_file
    | apply records_log; reflexivity
    | apply records_bind; [|intros ?]
    | apply records_try_except; [|intros ?]
    | match goal with
      | |- records _ (match ?x with _ => _ end) => destruct x
      | |- records _ (if ?x then _ else _) => destruct x
      end ].

Section ReadOnly.

Context {E : Externals}.

Variable allowed : event -> bool.

Hypothesis allowed_open : forall path, allowed (EvOpen path) = true.
Hypothesis allowed_read :
  forall path size, allowed (EvFileRead path size) = true.

Lemma records_open_rb (path : string) : records allowed (open_rb path).
Proof.
  unfold open_rb.
  apply records_bind; [apply records_log, allowed_open | intros ?].
  records_tac.
Qed.

Lemma records_file_read (f : handle) (size : option nat) :
  records allowed (file_read f size).
Proof.
  unfold file_read.
  apply records_bind; [apply records_log, allowed_read | intros ?].
  records_tac.
Qed.

Lemma records_read_length_prefixed (f : handle) :
  records allowed (read_length_prefixed f).
Proof.
  unfold read_length_prefixed.
  apply records_bind; [apply records_file_read | intros [lb f1]].
  destruct (_ <? 4)%nat; [apply records_raise|].
  apply records_bind; [apply records_file_read | intros [data f2]].
  records_tac.
Qed.

Lemma records_read_metadata (path : string) :
  records allowed (read_metadata path).
Proof.
  unfold read_metadata, read_and_verify_magic, deserialize_header_or_raise.
  apply records_bind; [apply records_open_rb | intros f].
  apply records_bind.
  - apply records_bind; [apply records_file_read | intros [m f1]].
    apply records_ret.
  - intros [ok f1]. destruct (negb ok); [apply records_raise|].
    apply records_bind; [apply records_read_length_prefixed | intros [hb f2]].
    records_tac.
Qed.

Lemma records_read_container (path : string) :
  records allowed (read_container path).
Proof.
  unfold read_container, read_and_verify_magic, deserialize_header_or_raise,
    read_rest.
  apply records_bind; [apply records_open_rb | intros f].
  apply records_bind.
  - apply records_bind; [apply records_file_read | intros [m f1]].
    apply records_ret.
  - intros [ok f1]. destruct (negb ok); [apply records_raise|].
    apply records_bind; [apply records_read_length_prefixed | intros [hb f2]].
    apply records_bind; [records_tac | intros header].
    apply records_bind; [apply records_file_read | intros [p f3]].
    apply records_ret.
Qed.

Lemma records_is_valid_obb_file (path : string) :
  records allowed (is_valid_obb_file path).
Proof.
  unfold is_valid_obb_file.
  apply records_try_except; [|intros ?; apply records_ret].
  apply records_bind; [apply records_open_rb | intros f].
  apply records_bind; [apply records_file_read | intros [m f1]].
  apply records_ret.
Qed.

Hypothesis allowed_decrypt : forall c, allowed (EvDecrypt c) = true.

Lemma records_decrypt (c : bytes) (pk : PublicKey) (k : PrivateKey) :
  records allowed (OBBEncryptor_decrypt c pk k).
Proof.
  unfold OBBEncryptor_decrypt.
  apply records_bind; [apply records_log, allowed_decrypt | intros ?].
  records_tac.
Qed.

Lemma records_decrypt_payload (c : bytes) (pk : PublicKey) (k : PrivateKey) :
  records allowed (decrypt_payload c pk k).
Proof.
  unfold decrypt_payload.
  apply records_bind; [apply records_decrypt | intros ?].
  apply records_lift.
Qed.

Lemma records_decrypt_payload_selective (d : json_dict) (pk : PublicKey)
    (k : PrivateKey) :
  records allowed (decrypt_payload_selective d pk k).
Proof.
  unfold decrypt_payload_selective.
  apply records_bind; [apply records_lift | intros ?].
  apply records_bind; [|intros ?].
  - destruct (get (jd_encrypted_surfaces_data d) EmptyString);
      [apply records_ret|].
    apply records_bind; [records_tac | intros ?].
    apply records_bind; [apply records_decrypt | intros ?].
    records_tac.
  - records_tac.
Qed.

(** The three decrypting readers behind a given signature check. *)
Lemma records_readers (path : string) (platform_private_key : PrivateKey)
    (vendor_public_key : PublicKey) (verify_signature : bool) :
  (forall payload metadata,
     records allowed
       (check_signature verify_signature payload metadata
          vendor_public_key)) ->
  records allowed
    (read path platform_private_key vendor_public_key verify_signature) /\
  records allowed
    (read_and_decrypt path platform_private_key vendor_public_key
       verify_signature) /\
  records allowed
    (read_and_decrypt_selective path platform_private_key vendor_public_key
       verify_signature).
Proof.
  intros Hcheck. split; [|split].
  - unfold read, json_loads_or_raise.
    apply records_bind; [apply records_read_container | intros [h p]].
    apply records_bind; [apply Hcheck | intros ?].
    apply records_bind; [|intros ?; apply records_ret].
    apply records_try_except.
    + apply records_bind; [records_tac | intros payload].
      destruct payload as [d|]; [|apply records_decrypt_payload].
      destruct (is_selective (JObject d));
        [apply records_decrypt_payload_selective
        |apply records_decrypt_payload].
    + intros e.
      destruct e; try apply records_raise; apply records_decrypt_payload.
  - unfold read_and_decrypt.
    apply records_bind; [apply records_read_container | intros [h p]].
    apply records_bind; [apply Hcheck | intros ?].
    apply records_bind; [apply records_decrypt_payload | intros ?].
    apply records_ret.
  - unfold read_and_decrypt_selective, json_loads_or_raise.
    apply records_bind; [apply records_read_container | intros [h p]].
    apply records_bind; [apply Hcheck | intros ?].
    apply records_bind; [records_tac | intros payload].
    apply records_bind; [|intros ?; apply records_ret].
    destruct payload as [d|];
      [apply records_decrypt_payload_selective | apply records_raise].
Qed.

End ReadOnly.

Section Checks.

Context {E : Externals}.

Lemma records_check_signature (verify_signature : bool) (payload : bytes)
    (metadata : OBBMetadata) (vendor_public_key : PublicKey) :
  records is_reader_event
    (check_signature verify_signature payload metadata vendor_public_key).
Proof.
  unfold check_signature, verify_payload_signature, OBBSigner_verify.
  destruct verify_signature; records_tac.
Qed.

Lemma records_check_signature_off (payload : bytes)
    (metadata : OBBMetadata) (vendor_public_key : PublicKey) :
  records is_unverified_reader_event
    (check_signature false payload metadata vendor_public_key).
Proof. apply records_ret. Qed.

End Checks.

(** X4.  The readers are read-only.  [read_metadata] and
    [is_valid_obb_file] do nothing but open and read the file; the three
    decrypting readers do nothing but open and read the file, verify and
    decrypt: they never write a file, generate a key, encrypt or sign, and
    they leave the file system, the random source and the clock as they
    found them.  With [verify_signature=False] they record no verification
    either. *)
Theorem readers_are_read_only (E : Externals) (path : string)
    (platform_private_key : PrivateKey) (vendor_public_key : PublicKey)
    (verify_signature : bool) :
  records is_file_event (read_metadata path) /\
  records is_file_event (is_valid_obb_file path) /\
  records is_reader_event
    (read path platform_private_key vendor_public_key verify_signature) /\
  records is_reader_event
    (read_and_decrypt path platform_private_key vendor_public_key
       verify_signature) /\
  records is_reader_event
    (read_and_decrypt_selective path platform_private_key vendor_public_key
       verify_signature) /\
  records is_unverified_reader_event
    (read path platform_private_key vendor_public_key false) /\
  records is_unverified_reader_event
    (read_and_decrypt path platform_private_key vendor_public_key false) /\
  records is_unverified_reader_event
    (read_and_decrypt_selective path platform_private_key vendor_public_key
       false).
Proof.
  split; [apply records_read_metadata; reflexivity|].
  split; [apply records_is_valid_obb_file; reflexivity|].
  destruct (records_readers is_reader_event ltac:(reflexivity)
              ltac:(reflexivity) ltac:(reflexivity) path
              platform_private_key vendor_public_key verify_signature)
    as (H1 & H2 & H3).
  { intros payload metadata. apply records_check_signature. }
  destruct (records_readers is_unverified_reader_event ltac:(reflexivity)
              ltac:(reflexivity) ltac:(reflexivity) path
              platform_private_key vendor_public_key false)
    as (H4 & H5 & H6).
  { intros payload metadata. apply records_check_signature_off. }
  repeat split; assumption.
Qed.

(** ** A refused output path *)



(** ** Redacted surfaces stay out of the file *)

Lemma restore_visibility (s : Surface) : visibility (restore s) = visibility s.
Proof. unfold restore. destruct (visibility s) eqn:H; simpl; congruence. Qed.

Lemma restore_kept (s : Surface) :
  visibility s <> REDACTED -> restore s = s.
Proof. unfold restore. destruct (visibility s); congruence. Qed.

Lemma filter_restore_kept (v : SurfaceVisibility) (l : list Surface) :
  v <> REDACTED ->
  filter (fun s => SurfaceVisibility_eqb (visibility s) v) (map restore l)
  = filter (fun s => SurfaceVisibility_eqb (visibility s) v) l.
Proof.
  intros Hv. induction l as [|s l IH]; simpl; [reflexivity|].
  rewrite restore_visibility, IH.
  destruct (SurfaceVisibility_eqb (visibility s) v) eqn:Heq; [|reflexivity].
  apply SurfaceVisibility_eqb_eq in Heq. rewrite restore_kept; congruence.
Qed.

Lemma filter_restore_redacted (l : list Surface) :
  map surface_number
    (filter (fun s => SurfaceVisibility_eqb (visibility s) REDACTED)
       (map restore l))
  = map surface_number
      (filter (fun s => SurfaceVisibility_eqb (visibility s) REDACTED) l).
Proof.
  induction l as [|s l IH]; simpl; [reflexivity|].
  rewrite restore_visibility.
  destruct (SurfaceVisibility_eqb (visibility s) REDACTED); simpl;
    [rewrite restore_surface_number|]; rewrite IH; reflexivity.
Qed.

(** X6.  The selective writer takes nothing from a redacted surface but
    its number: the result and the world after [write_selective], and so
    the bytes of the file, are the same for a group and for the group with
    every redacted surface replaced by the default placeholder of its
    number. *)
Theorem redacted_data_stays_out (E : Externals) (path : string)
    (surface_group : SurfaceGroup) (metadata : OBBMetadata)
    (vendor_private_key : PrivateKey) (platform_public_key : PublicKey)
    (w : world) :
  write_selective path (blanked surface_group) metadata vendor_private_key
    platform_public_key w
  = write_selective path surface_group metadata vendor_private_key
      platform_public_key w.
Proof.
  assert (Henc : get_encrypted_surfaces (blanked surface_group)
                 = get_encrypted_surfaces surface_group).
  { unfold get_encrypted_surfaces, blanked. simpl.
    apply filter_restore_kept. discriminate. }
  assert (Hpayload : forall data,
    selective_payload (blanked surface_group) data
    = selective_payload surface_group data).
  { intros data. unfold selective_payload, get_public_surfaces,
      get_redacted_surfaces, blanked. simpl.
    rewrite filter_restore_kept by discriminate.
    rewrite filter_restore_redacted. reflexivity. }
  assert (Hencrypt : forall w0,
    encrypt_payload_selective (blanked surface_group) platform_public_key w0
    = encrypt_payload_selective surface_group platform_public_key w0).
  { intros w0. unfold encrypt_payload_selective. rewrite Henc.
    destruct (get_encrypted_surfaces surface_group); unfold bind;
      match goal with
      | |- context [match ?m w0 with _ => _ end] => destruct (m w0) as [[[a b]|e] w1]
      end; rewrite ?Hpayload; reflexivity. }
  unfold write_selective, _write_selective_to_stream.
  unfold bind at 1. unfold bind at 7.
  destruct (open_wb path w) as [[[]|e] w0]; [|reflexivity].
  unfold bind at 1. unfold bind at 6. rewrite Hencrypt. reflexivity.
Qed.

(** ** Reading without verification, reading without a key *)

Section SelectiveReaders.

Context {E : Externals}.

(** The two readers of selective containers on a container whose payload
    is the JSON text of a selective payload that the selective codec reads
    as the group [g], in the world [after] when it starts in [before]; the
    signature verifies when it is checked. *)
Lemma selective_readers_run (path : string) (w : world)
    (header : OBBHeader PublicKey) (payload_dict : json_dict)
    (platform_private_key : PrivateKey) (vendor_public_key : PublicKey)
    (verify_signature : bool) (g : SurfaceGroup)
    (after : world -> world) :
  let header_bytes := serialize_header header in
  let payload := json_dumps (JObject payload_dict) in
  let read_world :=
    with_trace (EvFileRead path None :: read_trace path header_bytes) w in
  let checked_world :=
    if verify_signature then
      with_trace [EvVerify payload (Some true)] read_world
    else read_world in
  header_law E -> json_law E ->
  w_fs w path = Regular (container_bytes header_bytes payload) ->
  (N.of_nat (List.length header_bytes) < 4294967296)%N ->
  (verify_signature = true ->
   ecdsa_verify vendor_public_key payload (signature (h_metadata header))
   = Some true) ->
  jd_encryption_mode payload_dict = Some "selective" ->
  (forall w0,
     decrypt_payload_selective payload_dict (h_ephemeral_public_key header)
       platform_private_key w0 = (Ok g, after w0)) ->
  read path platform_private_key vendor_public_key verify_signature w
    = (Ok (h_metadata header, g), after checked_world) /\
  read_and_decrypt_selective path platform_private_key vendor_public_key
      verify_signature w
    = (Ok (h_metadata header, g), after checked_world).
Proof.
  intros header_bytes payload read_world checked_world Hheader Hjson Hfile
    Hfits Hverify Hmode Hdecrypt.
  pose proof (read_container_framed path w header_bytes payload Hfile Hfits)
    as Hread.
  unfold header_bytes in Hread at 1. rewrite Hheader in Hread.
  fold read_world in Hread.
  assert (Hcheck :
    check_signature verify_signature payload (extract_metadata header)
      vendor_public_key read_world = (Ok tt, checked_world)).
  { rewrite check_signature_run. subst checked_world.
    destruct verify_signature; [|reflexivity].
    unfold extract_metadata. rewrite (Hverify eq_refl). reflexivity. }
  split.
  - unfold read. rewrite (bind_run _ _ _ _ _ Hread).
    rewrite (bind_run _ _ _ _ _ Hcheck).
    unfold extract_metadata, extract_ephemeral_key.
    unfold try_except, json_loads_or_raise, bind, ret, is_selective.
    subst payload. rewrite Hjson, Hmode. simpl. rewrite Hdecrypt.
    reflexivity.
  - unfold read_and_decrypt_selective. rewrite (bind_run _ _ _ _ _ Hread).
    rewrite (bind_run _ _ _ _ _ Hcheck).
    unfold extract_metadata, extract_ephemeral_key.
    unfold json_loads_or_raise, bind, ret.
    subst payload. rewrite Hjson. simpl. rewrite Hdecrypt. reflexivity.
Qed.

(** The selective codec on the payload of a group without encrypted
    surfaces: it returns the restored group and records nothing. *)
Lemma decrypt_clear_payload (g : SurfaceGroup) (pk : PublicKey)
    (k : PrivateKey) (w : world) :
  SurfaceGroup_valid g -> SurfaceGroup_json_safe g ->
  get_encrypted_surfaces g = [] ->
  decrypt_payload_selective (selective_payload g (Some EmptyString)) pk k w
  = (Ok (restored g), w).
Proof.
  intros Hvalid Hsafe Henc.
  unfold decrypt_payload_selective. simpl.
  unfold get_public_surfaces at 1.
  rewrite (omap_validate_dump _ (filter_valid g PUBLIC Hvalid)
             (filter_json_safe g PUBLIC Hsafe ltac:(discriminate))).
  unfold lift at 1. unfold bind at 1.
  rewrite (omap_placeholders (get_redacted_surfaces g)
             (filter_valid g REDACTED Hvalid)).
  fold (get_public_surfaces g).
  unfold_M. simpl.
  pose proof (SurfaceGroup_init_restored g Hvalid) as Hinit.
  rewrite map_restore_partitioned, Henc in Hinit. simpl in Hinit.
  rewrite Hinit. reflexivity.
Qed.

End SelectiveReaders.

(** X7.  With [verify_signature=False] the vendor's public key plays no
    part: on the file that [write_selective] wrote for a valid group,
    [read] and [read_and_decrypt_selective] called with any vendor public
    key whatever return the stamped metadata and the restored group. *)
Theorem unverified_read_needs_no_vendor_key (E : Externals)
    (path : string) (surface_group : SurfaceGroup) (metadata : OBBMetadata)
    (vendor_private_key platform_private_key : PrivateKey)
    (any_vendor_key : PublicKey) (w : world) :
  open_seal_law E -> seal_nonempty_law E -> b64_law E -> json_law E ->
  header_law E ->
  SurfaceGroup_valid surface_group ->
  SurfaceGroup_json_safe surface_group ->
  writable (w_fs w path) ->
  header_fits
    (selective_written metadata vendor_private_key surface_group
       (public_key platform_private_key) w) w ->
  let written :=
    selective_written metadata vendor_private_key surface_group
      (public_key platform_private_key) w in
  let w' := snd (write_selective path surface_group metadata
                   vendor_private_key (public_key platform_private_key) w) in
  fst (read path platform_private_key any_vendor_key false w')
    = Ok (written, restored surface_group) /\
  fst (read_and_decrypt_selective path platform_private_key any_vendor_key
         false w')
    = Ok (written, restored surface_group).
Proof.
  intros Hopen Hnonempty Hb64 Hjson Hheader Hvalid Hsafe Hwritable Hfits
    written w'.
  pose proof (write_selective_returns path surface_group metadata
                vendor_private_key (public_key platform_private_key) w
                Hwritable Hfits) as Hwrite.
  fold written in Hwrite.
  destruct (write_selective_inv _ _ _ _ _ _ _ Hwrite)
    as (Hwritten & Hfits' & Hfile).
  fold w' in Hfile.
  set (eph := keygen (w_random w (w_drawn w))) in *.
  set (d := selective_payload surface_group
              (Some (encrypted_blob_b64 surface_group eph
                       (public_key platform_private_key)))).
  assert (Hdecrypt : forall w0,
    decrypt_payload_selective d (public_key eph) platform_private_key w0
    = (Ok (restored surface_group),
       snd (decrypt_payload_selective d (public_key eph)
              platform_private_key w0))).
  { intros w0.
    destruct (decrypt_payload_selective_run surface_group eph
                platform_private_key w0 Hopen Hnonempty Hb64 Hjson Hvalid
                Hsafe) as (w1 & Hrun & _).
    subst d. rewrite Hrun. reflexivity. }
  destruct (selective_readers_run path w'
              (build_header written (public_key eph)) d
              platform_private_key any_vendor_key false
              (restored surface_group) _ Hheader Hjson Hfile Hfits'
              ltac:(discriminate) eq_refl Hdecrypt) as (Hr & Hs).
  rewrite Hr, Hs. split; reflexivity.
Qed.

(** X7 on the scenario: the vendor key 0 is the key of nobody. *)
Lemma unverified_read_needs_no_vendor_key_witness :
  fst (read (E := Toy.externals) lens_path platform_private_key 0 false
         world_selective)
  = Ok (selective_written (E := Toy.externals) lens_metadata
          vendor_private_key mixed_group platform_public_key world_0,
        restored mixed_group).
Proof.
  exact (proj1
    (unverified_read_needs_no_vendor_key Toy.externals lens_path mixed_group
       lens_metadata vendor_private_key platform_private_key 0 world_0
       ToyLaws.open_seal ToyLaws.seal_nonempty ToyLaws.b64
       ToyLaws.json_roundtrip ToyLaws.header_roundtrip mixed_group_valid
       mixed_group_json_safe (or_introl eq_refl) lens_header_fits)).
Defined.

(** X8.  A file that [write_selective] wrote for a group without
    encrypted surfaces opens with any private key: [read] and
    [read_and_decrypt_selective], with signature verification and whatever
    platform key, return the stamped metadata and the restored group, and
    all they do is read the file and verify the signature; no decryption
    takes place. *)
Theorem clear_file_opens_with_any_key (E : Externals)
    (path : string) (surface_group : SurfaceGroup) (metadata : OBBMetadata)
    (vendor_private_key any_private_key : PrivateKey)
    (platform_public_key : PublicKey) (w : world) :
  json_law E -> sign_verify_law E -> header_law E ->
  SurfaceGroup_valid surface_group ->
  SurfaceGroup_json_safe surface_group ->
  get_encrypted_surfaces surface_group = [] ->
  writable (w_fs w path) ->
  header_fits
    (selective_written metadata vendor_private_key surface_group
       platform_public_key w) w ->
  let written :=
    selective_written metadata vendor_private_key surface_group
      platform_public_key w in
  let w' := snd (write_selective path surface_group metadata
                   vendor_private_key platform_public_key w) in
  exists payload io,
    forallb is_file_event io = true /\
    read path any_private_key (public_key vendor_private_key) true w'
      = (Ok (written, restored surface_group),
         with_trace (EvVerify payload (Some true) :: io) w') /\
    read_and_decrypt_selective path any_private_key
        (public_key vendor_private_key) true w'
      = (Ok (written, restored surface_group),
         with_trace (EvVerify payload (Some true) :: io) w').
Proof.
  intros Hjson Hsign Hheader Hvalid Hsafe Henc Hwritable Hfits written w'.
  pose proof (write_selective_returns path surface_group metadata
                vendor_private_key platform_public_key w
                Hwritable Hfits) as Hwrite.
  fold written in Hwrite.
  destruct (write_selective_inv _ _ _ _ _ _ _ Hwrite)
    as (Hwritten & Hfits' & Hfile).
  fold w' in Hfile.
  set (eph := keygen (w_random w (w_drawn w))) in *.
  unfold selective_payload_bytes, encrypted_blob_b64 in Hfile, Hwritten.
  rewrite Henc in Hfile, Hwritten.
  set (d := selective_payload surface_group (Some EmptyString)) in *.
  set (header := build_header written (public_key eph)) in *.
  destruct (selective_readers_run path w' header d any_private_key
              (public_key vendor_private_key) true
              (restored surface_group) (fun w0 => w0)
              Hheader Hjson Hfile Hfits') as (Hr & Hs).
  - intros _. subst header. cbn [h_metadata build_header].
    rewrite Hwritten at 1. rewrite stamp_signature. apply Hsign.
  - reflexivity.
  - intros w0. apply decrypt_clear_payload; assumption.
  - exists (json_dumps (JObject d)),
      (EvFileRead path None :: read_trace path (serialize_header header)).
    split; [reflexivity|].
    rewrite Hr, Hs. cbn [h_metadata header build_header].
    rewrite with_trace_app. split; reflexivity.
Qed.

Lemma public_group_valid : SurfaceGroup_valid public_group.
Proof.
  unfold SurfaceGroup_valid, Surface_valid. simpl.
  repeat split; try discriminate; try reflexivity; try lia.
  repeat constructor; simpl; try lia; discriminate.
Qed.

Lemma public_group_json_safe :
  SurfaceGroup_json_safe (E := Toy.externals) public_group.
Proof.
  unfold SurfaceGroup_json_safe, Surface_json_safe. simpl.
  repeat (apply Forall_cons; [right; repeat split; repeat constructor|]).
  apply Forall_nil.
Qed.

Lemma public_header_fits :
  header_fits (E := Toy.externals)
    (selective_written (E := Toy.externals) lens_metadata vendor_private_key
       public_group platform_public_key world_0) world_0.
Proof. apply N.ltb_lt. vm_compute. reflexivity. Qed.

(** X8 on the scenario: the group of public surfaces, read with the
    private key 999. *)
Lemma clear_file_opens_with_any_key_witness :
  exists w'',
    read (E := Toy.externals) lens_path 999
      (public_key (Externals := Toy.externals) vendor_private_key) true
      (snd (write_selective (E := Toy.externals) lens_path public_group
              lens_metadata vendor_private_key platform_public_key world_0))
    = (Ok (selective_written (E := Toy.externals) lens_metadata
             vendor_private_key public_group platform_public_key world_0,
           restored public_group), w'').
Proof.
  destruct (clear_file_opens_with_any_key Toy.externals lens_path
              public_group lens_metadata vendor_private_key 999
              platform_public_key world_0
              ToyLaws.json_roundtrip ToyLaws.sign_verify
              ToyLaws.header_roundtrip public_group_valid
              public_group_json_safe eq_refl (or_introl eq_refl)
              public_header_fits)
    as (payload & io & _ & Hread & _).
  eexists. exact Hread.
Defined.

(** ** What the selective codec returns on any payload *)

Lemma omap_inv {A B} (f : A -> outcome B) (l : list A) (l' : list B) :
  omap f l = Ok l' -> Forall2 (fun a b => f a = Ok b) l l'.
Proof.
  revert l'. induction l as [|a l IH]; intros l' H; simpl in H.
  - injection H as <-. constructor.
  - destruct (f a) as [b|] eqn:Hb; simpl in H; [|discriminate H].
    destruct (omap f l) as [bs|]; simpl in H; [|discriminate H].
    injection H as <-. constructor; [exact Hb | apply IH; reflexivity].
Qed.

Lemma omap_init_valid (l : list surface_kwargs) (l' : list Surface) :
  omap Surface_model_validate l = Ok l' -> Forall Surface_valid l'.
Proof.
  intros H. apply omap_inv in H.
  induction H as [|kw s l l' Hs _ IH]; constructor; [|exact IH].
  exact (Surface_init_valid kw s Hs).
Qed.

Lemma omap_placeholders_inv (idxs : list Z) (l : list Surface) :
  omap (fun idx => Surface_init (redacted_kwargs idx)) idxs = Ok l ->
  l = map redacted_placeholder idxs /\ Forall (fun idx => 0 <= idx) idxs.
Proof.
  intros H. apply omap_inv in H.
  induction H as [|idx s idxs l Hs _ [IH1 IH2]]; [split; constructor|].
  rewrite Surface_init_redacted_kwargs in Hs.
  destruct (Z.ltb_spec idx 0); [discriminate Hs|].
  split; [simpl; congruence | constructor; assumption].
Qed.

Lemma FieldType_of_value_inv (s : string) (t : FieldType) :
  FieldType_of_value s = Some t -> s = FieldType_value t.
Proof.
  unfold FieldType_of_value.
  destruct (String.eqb_spec s "angle") as [-> |_]; [intros [= <-]; reflexivity|].
  destruct (String.eqb_spec s "height") as [-> |_]; [intros [= <-]; reflexivity|].
  discriminate.
Qed.

(** What the constructor makes of its arguments when it returns. *)
Lemma SurfaceGroup_init_inv (l : list Surface) (kw : group_kwargs)
    (g : SurfaceGroup) :
  SurfaceGroup_init l kw = Ok g ->
  surfaces g = l /\
  stop_surface g = gk_stop_surface kw /\
  match gk_wavelengths_nm kw with
  | None => wavelengths_nm g = [float_587_56]
  | Some wl => wl = map Some (wavelengths_nm g)
  end /\
  match gk_primary_wavelength_index kw with
  | None => primary_wavelength_index g = 0
  | Some n => primary_wavelength_index g = n
  end /\
  match gk_field_type kw with
  | None => field_type g = ANGLE
  | Some None => False
  | Some (Some s) => s = FieldType_value (field_type g)
  end /\
  match gk_max_field kw with
  | None => max_field g = Float.zero
  | Some None => False
  | Some (Some x) => max_field g = x
  end.
Proof.
  intros H. unfold SurfaceGroup_init in H.
  destruct l as [|s l]; [discriminate H|]. cbn [obind] in H.
  match type of H with
  | obind ?x _ = _ => destruct x as [stop|] eqn:Hstop; [|discriminate H]
  end. cbn [obind] in H.
  match type of H with
  | obind ?x _ = _ => destruct x as [wl|] eqn:Hwl; [|discriminate H]
  end. cbn [obind] in H.
  match type of H with
  | obind ?x _ = _ => destruct x as [pwi|] eqn:Hpwi; [|discriminate H]
  end. cbn [obind] in H.
  match type of H with
  | obind ?x _ = _ => destruct x as [ft|] eqn:Hft; [|discriminate H]
  end. cbn [obind] in H.
  match type of H with
  | obind ?x _ = _ => destruct x as [mf|] eqn:Hmf; [|discriminate H]
  end. cbn [obind] in H.
  injection H as <-. simpl.
  split; [reflexivity|]. split; [|split; [|split; [|split]]].
  - destruct (gk_stop_surface kw) as [n|]; [|congruence].
    destruct (n <? 0); [discriminate Hstop | congruence].
  - destruct (gk_wavelengths_nm kw) as [wl0|]; [|congruence].
    assert (Hall : omap wavelength_item wl0 = Ok wl)
      by (destruct wl0; [discriminate Hwl | exact Hwl]).
    apply omap_inv in Hall. clear Hwl.
    induction Hall as [|o x wl0 wl Hx _ IH]; [reflexivity|].
    simpl. rewrite <- IH. f_equal.
    destruct o; [injection Hx as <-; reflexivity | discriminate Hx].
  - destruct (gk_primary_wavelength_index kw) as [n|]; [|congruence].
    destruct (n <? 0); [discriminate Hpwi | congruence].
  - destruct (gk_field_type kw) as [[s0|]|]; [| discriminate Hft | congruence].
    destruct (FieldType_of_value s0) as [t|] eqn:Ht; [|discriminate Hft].
    injection Hft as <-. apply FieldType_of_value_inv, Ht.
  - unfold float_field_ge0 in Hmf.
    destruct (gk_max_field kw) as [[x|]|]; [| discriminate Hmf | congruence].
    destruct (Float.geb x Float.zero); [congruence | discriminate Hmf].
Qed.

Section SelectiveResult.

Context {E : Externals}.

(** The steps of [decrypt_payload_selective] when it returns. *)
Lemma decrypt_payload_selective_inv (d : json_dict) (pk : PublicKey)
    (k : PrivateKey) (w : world) (g : SurfaceGroup) :
  fst (decrypt_payload_selective d pk k w) = Ok g ->
  exists public_surfaces encrypted_surfaces,
    omap Surface_model_validate (get (jd_public_surfaces d) [])
      = Ok public_surfaces /\
    Forall Surface_valid encrypted_surfaces /\
    Forall (fun idx => 0 <= idx) (get (jd_redacted_surface_indices d) []) /\
    SurfaceGroup_init
      (sort_by surface_number
         (public_surfaces ++ encrypted_surfaces
            ++ map redacted_placeholder
                 (get (jd_redacted_surface_indices d) [])))
      (mkGroupKwargs
         (jd_stop_surface d)
         (Some (get (jd_wavelengths_nm d) [Some float_550]))
         (Some (get (jd_primary_wavelength_index d) 0))
         (Some (jd_field_type d))
         (Some (match jd_max_field d with
                | Some x => x
                | None => None
                end)))
    = Ok g.
Proof.
  unfold decrypt_payload_selective. intros H.
  destruct (omap Surface_model_validate (get (jd_public_surfaces d) []))
    as [publics|] eqn:Hpub; [|discriminate H].
  unfold lift at 1 in H. unfold bind at 1 in H.
  exists publics.
  match type of H with
  | fst (bind ?m _ _) = _ =>
      destruct (m w) as [[encs|e] w1] eqn:Henc;
        [rewrite (bind_run _ _ _ _ _ Henc) in H
        |rewrite (bind_raise _ _ _ _ _ Henc) in H; discriminate H]
  end.
  exists encs.
  destruct (omap (fun idx => Surface_init (redacted_kwargs idx))
              (get (jd_redacted_surface_indices d) []))
    as [reds|] eqn:Hred; [|discriminate H].
  unfold lift, bind in H. cbn [fst] in H.
  apply omap_placeholders_inv in Hred as [-> Hidx].
  split; [reflexivity|]. split; [|split; [exact Hidx | exact H]].
  clear H. revert Henc.
  destruct (get (jd_encrypted_surfaces_data d) EmptyString).
  - intros [= <- _]. constructor.
  - unfold OBBEncryptor_decrypt. unfold_M.
    destruct (b64decode _); [|discriminate].
    destruct (hybrid_open _ _ _); [|discriminate].
    destruct (json_loads _) as [[d'|]| | | |]; try discriminate.
    destruct (omap Surface_model_validate (get (jd_surfaces d') []))
      as [l|] eqn:Hl; [|discriminate].
    intros [= <- _]. exact (omap_init_valid _ _ Hl).
Qed.

End SelectiveResult.

(** X9.  Whatever the payload, when [decrypt_payload_selective] returns a
    group, the surfaces of the group are sorted by number and satisfy the
    constraints of the model, each redacted index of the payload is there
    as the default placeholder of that number, and the system fields are
    those of the payload: [field_type] and [max_field] must be present
    (the constructor gets [None] for a missing key and rejects it), a
    missing [wavelengths_nm] is read as [550.0] and a missing
    [primary_wavelength_index] as 0. *)
Theorem decrypt_payload_selective_result (E : Externals) (d : json_dict)
    (pk : PublicKey) (k : PrivateKey) (w : world) (g : SurfaceGroup) :
  fst (decrypt_payload_selective d pk k w) = Ok g ->
  StronglySorted (key_le surface_number) (surfaces g) /\
  SurfaceGroup_valid g /\
  (forall idx, In idx (get (jd_redacted_surface_indices d) []) ->
     In (redacted_placeholder idx) (surfaces g)) /\
  jd_field_type d = Some (FieldType_value (field_type g)) /\
  jd_max_field d = Some (Some (max_field g)) /\
  stop_surface g = jd_stop_surface d /\
  map Some (wavelengths_nm g) = get (jd_wavelengths_nm d) [Some float_550] /\
  primary_wavelength_index g = get (jd_primary_wavelength_index d) 0.
Proof.
  intros H.
  destruct (decrypt_payload_selective_inv d pk k w g H)
    as (publics & encs & Hpub & Hencs & Hidx & Hinit).
  set (reds := map redacted_placeholder
                 (get (jd_redacted_surface_indices d) [])) in *.
  set (all := publics ++ encs ++ reds) in *.
  destruct (SurfaceGroup_init_inv _ _ _ Hinit)
    as (Hs & Hstop & Hwl & Hpwi & Hft & Hmf).
  cbn [gk_stop_surface gk_wavelengths_nm gk_primary_wavelength_index
       gk_field_type gk_max_field] in *.
  assert (Hreds : Forall Surface_valid reds).
  { subst reds. rewrite Forall_map.
    eapply Forall_impl; [|exact Hidx]. intros idx Hge.
    unfold Surface_valid. simpl. repeat split. exact Hge. }
  assert (Hall : Forall Surface_valid (sort_by surface_number all)).
  { rewrite Forall_forall. intros s Hin.
    apply (Permutation_in _ (Permutation_sym (sort_by_perm surface_number all)))
      in Hin.
    subst all. rewrite !in_app_iff in Hin.
    pose proof (omap_init_valid _ _ Hpub) as Hpubs.
    rewrite Forall_forall in Hpubs, Hencs, Hreds.
    destruct Hin as [Hin | [Hin | Hin]]; auto. }
  split; [rewrite Hs; apply sort_by_sorted|].
  split; [exact (SurfaceGroup_init_valid _ _ _ Hall Hinit)|].
  split.
  { intros idx Hin. rewrite Hs.
    apply (Permutation_in _ (sort_by_perm surface_number all)).
    subst all reds. rewrite !in_app_iff. right. right.
    apply in_map, Hin. }
  split.
  { destruct (jd_field_type d); [congruence | contradiction]. }
  split.
  { destruct (jd_max_field d) as [[x|]|]; [congruence | contradiction..]. }
  split; [exact Hstop|]. split; [symmetry; exact Hwl | exact Hpwi].
Qed.

(** X9 on the payload that lists surface 4 as redacted. *)
Lemma decrypt_payload_selective_result_witness :
  In (redacted_placeholder 4) [redacted_placeholder 4].
Proof.
  exact (proj1 (proj2 (proj2
    (decrypt_payload_selective_result Toy.externals payload_redacted_4 0 0
       world_0
       (mkSurfaceGroup [redacted_placeholder 4] None [float_550] 0 ANGLE
          Float.zero)
       eq_refl))) 4 (or_introl eq_refl)).
Defined.

(** ** A blob that does not open *)

(** X10.  The selective readers give all or nothing.  On a container whose
    payload is a selective payload with public surfaces in clear and an
    encrypted blob that the given private key does not open, [read] and
    [read_and_decrypt_selective] raise [DecryptionError]: the public
    surfaces are not returned either. *)
Theorem undecryptable_blob_hides_public_surfaces (E : Externals)
    (path : string) (platform_private_key : PrivateKey)
    (vendor_public_key : PublicKey) (verify_signature : bool) (w : world)
    (header : OBBHeader PublicKey) (payload : bytes)
    (payload_dict : json_dict) (public_surfaces : list Surface)
    (data : string) (blob : bytes) :
  fst (read_container path w) = Ok (header, payload) ->
  (verify_signature = true ->
   ecdsa_verify vendor_public_key payload
     (signature (extract_metadata header)) = Some true) ->
  json_loads payload = JsonOk (JObject payload_dict) ->
  jd_encryption_mode payload_dict = Some "selective" ->
  omap Surface_model_validate (get (jd_public_surfaces payload_dict) [])
    = Ok public_surfaces ->
  jd_encrypted_surfaces_data payload_dict = Some data ->
  data <> EmptyString ->
  b64decode data = Some blob ->
  hybrid_open platform_private_key (extract_ephemeral_key header) blob
    = None ->
  fst (read path platform_private_key vendor_public_key verify_signature w)
    = Raise DecryptionError /\
  fst (read_and_decrypt_selective path platform_private_key
         vendor_public_key verify_signature w)
    = Raise DecryptionError.
Proof.
  intros Hread Hverify Hjson Hmode Hpub Hdata Hne Hb64 Hopen.
  destruct (read_container path w) as [[[h p]|e] w1] eqn:Hrc;
    simpl in Hread; [|discriminate Hread].
  injection Hread as -> ->.
  assert (Hcheck : exists w2,
    check_signature verify_signature payload (extract_metadata header)
      vendor_public_key w1 = (Ok tt, w2)).
  { rewrite check_signature_run. destruct verify_signature.
    - rewrite (Hverify eq_refl). eexists. reflexivity.
    - eexists. reflexivity. }
  destruct Hcheck as (w2 & Hcheck).
  assert (Hdecrypt : forall w0, exists w3,
    decrypt_payload_selective payload_dict (extract_ephemeral_key header)
      platform_private_key w0 = (Raise DecryptionError, w3)).
  { intros w0. unfold decrypt_payload_selective.
    rewrite Hpub, Hdata. cbn [get].
    destruct data as [|c rest]; [congruence|].
    rewrite Hb64. unfold OBBEncryptor_decrypt. unfold_M. rewrite Hopen.
    eexists. reflexivity. }
  unfold read, read_and_decrypt_selective.
  rewrite !(bind_run _ _ _ _ _ Hrc), !(bind_run _ _ _ _ _ Hcheck).
  destruct (Hdecrypt w2) as (w3 & Hrun).
  unfold try_except, json_loads_or_raise, bind, ret, is_selective.
  rewrite Hjson, Hmode. simpl. rewrite Hrun. split; reflexivity.
Qed.

Lemma locked_container_read :
  fst (read_container (E := Toy.externals) lens_path Locked.world_locked)
  = Ok (Locked.header_locked,
        json_dumps (Externals := Toy.externals)
          (JObject Locked.payload_locked)).
Proof. vm_compute. reflexivity. Qed.

Lemma locked_payload_loads :
  json_loads (Externals := Toy.externals)
    (json_dumps (Externals := Toy.externals) (JObject Locked.payload_locked))
  = JsonOk (JObject Locked.payload_locked).
Proof. apply ToyLaws.json_roundtrip. Qed.

(** X10 on the scenario: the blob ["x"] is no ciphertext. *)
Lemma undecryptable_blob_hides_public_surfaces_witness :
  fst (read (E := Toy.externals) lens_path platform_private_key
         vendor_public_key false Locked.world_locked)
  = Raise DecryptionError.
Proof.
  exact (proj1
    (undecryptable_blob_hides_public_surfaces Toy.externals lens_path
       platform_private_key vendor_public_key false Locked.world_locked
       Locked.header_locked _ Locked.payload_locked [surface_0] "x" [x78]
       locked_container_read ltac:(discriminate) locked_payload_loads
       eq_refl eq_refl eq_refl ltac:(discriminate) eq_refl eq_refl)).
Defined.
